(** * P_AndroidBrowserCustomTab: the deep-link codec, the session state and
      the PostMessage retry loop

    A shallow embedding of
    - [ChromeCustomTabs.java]: [queryStringToJson], [handleDeepLink],
      [requestPostMessageChannel], [attemptPostMessageChannelRequest],
      [executeJava], [openTab], [open], [openInternal], the binding of the
      service and the [CustomTabsCallback];
    - [CPP_ABCT_Base.cpp]: the [ChromeCustomTabsRegistry], [OpenChromeCustomTab],
      [CloseChromeCustomTab], [HandleNavigationEvent], [HandleDeepLink] and the
      [GetDeepLinkParameter*] helpers;
    - [ChromeCustomTabsJNI.cpp]: the names under which events reach C++, and
      the tasks the native calls run on the game thread.

    Strings are sequences of UTF-8 code units ([string], one [ascii] per byte):
    this is what crosses the JNI boundary ([GetStringUTFChars]), for text
    without NUL and within the basic plane. *)

From Stdlib Require Import ZArith List Ascii String Bool Lia DecimalString.
From Stdlib Require DecimalZ.
From stdpp Require Import base option gmap.

Import ListNotations.
Local Open Scope string_scope.

(** ** Characters and strings *)

Module Chars.

Definition quote : ascii := ascii_of_nat 34.
Definition backslash : ascii := ascii_of_nat 92.
Definition space : ascii := ascii_of_nat 32.

Definition in_range (lo hi : nat) (c : ascii) : bool :=
  (lo <=? nat_of_ascii c)%nat && (nat_of_ascii c <=? hi)%nat.

Definition is_digit : ascii -> bool := in_range 48 57.
Definition is_upper : ascii -> bool := in_range 65 90.

(** The value of a hexadecimal digit, [None] for any other character. *)
Definition hex_value (c : ascii) : option nat :=
  let n := nat_of_ascii c in
  if in_range 48 57 c then Some (n - 48)%nat
  else if in_range 65 70 c then Some (n - 55)%nat
  else if in_range 97 102 c then Some (n - 87)%nat
  else None.

(** ASCII case folding, as [FChar::ToLower] does on the ASCII range. *)
Definition to_lower (c : ascii) : ascii :=
  if is_upper c then ascii_of_nat (nat_of_ascii c + 32) else c.

End Chars.

(** ** The Java side of the codec: [String.split], [URLDecoder.decode] *)

Module Java.

(** A Java call either returns or throws. *)
Inductive Throwable := IllegalArgumentException.

Inductive Result (A : Type) :=
| Returns (a : A)
| Throws (e : Throwable).
Arguments Returns {A} a.
Arguments Throws {A} e.

Definition bind {A B} (r : Result A) (k : A -> Result B) : Result B :=
  match r with
  | Returns a => k a
  | Throws e => Throws e
  end.

(** [s.indexOf(ch) != -1] together with the two substrings around the first
    occurrence. *)
Fixpoint cut_at (ch : ascii) (s : string) : option (string * string) :=
  match s with
  | EmptyString => None
  | String c r =>
      if Ascii.eqb c ch then Some (EmptyString, r)
      else match cut_at ch r with
           | Some (before, after) => Some (String c before, after)
           | None => None
           end
  end.

(** Every substring between two occurrences of [ch], empty ones included. *)
Fixpoint pieces (ch : ascii) (s : string) : list string :=
  match s with
  | EmptyString => [EmptyString]
  | String c r =>
      if Ascii.eqb c ch then EmptyString :: pieces ch r
      else match pieces ch r with
           | p :: ps => String c p :: ps
           | [] => [String c EmptyString]
           end
  end.

Definition isEmpty (s : string) : bool :=
  match s with EmptyString => true | _ => false end.

(** [while (resultSize > 0 && list.get(resultSize - 1).isEmpty()) resultSize--] *)
Fixpoint strip_trailing_empty (l : list string) : list string :=
  match l with
  | [] => []
  | p :: ps =>
      match strip_trailing_empty ps with
      | [] => if isEmpty p then [] else [p]
      | ps' => p :: ps'
      end
  end.

(** [s.split(ch)], that is [split(ch, 0)]: the string itself when [ch] does
    not occur, otherwise all pieces with the trailing empty ones removed. *)
Definition split (ch : ascii) (s : string) : list string :=
  match cut_at ch s with
  | None => [s]
  | Some _ => strip_trailing_empty (pieces ch s)
  end.

(** [s.split(ch, 2)]: at most two parts, cut at the first occurrence; a
    trailing empty part is kept. *)
Definition split2 (ch : ascii) (s : string) : list string :=
  match cut_at ch s with
  | None => [s]
  | Some (before, after) => [before; after]
  end.

(** [URLDecoder.decode(s, "UTF-8")] on Android: [+] becomes a space, [%xy]
    with two hexadecimal digits becomes the byte [xy], a [%] followed by
    anything else throws [IllegalArgumentException], every other character is
    copied.  The decoded bytes are kept as they are, which is what the
    decoder yields for well-formed UTF-8 (it replaces malformed sequences by
    U+FFFD, which the model leaves out). *)
Fixpoint URLDecoder_decode (s : string) : Result string :=
  match s with
  | EmptyString => Returns EmptyString
  | String c r =>
      if Ascii.eqb c "+" then
        bind (URLDecoder_decode r) (fun d => Returns (String Chars.space d))
      else if Ascii.eqb c "%" then
        match r with
        | String h (String l r') =>
            match Chars.hex_value h, Chars.hex_value l with
            | Some vh, Some vl =>
                bind (URLDecoder_decode r')
                     (fun d => Returns (String (ascii_of_nat (16 * vh + vl)) d))
            | _, _ => Throws IllegalArgumentException
            end
        | _ => Throws IllegalArgumentException
        end
      else bind (URLDecoder_decode r) (fun d => Returns (String c d))
  end.

Definition q : string := String Chars.quote EmptyString.

(** The [for] loop of [queryStringToJson]: [i] is the loop index, [json] the
    [StringBuilder].  [UnsupportedEncodingException] is the only exception
    the loop catches, and UTF-8 never raises it. *)
Fixpoint queryStringToJson_loop (i : nat) (pairs : list string) (json : string)
  : Result string :=
  match pairs with
  | [] => Returns json
  | kv :: rest =>
      match split2 "=" kv with
      | [key; value] =>
          let json := if (0 <? i)%nat then json ++ "," else json in
          bind (URLDecoder_decode value) (fun decodedValue =>
            queryStringToJson_loop (S i) rest
              (json ++ q ++ key ++ q ++ ":" ++ q ++ decodedValue ++ q))
      | _ => queryStringToJson_loop (S i) rest json
      end
  end.

(** [queryStringToJson(query)]; [None] is Java's [null]. *)
Definition queryStringToJson (query : option string) : Result string :=
  match query with
  | None => Returns "{}"
  | Some query =>
      if isEmpty query then Returns "{}"
      else bind (queryStringToJson_loop 0 (split "&" query) "{")
                (fun json => Returns (json ++ "}"))
  end.

End Java.

(** ** The engine side of the codec: [FString], [TJsonReader], [FJsonObject] *)

Module Engine.

Fixpoint ToLower (s : string) : string :=
  match s with
  | EmptyString => EmptyString
  | String c r => String (Chars.to_lower c) (ToLower r)
  end.

(** [FString::operator==] ignores case ([ESearchCase::IgnoreCase]); so do the
    keys of a [TMap<FString, _>]. *)
Definition FString_eq (a b : string) : bool := String.eqb (ToLower a) (ToLower b).

Definition IsEmpty (s : string) : bool :=
  match s with EmptyString => true | _ => false end.

#[local] Unset Elimination Schemes.
Inductive FJsonValue :=
| JsonString (s : string)
| JsonNumber (lexeme : string)
| JsonBoolean (b : bool)
| JsonNull
| JsonArray (elements : list FJsonValue)
| JsonObject (Values : list (string * FJsonValue)).
#[local] Set Elimination Schemes.

Abbreviation FJsonObject := (list (string * FJsonValue)).

(** [FJsonObject::SetField]: [TMap::Add] replaces the value of a key that is
    already there. *)
Fixpoint SetField (Values : FJsonObject) (FieldName : string) (Value : FJsonValue)
  : FJsonObject :=
  match Values with
  | [] => [(FieldName, Value)]
  | (k, v) :: rest =>
      if FString_eq k FieldName then (FieldName, Value) :: rest
      else (k, v) :: SetField rest FieldName Value
  end.

Fixpoint TryGetField (Values : FJsonObject) (FieldName : string) : option FJsonValue :=
  match Values with
  | [] => None
  | (k, v) :: rest =>
      if FString_eq k FieldName then Some v else TryGetField rest FieldName
  end.

Definition HasField (Values : FJsonObject) (FieldName : string) : bool :=
  match TryGetField Values FieldName with Some _ => true | None => false end.

(** The outcome of reading a token or a value from the front of a string. *)
Inductive Read (A : Type) :=
| Parsed (a : A) (rest : string)
| Malformed
| OutOfFuel.
Arguments Parsed {A} a rest.
Arguments Malformed {A}.
Arguments OutOfFuel {A}.

Definition is_whitespace (c : ascii) : bool :=
  match nat_of_ascii c with
  | 32 | 9 | 10 | 13 => true
  | _ => false
  end.

Fixpoint skip_ws (s : string) : string :=
  match s with
  | String c r => if is_whitespace c then skip_ws r else s
  | EmptyString => EmptyString
  end.

(** UTF-8 code units of a code point below 0x10000 (the value of a [\uXXXX]
    escape). *)
Definition utf8 (cp : nat) (tail : string) : string :=
  if (cp <? 128)%nat then String (ascii_of_nat cp) tail
  else if (cp <? 2048)%nat then
    String (ascii_of_nat (192 + cp / 64))
      (String (ascii_of_nat (128 + cp mod 64)) tail)
  else
    String (ascii_of_nat (224 + cp / 4096))
      (String (ascii_of_nat (128 + (cp / 64) mod 64))
         (String (ascii_of_nat (128 + cp mod 64)) tail)).

Definition escape_char (e : ascii) : option ascii :=
  match nat_of_ascii e with
  | 34 => Some Chars.quote
  | 92 => Some Chars.backslash
  | 47 => Some "/"%char
  | 98 => Some (ascii_of_nat 8)     (* b: backspace *)
  | 102 => Some (ascii_of_nat 12)   (* f: form feed *)
  | 110 => Some (ascii_of_nat 10)   (* n: line feed *)
  | 114 => Some (ascii_of_nat 13)   (* r: carriage return *)
  | 116 => Some (ascii_of_nat 9)    (* t: tab *)
  | _ => None
  end.

(** The characters of a string token after its opening quote, up to the
    closing quote, escapes resolved. *)
Fixpoint parse_string (s : string) : Read string :=
  match s with
  | EmptyString => Malformed
  | String c r =>
      if Ascii.eqb c Chars.quote then Parsed EmptyString r
      else if Ascii.eqb c Chars.backslash then
        match r with
        | String e r1 =>
            if Ascii.eqb e "u" then
              match r1 with
              | String h1 (String h2 (String h3 (String h4 r2))) =>
                  match Chars.hex_value h1, Chars.hex_value h2,
                        Chars.hex_value h3, Chars.hex_value h4 with
                  | Some a, Some b, Some c', Some d =>
                      match parse_string r2 with
                      | Parsed t rest =>
                          Parsed (utf8 (((a * 16 + b) * 16 + c') * 16 + d) t) rest
                      | other => other
                      end
                  | _, _, _, _ => Malformed
                  end
              | _ => Malformed
              end
            else
              match escape_char e with
              | Some x =>
                  match parse_string r1 with
                  | Parsed t rest => Parsed (String x t) rest
                  | other => other
                  end
              | None => Malformed
              end
        | EmptyString => Malformed
        end
      else
        match parse_string r with
        | Parsed t rest => Parsed (String c t) rest
        | other => other
        end
  end.

(** The rest of the string after the character [c], if the string starts
    with it. *)
Definition eat (c : ascii) (s : string) : option string :=
  match s with
  | String x r => if Ascii.eqb x c then Some r else None
  | EmptyString => None
  end.

(** Number tokens: [-? digits (. digits)? ([eE] [+-]? digits)?], where the
    integer part has no superfluous leading zero. *)
Fixpoint take_digits (s : string) : string * string :=
  match s with
  | String c r =>
      if Chars.is_digit c then let (d, rest) := take_digits r in (String c d, rest)
      else (EmptyString, s)
  | EmptyString => (EmptyString, EmptyString)
  end.

Definition leading_zero (digits : string) : bool :=
  match eat "0" digits with
  | Some rest => negb (IsEmpty rest)
  | None => false
  end.

Definition parse_fraction (s : string) : option (string * string) :=
  match eat "." s with
  | Some r =>
      let (d, rest) := take_digits r in
      if IsEmpty d then None else Some ("." ++ d, rest)
  | None => Some (EmptyString, s)
  end.

Definition parse_exponent (s : string) : option (string * string) :=
  match s with
  | String e r =>
      if Ascii.eqb e "e" || Ascii.eqb e "E" then
        let (sg, r1) :=
          match eat "+" r, eat "-" r with
          | Some r', _ => ("+", r')
          | _, Some r' => ("-", r')
          | None, None => (EmptyString, r)
          end in
        let (d, rest) := take_digits r1 in
        if IsEmpty d then None else Some (String e (sg ++ d), rest)
      else Some (EmptyString, s)
  | EmptyString => Some (EmptyString, s)
  end.

Definition parse_number (s : string) : Read string :=
  let (sign, s1) :=
    match eat "-" s with
    | Some r => ("-", r)
    | None => (EmptyString, s)
    end in
  let (int, s2) := take_digits s1 in
  if IsEmpty int || leading_zero int then Malformed
  else
    match parse_fraction s2 with
    | None => Malformed
    | Some (f, s3) =>
        match parse_exponent s3 with
        | None => Malformed
        | Some (x, s4) => Parsed (sign ++ int ++ f ++ x) s4
        end
    end.

Fixpoint strip_prefix (p s : string) : option string :=
  match p, s with
  | EmptyString, _ => Some s
  | String a p', String b s' => if Ascii.eqb a b then strip_prefix p' s' else None
  | _, EmptyString => None
  end.

Definition parse_literal (s : string) : Read FJsonValue :=
  match strip_prefix "true" s, strip_prefix "false" s, strip_prefix "null" s with
  | Some r, _, _ => Parsed (JsonBoolean true) r
  | _, Some r, _ => Parsed (JsonBoolean false) r
  | _, _, Some r => Parsed JsonNull r
  | _, _, _ => Malformed
  end.

(** The reader proper, first as one step of each of its three functions (a
    value, the members of an object after its brace, the elements of an array
    after its bracket) over the functions that read what is nested. *)
Definition value_step
  (members : string -> FJsonObject -> Read FJsonObject)
  (elements : string -> Read (list FJsonValue)) (s : string) : Read FJsonValue :=
  match skip_ws s with
  | EmptyString => Malformed
  | String c r =>
      if Ascii.eqb c "{" then
        match eat "}" (skip_ws r) with
        | Some r' => Parsed (JsonObject []) r'
        | None =>
            match members r [] with
            | Parsed fs rest => Parsed (JsonObject fs) rest
            | Malformed => Malformed
            | OutOfFuel => OutOfFuel
            end
        end
      else if Ascii.eqb c "[" then
        match eat "]" (skip_ws r) with
        | Some r' => Parsed (JsonArray []) r'
        | None =>
            match elements r with
            | Parsed vs rest => Parsed (JsonArray vs) rest
            | Malformed => Malformed
            | OutOfFuel => OutOfFuel
            end
        end
      else if Ascii.eqb c Chars.quote then
        match parse_string r with
        | Parsed t rest => Parsed (JsonString t) rest
        | Malformed => Malformed
        | OutOfFuel => OutOfFuel
        end
      else if Chars.is_digit c || Ascii.eqb c "-" then
        match parse_number (String c r) with
        | Parsed t rest => Parsed (JsonNumber t) rest
        | Malformed => Malformed
        | OutOfFuel => OutOfFuel
        end
      else parse_literal (String c r)
  end.

Definition members_step
  (value : string -> Read FJsonValue)
  (members : string -> FJsonObject -> Read FJsonObject)
  (s : string) (acc : FJsonObject) : Read FJsonObject :=
  match eat Chars.quote (skip_ws s) with
  | Some r =>
      match parse_string r with
      | Parsed Identifier r1 =>
          match eat ":" (skip_ws r1) with
          | Some r2 =>
              match value r2 with
              | Parsed v r3 =>
                  match eat "," (skip_ws r3), eat "}" (skip_ws r3) with
                  | Some r4, _ => members r4 (SetField acc Identifier v)
                  | None, Some r4 => Parsed (SetField acc Identifier v) r4
                  | None, None => Malformed
                  end
              | Malformed => Malformed
              | OutOfFuel => OutOfFuel
              end
          | None => Malformed
          end
      | Malformed => Malformed
      | OutOfFuel => OutOfFuel
      end
  | None => Malformed
  end.

Definition elements_step
  (value : string -> Read FJsonValue)
  (elements : string -> Read (list FJsonValue)) (s : string) : Read (list FJsonValue) :=
  match value s with
  | Parsed v r1 =>
      match eat "," (skip_ws r1), eat "]" (skip_ws r1) with
      | Some r2, _ =>
          match elements r2 with
          | Parsed vs rest => Parsed (v :: vs) rest
          | Malformed => Malformed
          | OutOfFuel => OutOfFuel
          end
      | None, Some r2 => Parsed [v] r2
      | None, None => Malformed
      end
  | Malformed => Malformed
  | OutOfFuel => OutOfFuel
  end.

(** [fuel] bounds the nesting and the number of members and elements; more
    than twice the length of the input is always enough
    ([parse_enough_fuel] below), and a result does not change with more fuel
    ([parse_more_fuel]). *)
Fixpoint parse_value (fuel : nat) (s : string) : Read FJsonValue :=
  match fuel with
  | O => OutOfFuel
  | S fuel => value_step (parse_members fuel) (parse_elements fuel) s
  end
with parse_members (fuel : nat) (s : string) (acc : FJsonObject) : Read FJsonObject :=
  match fuel with
  | O => OutOfFuel
  | S fuel => members_step (parse_value fuel) (parse_members fuel) s acc
  end
with parse_elements (fuel : nat) (s : string) : Read (list FJsonValue) :=
  match fuel with
  | O => OutOfFuel
  | S fuel => elements_step (parse_value fuel) (parse_elements fuel) s
  end.

(** [FJsonSerializer::Deserialize(Reader, JsonObject) && JsonObject.IsValid()]:
    the text is one JSON object, with nothing but white space after it. *)
Definition Deserialize (text : string) : option FJsonObject :=
  match parse_value (S (2 * String.length text)) text with
  | Parsed (JsonObject Values) rest =>
      if IsEmpty (skip_ws rest) then Some Values else None
  | _ => None
  end.

End Engine.

(** ** The C++ object: [UCPP_ABCT_Base] and the [ChromeCustomTabsRegistry] *)

Module Unreal.
Import Engine.

(** The address of a [UObject]. *)
Abbreviation addr := positive.

Record UCPP_ABCT_Base := {
  bIsCustomTabOpen : bool;
  CurrentURL : string;
  LastNavigationEvent : string;
  LastDeepLinkAction : string;
  LastDeepLinkParams : string;
  DefaultToolbarColor : string;
  bShowTitle : bool;
  bEnableUrlBarHiding : bool;
  CustomUserAgent : string;
  CustomHeader : string;
  bEnableDebugLogging : bool
}.

(** The state a freshly constructed object has ([UCPP_ABCT_Base::UCPP_ABCT_Base]). *)
Definition constructed : UCPP_ABCT_Base := {|
  bIsCustomTabOpen := false;
  CurrentURL := EmptyString;
  LastNavigationEvent := EmptyString;
  LastDeepLinkAction := EmptyString;
  LastDeepLinkParams := EmptyString;
  DefaultToolbarColor := "#4285F4";
  bShowTitle := true;
  bEnableUrlBarHiding := true;
  CustomUserAgent := EmptyString;
  CustomHeader := EmptyString;
  bEnableDebugLogging := true
|}.

Definition set_bIsCustomTabOpen (b : bool) (o : UCPP_ABCT_Base) : UCPP_ABCT_Base := {|
  bIsCustomTabOpen := b;
  CurrentURL := CurrentURL o;
  LastNavigationEvent := LastNavigationEvent o;
  LastDeepLinkAction := LastDeepLinkAction o;
  LastDeepLinkParams := LastDeepLinkParams o;
  DefaultToolbarColor := DefaultToolbarColor o;
  bShowTitle := bShowTitle o;
  bEnableUrlBarHiding := bEnableUrlBarHiding o;
  CustomUserAgent := CustomUserAgent o;
  CustomHeader := CustomHeader o;
  bEnableDebugLogging := bEnableDebugLogging o
|}.

Definition set_CurrentURL (u : string) (o : UCPP_ABCT_Base) : UCPP_ABCT_Base := {|
  bIsCustomTabOpen := bIsCustomTabOpen o;
  CurrentURL := u;
  LastNavigationEvent := LastNavigationEvent o;
  LastDeepLinkAction := LastDeepLinkAction o;
  LastDeepLinkParams := LastDeepLinkParams o;
  DefaultToolbarColor := DefaultToolbarColor o;
  bShowTitle := bShowTitle o;
  bEnableUrlBarHiding := bEnableUrlBarHiding o;
  CustomUserAgent := CustomUserAgent o;
  CustomHeader := CustomHeader o;
  bEnableDebugLogging := bEnableDebugLogging o
|}.

Definition set_LastNavigationEvent (e : string) (o : UCPP_ABCT_Base) : UCPP_ABCT_Base := {|
  bIsCustomTabOpen := bIsCustomTabOpen o;
  CurrentURL := CurrentURL o;
  LastNavigationEvent := e;
  LastDeepLinkAction := LastDeepLinkAction o;
  LastDeepLinkParams := LastDeepLinkParams o;
  DefaultToolbarColor := DefaultToolbarColor o;
  bShowTitle := bShowTitle o;
  bEnableUrlBarHiding := bEnableUrlBarHiding o;
  CustomUserAgent := CustomUserAgent o;
  CustomHeader := CustomHeader o;
  bEnableDebugLogging := bEnableDebugLogging o
|}.

Definition set_LastDeepLink (a p : string) (o : UCPP_ABCT_Base) : UCPP_ABCT_Base := {|
  bIsCustomTabOpen := bIsCustomTabOpen o;
  CurrentURL := CurrentURL o;
  LastNavigationEvent := LastNavigationEvent o;
  LastDeepLinkAction := a;
  LastDeepLinkParams := p;
  DefaultToolbarColor := DefaultToolbarColor o;
  bShowTitle := bShowTitle o;
  bEnableUrlBarHiding := bEnableUrlBarHiding o;
  CustomUserAgent := CustomUserAgent o;
  CustomHeader := CustomHeader o;
  bEnableDebugLogging := bEnableDebugLogging o
|}.

(** What leaves the object: the Blueprint events it broadcasts and the
    static Java methods it calls. *)
Inductive Outgoing :=
| OnNavigationEvent (this : addr) (Event URL : string)
| OnDeepLinkReceived (this : addr) (Action ParamsJson : string)
| CallStaticVoidMethod_closeTab.

(** The process: the live objects, the registry's weak pointer
    ([None] is [nullptr]) and the trace of outgoing calls, latest first. *)
Record World := {
  objects : gmap addr UCPP_ABCT_Base;
  ActiveInstance : option addr;
  outgoing : list Outgoing
}.

Definition with_objects (f : gmap addr UCPP_ABCT_Base -> gmap addr UCPP_ABCT_Base)
  (w : World) : World :=
  {| objects := f (objects w); ActiveInstance := ActiveInstance w; outgoing := outgoing w |}.

Definition with_ActiveInstance (p : option addr) (w : World) : World :=
  {| objects := objects w; ActiveInstance := p; outgoing := outgoing w |}.

Definition emit (o : Outgoing) (w : World) : World :=
  {| objects := objects w; ActiveInstance := ActiveInstance w; outgoing := o :: outgoing w |}.

(** A write to a member of [this]. *)
Definition assign (this : addr) (f : UCPP_ABCT_Base -> UCPP_ABCT_Base) (w : World) : World :=
  with_objects (alter f this) w.

(** A read of a member of [this]; the default is never used on a live object. *)
Definition member {A} (this : addr) (f : UCPP_ABCT_Base -> A) (d : A) (w : World) : A :=
  match objects w !! this with
  | Some o => f o
  | None => d
  end.

Definition IsChromeCustomTabOpen (this : addr) (w : World) : bool :=
  member this bIsCustomTabOpen false w.

Definition GetCurrentURL (this : addr) (w : World) : string :=
  member this CurrentURL EmptyString w.

(** *** namespace ChromeCustomTabsRegistry *)

Definition RegisterActiveInstance (Instance : option addr) (w : World) : World :=
  with_ActiveInstance Instance w.

Definition UnregisterActiveInstance (w : World) : World :=
  with_ActiveInstance None w.

(** [ActiveInstance.IsValid() ? ActiveInstance.Get() : nullptr]: a weak
    pointer is valid while its object is alive. *)
Definition GetActiveInstance (w : World) : option addr :=
  match ActiveInstance w with
  | Some p => if decide (is_Some (objects w !! p)) then Some p else None
  | None => None
  end.

Section Platform.
(** The value of the [PLATFORM_ANDROID] macro the file is compiled with. *)
Variable PLATFORM_ANDROID : bool.

Definition OnCustomTabOpened (this : addr) (URL : string) (w : World) : World :=
  let w := assign this (set_bIsCustomTabOpen true) w in
  let w := assign this (set_CurrentURL URL) w in
  if PLATFORM_ANDROID then RegisterActiveInstance (Some this) w else w.

Definition OnCustomTabClosed (this : addr) (w : World) : World :=
  let w := assign this (set_bIsCustomTabOpen false) w in
  let w := assign this (set_CurrentURL EmptyString) w in
  if PLATFORM_ANDROID then UnregisterActiveInstance w else w.

Definition HandleNavigationEvent (this : addr) (Event URL : string) (w : World) : World :=
  let w := assign this (set_LastNavigationEvent Event) w in
  let w := if negb (IsEmpty URL) then assign this (set_CurrentURL URL) w else w in
  let w :=
    if FString_eq Event "TabClosed" then OnCustomTabClosed this w
    else if FString_eq Event "NavigationStarted"
            && Bool.eqb (IsChromeCustomTabOpen this w) false
    then OnCustomTabOpened this URL w
    else w in
  emit (OnNavigationEvent this Event URL) w.

Definition HandleDeepLink (this : addr) (Action ParamsJson : string) (w : World) : World :=
  let w := assign this (set_LastDeepLink Action ParamsJson) w in
  emit (OnDeepLinkReceived this Action ParamsJson) w.

(** What the three JNI lookups of [CloseChromeCustomTab] return: whether
    [GetJavaEnv], [FindJavaClass] and [GetStaticMethodID] gave a non-null
    result. *)
Record JNI := {
  GetJavaEnv : bool;
  FindJavaClass : bool;
  GetStaticMethodID : bool
}.

Definition CloseChromeCustomTab (jni : JNI) (this : addr) (w : World) : World :=
  if PLATFORM_ANDROID then
    if GetJavaEnv jni then
      if FindJavaClass jni then
        if GetStaticMethodID jni then
          let w := emit CallStaticVoidMethod_closeTab w in
          OnCustomTabClosed this w
        else w
      else w
    else w
  else w.

End Platform.

(** [HandleNavigationEvent] seen from the object it is called on: the members
    of [this] after the call, from the members before it. *)
Definition navigation_step (Event URL : string) (o : UCPP_ABCT_Base) : UCPP_ABCT_Base :=
  let o := set_LastNavigationEvent Event o in
  let o := if negb (IsEmpty URL) then set_CurrentURL URL o else o in
  if FString_eq Event "TabClosed"
  then set_CurrentURL EmptyString (set_bIsCustomTabOpen false o)
  else if FString_eq Event "NavigationStarted" && Bool.eqb (bIsCustomTabOpen o) false
  then set_CurrentURL URL (set_bIsCustomTabOpen true o)
  else o.

(** Two worlds to run the code on: one freshly constructed object at address
    1 (and a second one at address 2), nothing registered; and the first
    object after it opened a tab. *)
Definition fresh_world : World := {|
  objects := {[ 1%positive := constructed; 2%positive := constructed ]};
  ActiveInstance := None;
  outgoing := []
|}.

Definition open_world : World :=
  OnCustomTabOpened true 1%positive "https://example.org" fresh_world.

(** *** ChromeCustomTabsJNI.cpp: what Java calls, and what then runs on the
    game thread *)

Inductive NativeCall :=
| nativeOnDeepLinkReceived (jAction jParamsJson : string)
| nativeOnNavigationEvent (jEvent : Z) (jUrl : string)
| nativeOnTabOpened
| nativeOnTabClosed
| nativeOnMessageChannelReady
| nativeOnPostMessage (jMessage jOrigin : string).

(** The [switch (jEvent)] of [nativeOnNavigationEvent]. *)
Definition EventName (jEvent : Z) : string :=
  match jEvent with
  | 1 => "NavigationStarted"
  | 2 => "NavigationFinished"
  | 3 => "NavigationFailed"
  | 4 => "NavigationAborted"
  | 5 => "TabShown"
  | 6 => "TabHidden"
  | _ => "Unknown(" ++ NilZero.string_of_int (Z.to_int jEvent) ++ ")"
  end%Z.

(** The event and the URL a native call hands to [HandleNavigationEvent]
    ([None] for the two calls that are not navigation events). *)
Definition navigation_event (c : NativeCall) : option (string * string) :=
  match c with
  | nativeOnNavigationEvent jEvent jUrl => Some (EventName jEvent, jUrl)
  | nativeOnTabOpened => Some ("TabOpened", EmptyString)
  | nativeOnTabClosed => Some ("TabClosed", EmptyString)
  | nativeOnMessageChannelReady => Some ("MessageChannelReady", EmptyString)
  | nativeOnDeepLinkReceived _ _ | nativeOnPostMessage _ _ => None
  end.

(** The body of the [AsyncTask(ENamedThreads::GameThread, ...)] lambda of a
    native call.  The file is compiled on Android only. *)
Definition GameThreadTask (c : NativeCall) (w : World) : World :=
  match GetActiveInstance w with
  | Some Instance =>
      match c with
      | nativeOnDeepLinkReceived Action ParamsJson =>
          HandleDeepLink Instance Action ParamsJson w
      | nativeOnPostMessage _ _ => w
      | _ =>
          match navigation_event c with
          | Some (Event, URL) => HandleNavigationEvent true Instance Event URL w
          | None => w
          end
      end
  | None => w
  end.

(** *** Deep-link parameter helpers *)

(** [FCString::Atoi]: the C library's conversion.  White space is skipped,
    a sign is read, then the longest run of decimal digits; without a digit
    the result is 0.  The value saturates at the range of [long] and is then
    cast to [int32]. *)
Definition is_space (c : ascii) : bool :=
  Chars.in_range 9 13 c || Ascii.eqb c Chars.space.

Fixpoint skip_space (s : string) : string :=
  match s with
  | String c r => if is_space c then skip_space r else s
  | EmptyString => EmptyString
  end.

Fixpoint digits_value (acc : Z) (s : string) : Z :=
  match s with
  | String c r =>
      if Chars.is_digit c
      then digits_value (10 * acc + Z.of_nat (nat_of_ascii c - 48))%Z r
      else acc
  | EmptyString => acc
  end.

Definition strtol (s : string) : Z :=
  let s := skip_space s in
  let v :=
    match s with
    | String "-" r => (- digits_value 0 r)%Z
    | String "+" r => digits_value 0%Z r
    | _ => digits_value 0%Z s
    end in
  Z.max (- 2 ^ 63)%Z (Z.min (2 ^ 63 - 1)%Z v).

Definition to_int32 (z : Z) : Z := ((z + 2 ^ 31) mod 2 ^ 32 - 2 ^ 31)%Z.

Definition Atoi (s : string) : Z := to_int32 (strtol s).

Section Floats.
(** [float], [FCString::Atof] and the text the engine prints for a JSON
    number ([FString::SanitizeFloat]) are left to the platform. *)
Variable float : Type.
Variable Atof : string -> float.
Variable SanitizeFloat : string -> string.

(** [FJsonValue::AsString]: numbers and booleans are printed, the other
    kinds give the empty string. *)
Definition AsString (v : FJsonValue) : string :=
  match v with
  | JsonString s => s
  | JsonNumber lexeme => SanitizeFloat lexeme
  | JsonBoolean true => "true"
  | JsonBoolean false => "false"
  | JsonNull | JsonArray _ | JsonObject _ => EmptyString
  end.

Definition GetStringField (Values : FJsonObject) (FieldName : string) : string :=
  match TryGetField Values FieldName with
  | Some v => AsString v
  | None => EmptyString
  end.

(** A C++ function with an out-parameter takes the parameter's old value
    and returns its new value beside the result. *)
Definition GetDeepLinkParameter (ParamsJson Key : string) (OutValue : string)
  : bool * string :=
  if IsEmpty ParamsJson || IsEmpty Key then (false, OutValue)
  else
    match Deserialize ParamsJson with
    | Some Object =>
        if HasField Object Key
        then (true, GetStringField Object Key)
        else (false, OutValue)
    | None => (false, OutValue)
    end.

Definition GetDeepLinkParameterAsFloat (ParamsJson Key : string) (OutValue : float)
  : bool * float :=
  let StringValue := EmptyString in
  let (found, StringValue) := GetDeepLinkParameter ParamsJson Key StringValue in
  if found then (true, Atof StringValue) else (false, OutValue).

Definition GetDeepLinkParameterAsInt (ParamsJson Key : string) (OutValue : Z)
  : bool * Z :=
  let StringValue := EmptyString in
  let (found, StringValue) := GetDeepLinkParameter ParamsJson Key StringValue in
  if found then (true, Atoi StringValue) else (false, OutValue).

(** [FVector(X, Y, Z)]; the third component is [Z_] here, [Z] being the type
    of integers. *)
Record FVector := { X : float; Y : float; Z_ : float }.

(** [uninitialized] is whatever the locals [X], [Y], [Z] hold before they
    are written. *)
Definition GetDeepLinkParameterAsVector (uninitialized : float)
  (ParamsJson : string) (OutVector : FVector) : bool * FVector :=
  let '(bFoundX, x) := GetDeepLinkParameterAsFloat ParamsJson "x" uninitialized in
  let '(bFoundY, y) := GetDeepLinkParameterAsFloat ParamsJson "y" uninitialized in
  let '(bFoundZ, z) := GetDeepLinkParameterAsFloat ParamsJson "z" uninitialized in
  if bFoundX && bFoundY && bFoundZ
  then (true, {| X := x; Y := y; Z_ := z |})
  else (false, OutVector).

End Floats.

(** *** Opening a tab *)

Section Opening.
Variable PLATFORM_ANDROID : bool.

(** [J] is the state of the Java side, and [CallStaticBooleanMethod_openTab]
    what [Env->CallStaticBooleanMethod(ChromeCustomTabsClass, OpenTabMethod,
    jURL, jColor, jUserAgent, jCustomHeader)] does to it and returns. *)
Context {J : Type}.
Variable CallStaticBooleanMethod_openTab : string -> string -> string -> string -> J -> bool * J.

Definition OpenChromeCustomTab (jni : JNI) (this : addr) (URL ToolbarColor : string)
  (w : World) (j : J) : bool * World * J :=
  if IsEmpty URL then (false, w, j)
  else if PLATFORM_ANDROID then
    if GetJavaEnv jni then
      if FindJavaClass jni then
        if GetStaticMethodID jni then
          let '(result, j) :=
            CallStaticBooleanMethod_openTab URL ToolbarColor
              (member this CustomUserAgent EmptyString w)
              (member this CustomHeader EmptyString w) j in
          if result then (true, OnCustomTabOpened PLATFORM_ANDROID this URL w, j)
          else (false, w, j)
        else (false, w, j)
      else (false, w, j)
    else (false, w, j)
  else (false, w, j).

End Opening.

(** What runs on the game thread for a list of native calls, in the order in
    which Java made them. *)
Definition GameThreadTasks (calls : list NativeCall) (w : World) : World :=
  fold_left (fun w c => GameThreadTask c w) calls w.

(** The tab of the active instance, if there is one, is open. *)
Definition active_is_open (w : World) : Prop :=
  forall p, GetActiveInstance w = Some p -> IsChromeCustomTabOpen p w = true.

End Unreal.

(** ** The Java class [ChromeCustomTabs]: the PostMessage channel and its retries *)

Module ChromeCustomTabs.
Local Open Scope Z_scope.

Abbreviation Activity := positive.

(** The lambdas the class hands to [runOnUiThread] and to
    [retryHandler.postDelayed].  The retry lambda of
    [attemptPostMessageChannelRequest] reads [pendingRetryOrigin] when it
    runs; [scheduledFor] only records the origin of the attempt that created
    it. *)
Inductive Runnable :=
| FirstAttempt (activity : Activity) (origin : string)
| Retry (activity : Activity) (scheduledFor : string)
| NavigationFinishedRetry (activity : Activity).

Inductive LogLine :=
| W_session_unavailable
| W_returned_false (attempt : Z)
| I_will_retry
| E_failed_after_max_attempts
| I_succeeded (attempt : Z)
| I_channel_ready
| W_no_session
| I_navigation_finished
| D_tab_hidden.

(** The static fields of the class, followed by its surroundings: the clock
    and the message queue of the main looper (due time and runnable, earliest
    first), the origins passed so far to
    [customTabsSession.requestPostMessageChannel], the native methods called
    and the log, all three latest first. *)
Record State := {
  activityRef : option Activity;
  serviceConnection : bool;
  customTabsClient : bool;
  customTabsSession : bool;
  messageChannelReady : bool;
  pendingOrigin : option string;
  lastNavigatedUrl : string;
  postMessageRetryCount : Z;
  pendingRetryOrigin : option string;
  uptimeMillis : Z;
  mainLooper : list (Z * Runnable);
  requests : list string;
  natives : list Unreal.NativeCall;
  logcat : list LogLine
}.

Definition set_serviceConnection (v : bool) (s : State) : State := {|
  activityRef := activityRef s;
  serviceConnection := v;
  customTabsClient := customTabsClient s;
  customTabsSession := customTabsSession s;
  messageChannelReady := messageChannelReady s;
  pendingOrigin := pendingOrigin s;
  lastNavigatedUrl := lastNavigatedUrl s;
  postMessageRetryCount := postMessageRetryCount s;
  pendingRetryOrigin := pendingRetryOrigin s;
  uptimeMillis := uptimeMillis s;
  mainLooper := mainLooper s;
  requests := requests s;
  natives := natives s;
  logcat := logcat s
|}.

Definition set_customTabsSession (v : bool) (s : State) : State := {|
  activityRef := activityRef s;
  serviceConnection := serviceConnection s;
  customTabsClient := customTabsClient s;
  customTabsSession := v;
  messageChannelReady := messageChannelReady s;
  pendingOrigin := pendingOrigin s;
  lastNavigatedUrl := lastNavigatedUrl s;
  postMessageRetryCount := postMessageRetryCount s;
  pendingRetryOrigin := pendingRetryOrigin s;
  uptimeMillis := uptimeMillis s;
  mainLooper := mainLooper s;
  requests := requests s;
  natives := natives s;
  logcat := logcat s
|}.

Definition set_messageChannelReady (v : bool) (s : State) : State := {|
  activityRef := activityRef s;
  serviceConnection := serviceConnection s;
  customTabsClient := customTabsClient s;
  customTabsSession := customTabsSession s;
  messageChannelReady := v;
  pendingOrigin := pendingOrigin s;
  lastNavigatedUrl := lastNavigatedUrl s;
  postMessageRetryCount := postMessageRetryCount s;
  pendingRetryOrigin := pendingRetryOrigin s;
  uptimeMillis := uptimeMillis s;
  mainLooper := mainLooper s;
  requests := requests s;
  natives := natives s;
  logcat := logcat s
|}.

Definition set_pendingOrigin (v : option string) (s : State) : State := {|
  activityRef := activityRef s;
  serviceConnection := serviceConnection s;
  customTabsClient := customTabsClient s;
  customTabsSession := customTabsSession s;
  messageChannelReady := messageChannelReady s;
  pendingOrigin := v;
  lastNavigatedUrl := lastNavigatedUrl s;
  postMessageRetryCount := postMessageRetryCount s;
  pendingRetryOrigin := pendingRetryOrigin s;
  uptimeMillis := uptimeMillis s;
  mainLooper := mainLooper s;
  requests := requests s;
  natives := natives s;
  logcat := logcat s
|}.

Definition set_postMessageRetryCount (v : Z) (s : State) : State := {|
  activityRef := activityRef s;
  serviceConnection := serviceConnection s;
  customTabsClient := customTabsClient s;
  customTabsSession := customTabsSession s;
  messageChannelReady := messageChannelReady s;
  pendingOrigin := pendingOrigin s;
  lastNavigatedUrl := lastNavigatedUrl s;
  postMessageRetryCount := v;
  pendingRetryOrigin := pendingRetryOrigin s;
  uptimeMillis := uptimeMillis s;
  mainLooper := mainLooper s;
  requests := requests s;
  natives := natives s;
  logcat := logcat s
|}.

Definition set_pendingRetryOrigin (v : option string) (s : State) : State := {|
  activityRef := activityRef s;
  serviceConnection := serviceConnection s;
  customTabsClient := customTabsClient s;
  customTabsSession := customTabsSession s;
  messageChannelReady := messageChannelReady s;
  pendingOrigin := pendingOrigin s;
  lastNavigatedUrl := lastNavigatedUrl s;
  postMessageRetryCount := postMessageRetryCount s;
  pendingRetryOrigin := v;
  uptimeMillis := uptimeMillis s;
  mainLooper := mainLooper s;
  requests := requests s;
  natives := natives s;
  logcat := logcat s
|}.

Definition set_uptimeMillis (v : Z) (s : State) : State := {|
  activityRef := activityRef s;
  serviceConnection := serviceConnection s;
  customTabsClient := customTabsClient s;
  customTabsSession := customTabsSession s;
  messageChannelReady := messageChannelReady s;
  pendingOrigin := pendingOrigin s;
  lastNavigatedUrl := lastNavigatedUrl s;
  postMessageRetryCount := postMessageRetryCount s;
  pendingRetryOrigin := pendingRetryOrigin s;
  uptimeMillis := v;
  mainLooper := mainLooper s;
  requests := requests s;
  natives := natives s;
  logcat := logcat s
|}.

Definition set_mainLooper (v : list (Z * Runnable)) (s : State) : State := {|
  activityRef := activityRef s;
  serviceConnection := serviceConnection s;
  customTabsClient := customTabsClient s;
  customTabsSession := customTabsSession s;
  messageChannelReady := messageChannelReady s;
  pendingOrigin := pendingOrigin s;
  lastNavigatedUrl := lastNavigatedUrl s;
  postMessageRetryCount := postMessageRetryCount s;
  pendingRetryOrigin := pendingRetryOrigin s;
  uptimeMillis := uptimeMillis s;
  mainLooper := v;
  requests := requests s;
  natives := natives s;
  logcat := logcat s
|}.

Definition set_requests (v : list string) (s : State) : State := {|
  activityRef := activityRef s;
  serviceConnection := serviceConnection s;
  customTabsClient := customTabsClient s;
  customTabsSession := customTabsSession s;
  messageChannelReady := messageChannelReady s;
  pendingOrigin := pendingOrigin s;
  lastNavigatedUrl := lastNavigatedUrl s;
  postMessageRetryCount := postMessageRetryCount s;
  pendingRetryOrigin := pendingRetryOrigin s;
  uptimeMillis := uptimeMillis s;
  mainLooper := mainLooper s;
  requests := v;
  natives := natives s;
  logcat := logcat s
|}.

Definition set_natives (v : list Unreal.NativeCall) (s : State) : State := {|
  activityRef := activityRef s;
  serviceConnection := serviceConnection s;
  customTabsClient := customTabsClient s;
  customTabsSession := customTabsSession s;
  messageChannelReady := messageChannelReady s;
  pendingOrigin := pendingOrigin s;
  lastNavigatedUrl := lastNavigatedUrl s;
  postMessageRetryCount := postMessageRetryCount s;
  pendingRetryOrigin := pendingRetryOrigin s;
  uptimeMillis := uptimeMillis s;
  mainLooper := mainLooper s;
  requests := requests s;
  natives := v;
  logcat := logcat s
|}.

Definition set_logcat (v : list LogLine) (s : State) : State := {|
  activityRef := activityRef s;
  serviceConnection := serviceConnection s;
  customTabsClient := customTabsClient s;
  customTabsSession := customTabsSession s;
  messageChannelReady := messageChannelReady s;
  pendingOrigin := pendingOrigin s;
  lastNavigatedUrl := lastNavigatedUrl s;
  postMessageRetryCount := postMessageRetryCount s;
  pendingRetryOrigin := pendingRetryOrigin s;
  uptimeMillis := uptimeMillis s;
  mainLooper := mainLooper s;
  requests := requests s;
  natives := natives s;
  logcat := v
|}.
Definition MAX_POSTMESSAGE_RETRIES : Z := 5.
Definition RETRY_DELAY_MS : Z := 1000.
Definition NAVIGATION_FINISHED : Z := 2.
Definition TAB_SHOWN : Z := 5.
Definition TAB_HIDDEN : Z := 6.

(** Java's [int] addition. *)
Definition int_add (a b : Z) : Z := (a + b + 2 ^ 31) mod 2 ^ 32 - 2 ^ 31.

Definition Log (l : LogLine) (s : State) : State := set_logcat (l :: logcat s) s.

Definition native (c : Unreal.NativeCall) (s : State) : State :=
  set_natives (c :: natives s) s.

(** [MessageQueue.enqueueMessage]: before the first message that is due later. *)
Fixpoint enqueue (when : Z) (r : Runnable) (queue : list (Z * Runnable))
  : list (Z * Runnable) :=
  match queue with
  | [] => [(when, r)]
  | (t, r') :: rest =>
      if when <? t then (when, r) :: queue else (t, r') :: enqueue when r rest
  end.

Definition postDelayed (r : Runnable) (delayMillis : Z) (s : State) : State :=
  set_mainLooper (enqueue (uptimeMillis s + delayMillis) r (mainLooper s)) s.

Section Browser.
(** The browser behind the AndroidX client: whether a package supports
    Custom Tabs, whether [newSession] gives a session, and what the
    [n]-th call of the session's [requestPostMessageChannel] returns. *)
Variable getPackageName : bool.
Variable newSession : bool.
Variable session_requestPostMessageChannel : nat -> string -> bool.

Definition bindCustomTabs (s : State) : State :=
  if serviceConnection s then s
  else if negb getPackageName then s
  else set_serviceConnection true s.

Definition ensureSession (s : State) : State :=
  if customTabsSession s then s
  else
    let s := bindCustomTabs s in
    if customTabsClient s && negb (customTabsSession s)
    then set_customTabsSession newSession s
    else s.

Definition attemptPostMessageChannelRequest (activity : Activity) (origin : string)
  (s : State) : State :=
  if negb (customTabsSession s) then Log W_session_unavailable s
  else
    let result := session_requestPostMessageChannel (length (requests s)) origin in
    let s := set_requests (origin :: requests s) s in
    let s := set_postMessageRetryCount (int_add (postMessageRetryCount s) 1) s in
    if negb result then
      let s := Log (W_returned_false (postMessageRetryCount s)) s in
      if postMessageRetryCount s <? MAX_POSTMESSAGE_RETRIES then
        let s := Log I_will_retry s in
        postDelayed (Retry activity origin) RETRY_DELAY_MS s
      else
        let s := Log E_failed_after_max_attempts s in
        set_pendingRetryOrigin None s
    else
      let s := Log (I_succeeded (postMessageRetryCount s)) s in
      set_pendingRetryOrigin None s.

(** [if (!messageChannelReady && pendingRetryOrigin != null)
      attemptPostMessageChannelRequest(activity, pendingRetryOrigin)] *)
Definition retry_if_pending (activity : Activity) (s : State) : State :=
  match pendingRetryOrigin s with
  | Some current =>
      if negb (messageChannelReady s)
      then attemptPostMessageChannelRequest activity current s
      else s
  | None => s
  end.

Definition run (r : Runnable) (s : State) : State :=
  match r with
  | FirstAttempt activity origin => attemptPostMessageChannelRequest activity origin s
  | Retry activity _ => retry_if_pending activity s
  | NavigationFinishedRetry activity => retry_if_pending activity s
  end.

(** [activity.runOnUiThread(r)]: at once on the UI thread, posted to the
    main looper from any other thread. *)
Definition runOnUiThread (onUiThread : bool) (r : Runnable) (s : State) : State :=
  if onUiThread then run r s else postDelayed r 0 s.

(** [None] is [null]; [onUiThread] tells on which thread the caller runs. *)
Definition requestPostMessageChannel (onUiThread : bool)
  (activity : option Activity) (origin : option string) (s : State) : bool * State :=
  match activity, origin with
  | Some activity, Some origin =>
      if Java.isEmpty origin then (false, s)
      else
        let s := ensureSession s in
        if negb (customTabsSession s) then (false, Log W_no_session s)
        else
          let s := set_pendingOrigin (Some origin) s in
          let s := set_pendingRetryOrigin (Some origin) s in
          let s := set_messageChannelReady false s in
          let s := set_postMessageRetryCount 0 s in
          (true, runOnUiThread onUiThread (FirstAttempt activity origin) s)
  | _, _ => (false, s)
  end.

(** *** [CALLBACK] *)

Definition onNavigationEvent (navigationEvent : Z) (s : State) : State :=
  let url := lastNavigatedUrl s in
  let s := native (Unreal.nativeOnNavigationEvent navigationEvent url) s in
  let s :=
    if (navigationEvent =? NAVIGATION_FINISHED) && negb (messageChannelReady s)
       && bool_decide (is_Some (pendingRetryOrigin s))
    then
      let s := Log I_navigation_finished s in
      match activityRef s with
      | Some activity => postDelayed (NavigationFinishedRetry activity) 500 s
      | None => s
      end
    else s in
  let s := if navigationEvent =? TAB_SHOWN then native Unreal.nativeOnTabOpened s else s in
  if navigationEvent =? TAB_HIDDEN then Log D_tab_hidden s else s.

Definition onMessageChannelReady (s : State) : State :=
  let s := set_messageChannelReady true s in
  let s := set_pendingRetryOrigin None s in
  let s := Log I_channel_ready s in
  native Unreal.nativeOnMessageChannelReady s.

(** *** The main looper *)

(** The looper takes the earliest message, waits until it is due and runs it. *)
Definition dispatch (s : State) : State :=
  match mainLooper s with
  | [] => s
  | (when, r) :: rest =>
      let s := set_mainLooper rest s in
      let s := set_uptimeMillis (Z.max (uptimeMillis s) when) s in
      run r s
  end.

Fixpoint loop (n : nat) (s : State) : State :=
  match n with
  | O => s
  | S n => loop n (dispatch s)
  end.

End Browser.

(** The two lambdas that re-check [pendingRetryOrigin] before they act. *)
Definition is_retry (r : Runnable) : bool :=
  match r with
  | FirstAttempt _ _ => false
  | Retry _ _ | NavigationFinishedRetry _ => true
  end.

(** The assignments of [requestPostMessageChannel] before its first attempt. *)
Definition armed (origin : string) (s : State) : State :=
  set_postMessageRetryCount 0
    (set_messageChannelReady false
       (set_pendingRetryOrigin (Some origin)
          (set_pendingOrigin (Some origin) s))).

(** The state in which the retry of a rejected attempt runs, when nothing else
    was scheduled: the attempt is counted and logged, the delay has passed. *)
Definition rejected_round (origin : string) (s : State) : State :=
  let c := int_add (postMessageRetryCount s) 1 in
  set_uptimeMillis (Z.max (uptimeMillis s) (uptimeMillis s + RETRY_DELAY_MS))
    (set_mainLooper []
       (Log I_will_retry
          (Log (W_returned_false c)
             (set_postMessageRetryCount c (set_requests (origin :: requests s) s))))).

(** The state of a pending request after [k] attempts, nothing else scheduled. *)
Definition pending_at (k : Z) (origin : string) (s : State) : Prop :=
  customTabsSession s = true
  /\ messageChannelReady s = false
  /\ pendingRetryOrigin s = Some origin
  /\ mainLooper s = []
  /\ postMessageRetryCount s = k.

(** A state to run the code on: the service is connected and a session
    exists, nothing is pending; and a browser that rejects every request. *)
Definition connected : State := {|
  activityRef := Some 1%positive;
  serviceConnection := true;
  customTabsClient := true;
  customTabsSession := true;
  messageChannelReady := false;
  pendingOrigin := None;
  lastNavigatedUrl := EmptyString;
  postMessageRetryCount := 0;
  pendingRetryOrigin := None;
  uptimeMillis := 0;
  mainLooper := [];
  requests := [];
  natives := [];
  logcat := []
|}.

Definition rejecting (n : nat) (origin : string) : bool := false.

(** *** The rest of the class: the activity, the service connection, opening
    a tab, messages and deep links.  The log lines of these functions are
    not recorded. *)

Definition set_activityRef (v : option Activity) (s : State) : State := {|
  activityRef := v;
  serviceConnection := serviceConnection s;
  customTabsClient := customTabsClient s;
  customTabsSession := customTabsSession s;
  messageChannelReady := messageChannelReady s;
  pendingOrigin := pendingOrigin s;
  lastNavigatedUrl := lastNavigatedUrl s;
  postMessageRetryCount := postMessageRetryCount s;
  pendingRetryOrigin := pendingRetryOrigin s;
  uptimeMillis := uptimeMillis s;
  mainLooper := mainLooper s;
  requests := requests s;
  natives := natives s;
  logcat := logcat s
|}.

Definition set_customTabsClient (v : bool) (s : State) : State := {|
  activityRef := activityRef s;
  serviceConnection := serviceConnection s;
  customTabsClient := v;
  customTabsSession := customTabsSession s;
  messageChannelReady := messageChannelReady s;
  pendingOrigin := pendingOrigin s;
  lastNavigatedUrl := lastNavigatedUrl s;
  postMessageRetryCount := postMessageRetryCount s;
  pendingRetryOrigin := pendingRetryOrigin s;
  uptimeMillis := uptimeMillis s;
  mainLooper := mainLooper s;
  requests := requests s;
  natives := natives s;
  logcat := logcat s
|}.

Definition set_lastNavigatedUrl (v : string) (s : State) : State := {|
  activityRef := activityRef s;
  serviceConnection := serviceConnection s;
  customTabsClient := customTabsClient s;
  customTabsSession := customTabsSession s;
  messageChannelReady := messageChannelReady s;
  pendingOrigin := pendingOrigin s;
  lastNavigatedUrl := v;
  postMessageRetryCount := postMessageRetryCount s;
  pendingRetryOrigin := pendingRetryOrigin s;
  uptimeMillis := uptimeMillis s;
  mainLooper := mainLooper s;
  requests := requests s;
  natives := natives s;
  logcat := logcat s
|}.

Definition RESULT_SUCCESS : Z := 0.

(** [0xFF4285F4] as an [int]. *)
Definition DEFAULT_TOOLBAR_COLOR : Z := 4282550772 - 2 ^ 32.

(** What [Uri] gives [handleDeepLink]: [getScheme()], [getHost()] and
    [getQuery()], each of which may be [null]. *)
Record Uri := {
  getScheme : option string;
  getHost : option string;
  getQuery : option string
}.

(** An [Intent], as far as [handleDeepLink] reads it. *)
Record Intent := { getData : option Uri }.

(** What [open] starts: the [ACTION_VIEW] intent of the fallback, or the
    lambda with [openInternal] it hands to [runOnUiThread]. *)
Inductive Launch :=
| ActionView (url : string)
| OpenInternal (activity : Activity) (url : string) (toolbarColor : Z)
    (hasNavigationBarColor : bool) (navigationBarColor : Z)
    (showTitle enableUrlBarHiding enableDefaultShareMenu : bool)
    (postMessageOrigin : option string).

(** The [CustomTabsIntent] that [openInternal] launches: whether it was built
    on the session, and the URL. *)
Record CustomTabsIntent := { onSession : bool; launchUrl : string }.

Definition unbindCustomTabs (s : State) : State :=
  let s := set_serviceConnection false s in
  let s := set_customTabsClient false s in
  let s := set_customTabsSession false s in
  let s := set_messageChannelReady false s in
  set_pendingOrigin None s.

Definition onActivityDestroyed (s : State) : State :=
  let s := unbindCustomTabs s in
  set_activityRef None s.

(** [CustomTabsServiceConnection.onServiceDisconnected] *)
Definition onServiceDisconnected (s : State) : State :=
  let s := set_customTabsClient false s in
  let s := set_customTabsSession false s in
  set_messageChannelReady false s.

(** [CALLBACK.onPostMessage(message, extras)]; [None] is a [null] message. *)
Definition onPostMessage (message : option string) (s : State) : State :=
  let origin := match pendingOrigin s with Some o => o | None => EmptyString end in
  native (Unreal.nativeOnPostMessage
            (match message with Some m => m | None => EmptyString end) origin) s.

(** [handleDeepLink(intent)]: the result and the state, or the exception
    [queryStringToJson] lets through. *)
Definition handleDeepLink (intent : option Intent) (s : State) : Java.Result (bool * State) :=
  match intent with
  | None => Java.Returns (false, s)
  | Some intent =>
      match getData intent with
      | None => Java.Returns (false, s)
      | Some data =>
          match getScheme data with
          | None => Java.Returns (false, s)
          | Some scheme =>
              let action := getHost data in
              let query := getQuery data in
              Java.bind (Java.queryStringToJson query) (fun paramsJson =>
                let s := native (Unreal.nativeOnDeepLinkReceived
                                   (match action with Some a => a | None => EmptyString end)
                                   paramsJson) s in
                Java.Returns (true, s))
          end
      end
  end.

Section Client.
(** Beside the browser of [requestPostMessageChannel]: whether
    [activity.startActivity] finds an activity for the fallback intent, what
    the session's [postMessage] returns, what [Color.parseColor] makes of a
    colour ([None] when it throws [IllegalArgumentException]) and the URL
    [Uri.Builder] builds from a URL and the query parameters appended to it. *)
Variable getPackageName : bool.
Variable newSession : bool.
Variable session_requestPostMessageChannel : nat -> string -> bool.
Variable startActivity : string -> bool.
Variable session_postMessage : string -> Z.
Variable parseColor : string -> option Z.
Variable appendQueryParameters : string -> list (string * string) -> string.

Definition setActivity (activity : option Activity) (s : State) : State :=
  let s := set_activityRef activity s in
  match activity with
  | Some _ => bindCustomTabs getPackageName s
  | None => s
  end.

Definition isAvailable (activity : option Activity) : bool :=
  match activity with
  | None => false
  | Some _ => getPackageName
  end.

(** [CustomTabsServiceConnection.onCustomTabsServiceConnected] *)
Definition onCustomTabsServiceConnected (s : State) : State :=
  let s := set_customTabsClient true s in
  let s := set_customTabsSession newSession s in
  set_messageChannelReady false s.

(** [executeJava(message)]: the result, and the message handed to the
    session's [postMessage], if any.  No field is written. *)
Definition executeJava (message : string) (s : State) : bool * option string :=
  if negb (customTabsSession s) then (false, None)
  else if negb (messageChannelReady s) then (false, None)
  else (session_postMessage message =? RESULT_SUCCESS, Some message).

(** [open(activity, url, toolbarColor, ..., postMessageOrigin)]: the result,
    what it starts, and the state. *)
Definition open (activity : option Activity) (url : option string) (toolbarColor : Z)
  (hasNavigationBarColor : bool) (navigationBarColor : Z)
  (showTitle enableUrlBarHiding enableDefaultShareMenu : bool)
  (postMessageOrigin : option string) (s : State) : bool * option Launch * State :=
  match activity, url with
  | Some activity, Some url =>
      if Java.isEmpty url then (false, None, s)
      else if negb (isAvailable (Some activity)) then
        if startActivity url then (true, Some (ActionView url), s)
        else (false, None, s)
      else
        let s := ensureSession getPackageName newSession s in
        let s := set_lastNavigatedUrl url s in
        (true,
         Some (OpenInternal activity url toolbarColor hasNavigationBarColor
                 navigationBarColor showTitle enableUrlBarHiding
                 enableDefaultShareMenu postMessageOrigin),
         s)
  | _, _ => (false, None, s)
  end.

Definition startsWith (prefix s : string) : bool := String.prefix prefix s.

Definition nonempty (o : option string) : bool :=
  match o with
  | Some x => negb (Java.isEmpty x)
  | None => false
  end.

(** [openTab(url, toolbarColorHex, userAgent, customHeader)].  [url] is not
    [null]: the caller is [OpenChromeCustomTab], which passes the result of
    [NewStringUTF]. *)
Definition openTab (url : string) (toolbarColorHex userAgent customHeader : option string)
  (s : State) : bool * option Launch * State :=
  match activityRef s with
  | None => (false, None, s)
  | Some activity =>
      let toolbarColor :=
        match toolbarColorHex with
        | Some hex =>
            if startsWith "#" hex then
              match parseColor hex with
              | Some c => c
              | None => DEFAULT_TOOLBAR_COLOR
              end
            else DEFAULT_TOOLBAR_COLOR
        | None => DEFAULT_TOOLBAR_COLOR
        end in
      let finalUrl :=
        if nonempty userAgent || nonempty customHeader then
          appendQueryParameters url
            ([("ue_client", "true")]
             ++ (if nonempty userAgent
                 then [("ue_user_agent", default EmptyString userAgent)] else [])
             ++ (if nonempty customHeader
                 then [("ue_custom_header", default EmptyString customHeader)] else []))%list
        else url in
      open (Some activity) (Some finalUrl) toolbarColor false 0 true true true None s
  end.

(** [openInternal], which runs on the UI thread: the intent it launches, and
    the state. *)
Definition openInternal (activity : Activity) (url : string) (toolbarColor : Z)
  (hasNavigationBarColor : bool) (navigationBarColor : Z)
  (showTitle enableUrlBarHiding enableDefaultShareMenu : bool)
  (postMessageOrigin : option string) (s : State) : CustomTabsIntent * State :=
  let s := ensureSession getPackageName newSession s in
  let intent := {| onSession := customTabsSession s; launchUrl := url |} in
  if customTabsSession s && nonempty postMessageOrigin then
    (intent,
     snd (requestPostMessageChannel getPackageName newSession
            session_requestPostMessageChannel true (Some activity) postMessageOrigin s))
  else (intent, s).

(** What [runOnUiThread] does with what [open] started. *)
Definition launch (l : Launch) (s : State) : option CustomTabsIntent * State :=
  match l with
  | ActionView _ => (None, s)
  | OpenInternal activity url toolbarColor hasNavigationBarColor navigationBarColor
      showTitle enableUrlBarHiding enableDefaultShareMenu postMessageOrigin =>
      let '(intent, s) :=
        openInternal activity url toolbarColor hasNavigationBarColor navigationBarColor
          showTitle enableUrlBarHiding enableDefaultShareMenu postMessageOrigin s in
      (Some intent, s)
  end.

(** What happens on the Java side, one occurrence at a time: the callbacks of
    the browser and of the service connection, the calls the host makes
    ([open] apart), and the main looper running its next message. *)
Inductive Occurrence :=
| NavigationEvent (navigationEvent : Z)
| MessageChannelReady
| PostMessage (message : option string)
| ServiceConnected
| ServiceDisconnected
| DeepLink (intent : option Intent)
| RequestChannel (onUiThread : bool) (activity : option Activity) (origin : option string)
| ExecuteJava (message : string)
| LooperTurn
| SetActivity (activity : option Activity)
| ActivityDestroyed.

Definition occur (o : Occurrence) (s : State) : State :=
  match o with
  | NavigationEvent e => onNavigationEvent e s
  | MessageChannelReady => onMessageChannelReady s
  | PostMessage m => onPostMessage m s
  | ServiceConnected => onCustomTabsServiceConnected s
  | ServiceDisconnected => onServiceDisconnected s
  | DeepLink intent =>
      match handleDeepLink intent s with
      | Java.Returns (_, s') => s'
      | Java.Throws _ => s
      end
  | RequestChannel onUiThread activity origin =>
      snd (requestPostMessageChannel getPackageName newSession
             session_requestPostMessageChannel onUiThread activity origin s)
  | ExecuteJava _ => s
  | LooperTurn => dispatch session_requestPostMessageChannel s
  | SetActivity activity => setActivity activity s
  | ActivityDestroyed => onActivityDestroyed s
  end.

Definition occurrences (l : list Occurrence) (s : State) : State :=
  fold_left (fun s o => occur o s) l s.

End Client.

(** The state of the class when it is loaded. *)
Definition loaded : State := {|
  activityRef := None;
  serviceConnection := false;
  customTabsClient := false;
  customTabsSession := false;
  messageChannelReady := false;
  pendingOrigin := None;
  lastNavigatedUrl := EmptyString;
  postMessageRetryCount := 0;
  pendingRetryOrigin := None;
  uptimeMillis := 0;
  mainLooper := [];
  requests := [];
  natives := [];
  logcat := []
|}.

(** While something is pending, fewer than [MAX_POSTMESSAGE_RETRIES] attempts
    have been counted. *)
Definition within_budget (s : State) : Prop :=
  is_Some (pendingRetryOrigin s) -> 0 <= postMessageRetryCount s < MAX_POSTMESSAGE_RETRIES.

(** The lambdas of [requestPostMessageChannel] that wait in a queue; they
    attempt without a look at [pendingRetryOrigin]. *)
Fixpoint first_attempts (queue : list (Z * Runnable)) : Z :=
  match queue with
  | [] => 0
  | (_, r) :: rest => (if is_retry r then 0 else 1) + first_attempts rest
  end.

(** The calls of the session's [requestPostMessageChannel] that can still be
    made without a new request: what the counter leaves of
    [MAX_POSTMESSAGE_RETRIES] while something is pending, and one for each
    first attempt that waits. *)
Definition budget (s : State) : Z :=
  (match pendingRetryOrigin s with
   | Some _ => MAX_POSTMESSAGE_RETRIES - postMessageRetryCount s
   | None => 0
   end) + first_attempts (mainLooper s).

Definition is_MessageChannelReady (o : Occurrence) : bool :=
  match o with MessageChannelReady => true | _ => false end.

Definition is_RequestChannel (o : Occurrence) : bool :=
  match o with RequestChannel _ _ _ => true | _ => false end.

End ChromeCustomTabs.

(** ** The codec as the specification words it *)

Module Spec.

Definition quoted (s : string) : string := Java.q ++ s ++ Java.q.

(** One member of a JSON object literal, key and value embedded as they are. *)
Definition member_text (kv : string * string) : string :=
  quoted (fst kv) ++ ":" ++ quoted (snd kv).

Fixpoint join (sep : string) (l : list string) : string :=
  match l with
  | [] => EmptyString
  | [x] => x
  | x :: rest => x ++ sep ++ join sep rest
  end.

(** Every member after the first comes with its comma. *)
Fixpoint with_commas (members : list (string * string)) : string :=
  match members with
  | [] => EmptyString
  | m :: ms => "," ++ member_text m ++ with_commas ms
  end.

(** The JSON object literal with the given string-valued members, in order. *)
Definition object_text (members : list (string * string)) : string :=
  "{" ++ join "," (map member_text members) ++ "}".

(** Percent-decoding that falls back to the raw text when decoding fails. *)
Definition decode_or_raw (value : string) : string :=
  match Java.URLDecoder_decode value with
  | Java.Returns d => d
  | Java.Throws _ => value
  end.

(** The entries that have a [=], cut at the first one; the others are dropped. *)
Fixpoint kept_pairs (entries : list string) : list (string * string) :=
  match entries with
  | [] => []
  | e :: rest =>
      match Java.cut_at "=" e with
      | Some (k, v) => (k, decode_or_raw v) :: kept_pairs rest
      | None => kept_pairs rest
      end
  end.

(** A text that can stand between two quotes as it is, and that crosses the
    JNI boundary as it is: it has no quote and no backslash, and neither a
    NUL nor a character outside the basic plane (a lead byte from 0xF0 on),
    which [GetStringUTFChars] would not hand over as UTF-8. *)
Fixpoint plain (s : string) : bool :=
  match s with
  | EmptyString => true
  | String c r =>
      negb (Ascii.eqb c Chars.quote) && negb (Ascii.eqb c Chars.backslash)
      && Chars.in_range 1 239 c && plain r
  end.

(** The object a reader builds from the members, one [SetField] each. *)
Definition object_of (members : list (string * string)) (acc : Engine.FJsonObject)
  : Engine.FJsonObject :=
  fold_left (fun o kv => Engine.SetField o (fst kv) (Engine.JsonString (snd kv)))
            members acc.

(** The keys differ pairwise, also when case is ignored. *)
Fixpoint distinct_keys (members : list (string * string)) : Prop :=
  match members with
  | [] => True
  | (k, _) :: rest =>
      Forall (fun kv => Engine.FString_eq (fst kv) k = false) rest /\ distinct_keys rest
  end.

(** The entries whose value the decoder accepts. *)
Definition decodable (entries : list string) : Prop :=
  Forall (fun e => match Java.cut_at "=" e with
                   | Some (_, v) => Java.URLDecoder_decode v = Java.Returns (decode_or_raw v)
                   | None => True
                   end) entries.

(** No dropped entry stands before a kept one: the first entry is kept, or
    none is. *)
Definition kept_first (entries : list string) : Prop :=
  match entries with
  | e :: _ => is_Some (Java.cut_at "=" e) \/ kept_pairs entries = []
  | [] => True
  end.

(** [encodeQueryAsFlatJson]: split on [&], keep the pairs, print them as one
    object literal; the empty query has no pair. *)
Definition encodeQueryAsFlatJson (query : string) : string :=
  object_text (kept_pairs (Java.split "&" query)).

End Spec.


(** ** The two sides together *)

Module Bridge.
Import Unreal ChromeCustomTabs.

(** The Java side as the game thread has it: the state of the class, and what
    [open] has started so far, the latest first. *)
Definition JavaSide : Type := State * list Launch.

(** No character of [s] satisfies [p]. *)
Fixpoint free_of (p : ascii -> bool) (s : string) : bool :=
  match s with
  | EmptyString => true
  | String c r => negb (p c) && free_of p r
  end.

(** The characters [URLDecoder.decode] does not copy. *)
Definition is_escape (c : ascii) : bool := Ascii.eqb c "%" || Ascii.eqb c "+".

Definition is_percent (c : ascii) : bool := Ascii.eqb c "%".

(** [s] starts with two hexadecimal digits. *)
Definition two_hex_digits (s : string) : bool :=
  match s with
  | String h (String l _) =>
      match Chars.hex_value h, Chars.hex_value l with
      | Some _, Some _ => true
      | _, _ => false
      end
  | _ => false
  end.

Section Device.
Variable getPackageName : bool.
Variable newSession : bool.
Variable startActivity : string -> bool.
Variable parseColor : string -> option Z.
Variable appendQueryParameters : string -> list (string * string) -> string.

(** [Env->CallStaticBooleanMethod(ChromeCustomTabsClass, OpenTabMethod, jURL,
    jColor, jUserAgent, jCustomHeader)]: the four strings come from
    [NewStringUTF] and are not [null]. *)
Definition CallStaticBooleanMethod_openTab (jURL jColor jUserAgent jCustomHeader : string)
  (j : JavaSide) : bool * JavaSide :=
  let '(result, started, s) :=
    openTab getPackageName newSession startActivity parseColor appendQueryParameters
      jURL (Some jColor) (Some jUserAgent) (Some jCustomHeader) (fst j) in
  (result, (s, match started with Some l => l :: snd j | None => snd j end)).

End Device.

(** Java has not called [nativeOnTabClosed]. *)
Definition no_TabClosed (calls : list NativeCall) : Prop :=
  Forall (fun c => c <> nativeOnTabClosed) calls.

(** The game thread runs the tasks of the native calls in the order in which
    Java made them; [natives] has the latest call first. *)
Definition deliver (s : State) (w : World) : World :=
  GameThreadTasks (rev (natives s)) w.

End Bridge.

(** * Properties *)

(** ** The active-instance registry and the session state *)

Section Session.
Import Engine Unreal.

Implicit Types (w : World) (this p : addr) (o : UCPP_ABCT_Base).

Lemma lookup_assign_eq this f w :
  objects (assign this f w) !! this = f <$> objects w !! this.
Proof. apply lookup_alter_eq. Qed.

Lemma lookup_assign_ne this p f w :
  this <> p -> objects (assign this f w) !! p = objects w !! p.
Proof. intros Hne. by apply lookup_alter_ne. Qed.

Lemma member_assign {A} this (g : UCPP_ABCT_Base -> A) d f w :
  member this g d (assign this f w) = member this (fun o => g (f o)) d w.
Proof.
  unfold member. rewrite lookup_assign_eq.
  by destruct (objects w !! this).
Qed.

Lemma member_live {A} this (g : UCPP_ABCT_Base -> A) d w o :
  objects w !! this = Some o -> member this g d w = g o.
Proof. unfold member. by intros ->. Qed.

Lemma HandleNavigationEvent_this android this Event URL w o :
  objects w !! this = Some o ->
  objects (HandleNavigationEvent android this Event URL w) !! this
  = Some (navigation_step Event URL o).
Proof.
  intros Ho. unfold HandleNavigationEvent, navigation_step.
  unfold OnCustomTabClosed, OnCustomTabOpened, IsChromeCustomTabOpen.
  destruct (IsEmpty URL), (FString_eq Event "TabClosed"),
    (FString_eq Event "NavigationStarted"), android; cbn [negb andb];
    rewrite ?member_assign; erewrite ?member_live by eassumption;
    cbn [set_CurrentURL set_LastNavigationEvent bIsCustomTabOpen];
    try destruct (bIsCustomTabOpen o); cbn [Bool.eqb];
    cbn [emit RegisterActiveInstance UnregisterActiveInstance with_ActiveInstance objects];
    rewrite ?lookup_assign_eq, Ho; reflexivity.
Qed.

Lemma HandleNavigationEvent_others android this p Event URL w :
  this <> p ->
  objects (HandleNavigationEvent android this Event URL w) !! p = objects w !! p.
Proof.
  intros Hne. unfold HandleNavigationEvent, OnCustomTabClosed, OnCustomTabOpened.
  repeat match goal with
         | |- context [if ?b then _ else _] => destruct b
         end;
    cbn [emit RegisterActiveInstance UnregisterActiveInstance with_ActiveInstance objects];
    rewrite ?lookup_assign_ne by done; reflexivity.
Qed.

Lemma HandleNavigationEvent_open android this Event URL w o :
  objects w !! this = Some o ->
  IsChromeCustomTabOpen this (HandleNavigationEvent android this Event URL w)
  = bIsCustomTabOpen (navigation_step Event URL o).
Proof.
  intros Ho. unfold IsChromeCustomTabOpen, member.
  by rewrite (HandleNavigationEvent_this _ _ _ _ _ _ Ho).
Qed.

Lemma HandleNavigationEvent_url android this Event URL w o :
  objects w !! this = Some o ->
  GetCurrentURL this (HandleNavigationEvent android this Event URL w)
  = CurrentURL (navigation_step Event URL o).
Proof.
  intros Ho. unfold GetCurrentURL, member.
  by rewrite (HandleNavigationEvent_this _ _ _ _ _ _ Ho).
Qed.

Lemma navigation_step_stays_open Event URL o :
  bIsCustomTabOpen o = true ->
  bIsCustomTabOpen (navigation_step Event URL o) = negb (FString_eq Event "TabClosed").
Proof.
  intros Hopen. unfold navigation_step. destruct o; cbn in Hopen; subst.
  destruct (IsEmpty URL), (FString_eq Event "TabClosed"),
    (FString_eq Event "NavigationStarted"); reflexivity.
Qed.

Lemma navigation_step_closed_url Event URL o :
  FString_eq Event "TabClosed" = true ->
  CurrentURL (navigation_step Event URL o) = EmptyString.
Proof. intros H. unfold navigation_step. by rewrite H. Qed.

Lemma HandleNavigationEvent_unregisters this Event URL w :
  FString_eq Event "TabClosed" = true ->
  ActiveInstance (HandleNavigationEvent true this Event URL w) = None.
Proof.
  intros H. unfold HandleNavigationEvent. rewrite H.
  by destruct (negb (IsEmpty URL)).
Qed.

Lemma HandleNavigationEvent_keeps_registration this Event URL w :
  ActiveInstance (HandleNavigationEvent false this Event URL w) = ActiveInstance w.
Proof.
  unfold HandleNavigationEvent, OnCustomTabClosed, OnCustomTabOpened.
  repeat match goal with
         | |- context [if ?b then _ else _] => destruct b
         end; reflexivity.
Qed.

Lemma open_is_live this w :
  IsChromeCustomTabOpen this w = true ->
  exists o, objects w !! this = Some o /\ bIsCustomTabOpen o = true.
Proof.
  unfold IsChromeCustomTabOpen, member.
  destruct (objects w !! this) as [o|]; [eauto | discriminate].
Qed.

Lemma GetActiveInstance_Some w p :
  GetActiveInstance w = Some p -> ActiveInstance w = Some p /\ is_Some (objects w !! p).
Proof.
  unfold GetActiveInstance. destruct (ActiveInstance w) as [a|]; [|discriminate].
  case_decide; [|discriminate]. intros [= ->]. done.
Qed.



(** The names [nativeOnNavigationEvent] gives to events never read as
    [TabClosed]. *)
Lemma EventName_not_TabClosed jEvent : FString_eq (EventName jEvent) "TabClosed" = false.
Proof.
  destruct jEvent as [|n|n]; try reflexivity;
    repeat (destruct n as [n|n|]; try reflexivity).
Qed.

Lemma HandleDeepLink_open this p Action ParamsJson w :
  IsChromeCustomTabOpen p (HandleDeepLink this Action ParamsJson w)
  = IsChromeCustomTabOpen p w.
Proof.
  unfold IsChromeCustomTabOpen, HandleDeepLink, member. cbn [emit objects].
  destruct (decide (this = p)) as [->|Hne].
  - rewrite lookup_assign_eq. by destruct (objects w !! p).
  - by rewrite lookup_assign_ne.
Qed.

(** C5. Registering A and then B makes [GetActiveInstance] return B (and not
    A, when they differ); after [UnregisterActiveInstance] it returns
    [nullptr]; unregistering twice is unregistering once; and a registration
    replaces whatever was registered before, a null pointer included. *)
Theorem registry_holds_last_registration w A B :
  is_Some (objects w !! B) ->
  let w2 := RegisterActiveInstance (Some B) (RegisterActiveInstance (Some A) w) in
  GetActiveInstance w2 = Some B
  /\ (A <> B -> GetActiveInstance w2 <> Some A)
  /\ (forall w', GetActiveInstance (UnregisterActiveInstance w') = None)
  /\ (forall w', UnregisterActiveInstance (UnregisterActiveInstance w')
                 = UnregisterActiveInstance w')
  /\ (forall previous,
        RegisterActiveInstance (Some B) (RegisterActiveInstance previous w)
        = RegisterActiveInstance (Some B) w).
Proof.
  intros Hlive w2.
  assert (HB : GetActiveInstance w2 = Some B).
  { unfold GetActiveInstance, w2. cbn. by rewrite decide_True. }
  repeat split; try done.
  intros Hne. rewrite HB. congruence.
Qed.

Lemma registry_holds_last_registration_witness :
  is_Some (objects fresh_world !! 2%positive)
  /\ GetActiveInstance
       (RegisterActiveInstance (Some 2%positive)
          (RegisterActiveInstance (Some 1%positive) fresh_world))
     = Some 2%positive.
Proof.
  assert (H : is_Some (objects fresh_world !! 2%positive)) by (vm_compute; eauto).
  split; [exact H|].
  exact (proj1 (registry_holds_last_registration fresh_world 1%positive 2%positive H)).
Defined.

(** C3. While the tab is open, [TabHidden] leaves it open and so does a
    following [TabShown]; an event after which the tab is no longer open reads
    as [TabClosed]; and [TabClosed] closes the tab, clears the current URL and
    (on Android) empties the registry.  Of the calls Java can make, only
    [nativeOnTabClosed] closes the tab of the active instance. *)
Theorem only_TabClosed_closes android this w :
  IsChromeCustomTabOpen this w = true ->
  (forall URL,
      IsChromeCustomTabOpen this (HandleNavigationEvent android this "TabHidden" URL w) = true)
  /\ (forall URL URL',
        IsChromeCustomTabOpen this
          (HandleNavigationEvent android this "TabShown" URL'
             (HandleNavigationEvent android this "TabHidden" URL w)) = true)
  /\ (forall Event URL,
        IsChromeCustomTabOpen this (HandleNavigationEvent android this Event URL w) = false ->
        FString_eq Event "TabClosed" = true)
  /\ (forall Event URL,
        FString_eq Event "TabClosed" = true ->
        let w' := HandleNavigationEvent android this Event URL w in
        IsChromeCustomTabOpen this w' = false
        /\ GetCurrentURL this w' = EmptyString
        /\ ActiveInstance w' = (if android then None else ActiveInstance w)
        /\ (android = true -> GetActiveInstance w' = None))
  /\ (forall c,
        GetActiveInstance w = Some this ->
        IsChromeCustomTabOpen this (GameThreadTask c w) = false ->
        c = nativeOnTabClosed).
Proof.
  intros Hopen. destruct (open_is_live _ _ Hopen) as (o & Ho & Hb).
  assert (Hstay : forall platform Event URL,
    IsChromeCustomTabOpen this (HandleNavigationEvent platform this Event URL w)
    = negb (FString_eq Event "TabClosed")).
  { intros. rewrite (HandleNavigationEvent_open _ _ _ _ _ _ Ho).
    by apply navigation_step_stays_open. }
  split; [|split; [|split; [|split]]].
  - intros URL. by rewrite Hstay.
  - intros URL URL'.
    pose proof (HandleNavigationEvent_this android this "TabHidden" URL w o Ho) as Ho'.
    rewrite (HandleNavigationEvent_open _ _ _ _ _ _ Ho').
    rewrite navigation_step_stays_open; [done|].
    by rewrite navigation_step_stays_open.
  - intros Event URL. rewrite Hstay. by destruct (FString_eq Event "TabClosed").
  - intros Event URL Hclosed w'. subst w'. split; [|split; [|split]].
    + by rewrite Hstay, Hclosed.
    + rewrite (HandleNavigationEvent_url _ _ _ _ _ _ Ho).
      by apply navigation_step_closed_url.
    + destruct android.
      * by apply HandleNavigationEvent_unregisters.
      * apply HandleNavigationEvent_keeps_registration.
    + intros ->. unfold GetActiveInstance.
      by rewrite HandleNavigationEvent_unregisters.
  - intros c Hactive. unfold GameThreadTask. rewrite Hactive.
    destruct c; cbn [navigation_event]; rewrite ?HandleDeepLink_open, ?Hstay, ?Hopen;
      try rewrite EventName_not_TabClosed; try discriminate; reflexivity.
Qed.

Lemma only_TabClosed_closes_witness :
  IsChromeCustomTabOpen 1%positive open_world = true
  /\ IsChromeCustomTabOpen 1%positive
       (HandleNavigationEvent true 1%positive "TabShown" EmptyString
          (HandleNavigationEvent true 1%positive "TabHidden" EmptyString open_world))
     = true.
Proof.
  assert (H : IsChromeCustomTabOpen 1%positive open_world = true) by reflexivity.
  split; [exact H|].
  exact (proj1 (proj2 (only_TabClosed_closes true 1%positive open_world H))
           EmptyString EmptyString).
Defined.

(** C4, as the code has it.  On an object whose tab is not open,
    [NavigationStarted] marks the tab open, records the URL of the event and
    (on Android) registers the object; [TabOpened] leaves the tab marked as
    not open. *)
Theorem NavigationStarted_opens android this w o URL :
  objects w !! this = Some o ->
  bIsCustomTabOpen o = false ->
  let w' := HandleNavigationEvent android this "NavigationStarted" URL w in
  IsChromeCustomTabOpen this w' = true
  /\ GetCurrentURL this w' = URL
  /\ ActiveInstance w' = (if android then Some this else ActiveInstance w)
  /\ IsChromeCustomTabOpen this (HandleNavigationEvent android this "TabOpened" URL w)
     = false.
Proof.
  intros Ho Hclosed w'. subst w'.
  rewrite !(HandleNavigationEvent_open _ _ _ _ _ _ Ho).
  rewrite (HandleNavigationEvent_url _ _ _ _ _ _ Ho).
  destruct o; cbn in Hclosed; subst.
  split; [|split; [|split]].
  - unfold navigation_step. by destruct (IsEmpty URL).
  - unfold navigation_step. by destruct (IsEmpty URL).
  - destruct android; [|apply HandleNavigationEvent_keeps_registration].
    unfold HandleNavigationEvent, IsChromeCustomTabOpen.
    change (FString_eq "NavigationStarted" "TabClosed") with false.
    change (FString_eq "NavigationStarted" "NavigationStarted") with true.
    cbn [andb].
    destruct (IsEmpty URL); cbn [negb]; rewrite ?member_assign;
      erewrite member_live by eassumption; reflexivity.
  - unfold navigation_step. by destruct (IsEmpty URL).
Qed.

Lemma NavigationStarted_opens_witness :
  objects fresh_world !! 1%positive = Some constructed
  /\ bIsCustomTabOpen constructed = false
  /\ IsChromeCustomTabOpen 1%positive
       (HandleNavigationEvent true 1%positive "NavigationStarted" "https://example.org"
          fresh_world) = true.
Proof.
  assert (H : objects fresh_world !! 1%positive = Some constructed) by reflexivity.
  split; [exact H|]. split; [reflexivity|].
  exact (proj1 (NavigationStarted_opens true 1%positive fresh_world constructed
                  "https://example.org" H eq_refl)).
Defined.

(** C4 as stated fails on [TabOpened]: the object at address 1 is not open,
    it handles [TabOpened] (with the empty URL [nativeOnTabOpened] passes, or
    with any other), and it is still not open. *)
Lemma TabOpened_does_not_open :
  IsChromeCustomTabOpen 1%positive fresh_world = false
  /\ IsChromeCustomTabOpen 1%positive
       (HandleNavigationEvent true 1%positive "TabOpened" EmptyString fresh_world) = false
  /\ IsChromeCustomTabOpen 1%positive
       (HandleNavigationEvent true 1%positive "TabOpened" "https://example.org" fresh_world)
     = false.
Proof. repeat split; reflexivity. Qed.

(** C10. [CloseChromeCustomTab] resets the object (not open, no URL, nothing
    registered) exactly when it runs on Android and the three JNI lookups
    succeed, in which case [closeTab] has been called; on every other path the
    world is what it was. *)
Theorem CloseChromeCustomTab_resets_only_when_invoked android jni this w :
  let w' := CloseChromeCustomTab android jni this w in
  if android && GetJavaEnv jni && FindJavaClass jni && GetStaticMethodID jni
  then outgoing w' = CallStaticVoidMethod_closeTab :: outgoing w
       /\ ActiveInstance w' = None
       /\ IsChromeCustomTabOpen this w' = false
       /\ GetCurrentURL this w' = EmptyString
       /\ (forall p, p <> this -> objects w' !! p = objects w !! p)
  else w' = w.
Proof.
  unfold CloseChromeCustomTab.
  destruct android, (GetJavaEnv jni), (FindJavaClass jni), (GetStaticMethodID jni);
    cbn [andb]; try reflexivity.
  unfold OnCustomTabClosed, UnregisterActiveInstance.
  cbn [with_ActiveInstance outgoing ActiveInstance objects assign with_objects emit].
  repeat split.
  - unfold IsChromeCustomTabOpen, member, assign. cbn.
    rewrite !lookup_alter_eq. by destruct (objects w !! this).
  - unfold GetCurrentURL, member, assign. cbn.
    rewrite !lookup_alter_eq. by destruct (objects w !! this).
  - intros p Hne. by rewrite !lookup_alter_ne.
Qed.

End Session.

(** ** The JSON reader: its fuel *)

Section Reader.
Import Engine.

Ltac break_match :=
  match goal with
  | H : context [match ?x with _ => _ end] |- _ => destruct x eqn:?
  | |- context [match ?x with _ => _ end] => destruct x eqn:?
  end.

Lemma skip_ws_length s : (String.length (skip_ws s) <= String.length s)%nat.
Proof.
  induction s as [|c r IH]; cbn; [lia|].
  destruct (is_whitespace c); cbn; lia.
Qed.

Lemma parse_string_shorter n : forall s t r,
  (String.length s <= n)%nat ->
  parse_string s = Parsed t r -> (String.length r < String.length s)%nat.
Proof.
  induction n as [|n IH]; intros s t r Hn.
  - destruct s; [discriminate | cbn in Hn; lia].
  - destruct s as [|c s]; [discriminate|]. cbn in Hn. cbn [parse_string].
    intros H. repeat break_match; try discriminate;
      injection H as <- <-; subst; cbn [String.length] in *;
      match goal with
      | E : parse_string ?x = Parsed _ ?y |- _ =>
          apply IH in E; cbn [String.length] in *; lia
      | _ => lia
      end.
Qed.

Lemma parse_string_has_fuel s : parse_string s <> OutOfFuel.
Proof.
  remember (String.length s) as n eqn:Hn.
  assert (Hle : (String.length s <= n)%nat) by lia. clear Hn. revert s Hle.
  induction n as [|n IH]; intros s Hn.
  - destruct s; [discriminate | cbn in Hn; lia].
  - destruct s as [|c s]; [discriminate|]. cbn in Hn. cbn [parse_string].
    repeat break_match; try discriminate; subst; cbn [String.length] in *;
      match goal with
      | E : parse_string ?x = OutOfFuel |- _ => apply IH in E; [done | lia]
      end.
Qed.

Lemma eat_length c s r : eat c s = Some r -> String.length s = S (String.length r).
Proof.
  destruct s as [|x s]; cbn; [discriminate|].
  destruct (Ascii.eqb x c); [|discriminate]. by intros [= ->].
Qed.

Lemma take_digits_length s d r :
  take_digits s = (d, r) -> String.length s = (String.length d + String.length r)%nat.
Proof.
  revert d r. induction s as [|c s IH]; intros d r; cbn [take_digits].
  - by intros [= <- <-].
  - destruct (Chars.is_digit c).
    + destruct (take_digits s) as [d' r'] eqn:E. intros [= <- <-].
      cbn. by rewrite (IH d' r').
    + by intros [= <- <-].
Qed.

Lemma IsEmpty_length s : IsEmpty s = false -> (0 < String.length s)%nat.
Proof. destruct s; [discriminate|]. cbn. lia. Qed.

Lemma parse_fraction_length s f r :
  parse_fraction s = Some (f, r) -> (String.length r <= String.length s)%nat.
Proof.
  unfold parse_fraction. intros H.
  repeat break_match; try discriminate; injection H as <- <-;
    repeat match goal with
      | E : eat _ _ = Some _ |- _ => apply eat_length in E
      | E : take_digits _ = _ |- _ => apply take_digits_length in E
      end; lia.
Qed.

Lemma parse_exponent_length s x r :
  parse_exponent s = Some (x, r) -> (String.length r <= String.length s)%nat.
Proof.
  unfold parse_exponent. intros H.
  repeat break_match; try discriminate; injection H as <- <-;
    repeat match goal with
      | E : (_, _) = (_, _) |- _ => injection E as <- <-
      | E : eat _ _ = Some _ |- _ => apply eat_length in E
      | E : take_digits _ = _ |- _ => apply take_digits_length in E
      end; cbn [String.length] in *; lia.
Qed.

Lemma parse_number_shorter s t r :
  parse_number s = Parsed t r -> (String.length r < String.length s)%nat.
Proof.
  unfold parse_number. intros H.
  repeat break_match; try discriminate; injection H as <- <-;
    repeat match goal with
      | E : (_, _) = (_, _) |- _ => injection E as <- <-
      | E : eat _ _ = Some _ |- _ => apply eat_length in E
      | E : take_digits _ = _ |- _ => apply take_digits_length in E
      | E : parse_fraction _ = _ |- _ => apply parse_fraction_length in E
      | E : parse_exponent _ = _ |- _ => apply parse_exponent_length in E
      | E : (_ || _)%bool = false |- _ => apply orb_false_elim in E as [? ?]
      | E : IsEmpty _ = false |- _ => apply IsEmpty_length in E
      end; lia.
Qed.

Lemma parse_number_has_fuel s : parse_number s <> OutOfFuel.
Proof. unfold parse_number. repeat break_match; discriminate. Qed.

Lemma strip_prefix_length p : forall s r,
  strip_prefix p s = Some r -> String.length s = (String.length p + String.length r)%nat.
Proof.
  induction p as [|a p IH]; intros s r; cbn [strip_prefix].
  - by intros [= <-].
  - destruct s as [|b s]; [discriminate|]. destruct (Ascii.eqb a b); [|discriminate].
    intros H. cbn. by rewrite (IH _ _ H).
Qed.

Lemma parse_literal_shorter s v r :
  parse_literal s = Parsed v r -> (String.length r < String.length s)%nat.
Proof.
  unfold parse_literal. intros H.
  repeat break_match; try discriminate; injection H as <- <-;
    repeat match goal with
    | E : strip_prefix _ _ = Some _ |- _ => apply strip_prefix_length in E; cbn in E
    end; lia.
Qed.

Lemma parse_literal_has_fuel s : parse_literal s <> OutOfFuel.
Proof. unfold parse_literal. repeat break_match; discriminate. Qed.

(** A value, a list of members or a list of elements that is read takes at
    least one character. *)
Lemma parse_shorter fuel :
  (forall s v r, parse_value fuel s = Parsed v r ->
                 (String.length r < String.length s)%nat)
  /\ (forall s acc fs r, parse_members fuel s acc = Parsed fs r ->
                         (String.length r < String.length s)%nat)
  /\ (forall s vs r, parse_elements fuel s = Parsed vs r ->
                     (String.length r < String.length s)%nat).
Proof.
  induction fuel as [|fuel (IHv & IHm & IHe)]; [by repeat split|].
  split; [|split].
  - intros s v r. cbn [parse_value]. unfold value_step. intros H.
    pose proof (skip_ws_length s).
    repeat break_match; try discriminate; try injection H as <- <-;
      repeat match goal with
        | E : eat _ (skip_ws ?x) = Some _ |- _ =>
            apply eat_length in E; pose proof (skip_ws_length x)
        | E : parse_string _ = Parsed _ _ |- _ => apply (parse_string_shorter _ _ _ _ (le_n _)) in E
        | E : parse_number _ = Parsed _ _ |- _ => apply parse_number_shorter in E
        | E : parse_literal _ = Parsed _ _ |- _ => apply parse_literal_shorter in E
        | E : parse_members _ _ _ = Parsed _ _ |- _ => apply IHm in E
        | E : parse_elements _ _ = Parsed _ _ |- _ => apply IHe in E
        | E : skip_ws ?x = _ |- _ =>
            pose proof (skip_ws_length x); rewrite E in *; clear E
        end; cbn [String.length] in *; try lia.
  - intros s acc fs r. cbn [parse_members]. unfold members_step. intros H.
    pose proof (skip_ws_length s).
    repeat break_match; try discriminate; try injection H as <- <-;
      repeat match goal with
        | E : parse_string _ = Parsed _ _ |- _ => apply (parse_string_shorter _ _ _ _ (le_n _)) in E
        | E : parse_value _ _ = Parsed _ _ |- _ => apply IHv in E
        | E : parse_members _ _ _ = Parsed _ _ |- _ => apply IHm in E
        | E : eat _ (skip_ws ?x) = Some _ |- _ =>
            apply eat_length in E; pose proof (skip_ws_length x)
        end; cbn [String.length] in *; try lia.
  - intros s vs r. cbn [parse_elements]. unfold elements_step. intros H.
    repeat break_match; try discriminate; try injection H as <- <-;
      repeat match goal with
        | E : parse_value _ _ = Parsed _ _ |- _ => apply IHv in E
        | E : parse_elements _ _ = Parsed _ _ |- _ => apply IHe in E
        | E : eat _ (skip_ws ?x) = Some _ |- _ =>
            apply eat_length in E; pose proof (skip_ws_length x)
        end; cbn [String.length] in *; try lia.
Qed.

(** More than twice the length of the text is enough fuel to read it. *)
Lemma parse_enough_fuel fuel :
  (forall s, (2 * String.length s < fuel)%nat -> parse_value fuel s <> OutOfFuel)
  /\ (forall s acc, (2 * String.length s < fuel)%nat ->
                    parse_members fuel s acc <> OutOfFuel)
  /\ (forall s, (2 * String.length s + 1 < fuel)%nat ->
                parse_elements fuel s <> OutOfFuel).
Proof.
  induction fuel as [|fuel (IHv & IHm & IHe)]; [repeat split; intros; lia|].
  destruct (parse_shorter fuel) as (Sv & Sm & Se).
  split; [|split].
  - intros s Hs. cbn [parse_value]. unfold value_step.
    pose proof (skip_ws_length s).
    repeat break_match; try discriminate;
      repeat match goal with
        | E : skip_ws s = String _ _ |- _ => rewrite E in *; clear E
        | E : eat _ (skip_ws ?x) = _ |- _ => clear E
        end; cbn [String.length] in *;
      match goal with
      | E : parse_string _ = OutOfFuel |- _ => by apply parse_string_has_fuel in E
      | E : parse_number _ = OutOfFuel |- _ => by apply parse_number_has_fuel in E
      | E : parse_members _ _ _ = OutOfFuel |- _ => apply IHm in E; [done|lia]
      | E : parse_elements _ _ = OutOfFuel |- _ => apply IHe in E; [done|lia]
      | |- parse_literal _ <> _ => apply parse_literal_has_fuel
      end.
  - intros s acc Hs. cbn [parse_members]. unfold members_step.
    pose proof (skip_ws_length s).
    repeat break_match; try discriminate;
      repeat match goal with
        | E : parse_string _ = Parsed _ _ |- _ =>
            apply (parse_string_shorter _ _ _ _ (le_n _)) in E
        | E : parse_value _ _ = Parsed _ _ |- _ => apply Sv in E
        | E : eat _ (skip_ws ?x) = Some _ |- _ =>
            apply eat_length in E; pose proof (skip_ws_length x)
        end; cbn [String.length] in *;
      match goal with
      | E : parse_string _ = OutOfFuel |- _ => by apply parse_string_has_fuel in E
      | E : parse_value _ _ = OutOfFuel |- _ => apply IHv in E; [done|lia]
      | |- parse_members _ _ _ <> _ => apply IHm; lia
      end.
  - intros s Hs. cbn [parse_elements]. unfold elements_step.
    repeat break_match; try discriminate;
      repeat match goal with
        | E : parse_value _ _ = Parsed _ _ |- _ => apply Sv in E
        | E : eat _ (skip_ws ?x) = Some _ |- _ =>
            apply eat_length in E; pose proof (skip_ws_length x)
        end; cbn [String.length] in *;
      match goal with
      | E : parse_value _ _ = OutOfFuel |- _ => apply IHv in E; [done|lia]
      | E : parse_elements _ _ = OutOfFuel |- _ => apply IHe in E; [done|lia]
      end.
Qed.

(** A result that is not [OutOfFuel] stays the same with more fuel. *)
Lemma parse_more_fuel fuel :
  (forall s, parse_value fuel s <> OutOfFuel ->
             parse_value (S fuel) s = parse_value fuel s)
  /\ (forall s acc, parse_members fuel s acc <> OutOfFuel ->
                    parse_members (S fuel) s acc = parse_members fuel s acc)
  /\ (forall s, parse_elements fuel s <> OutOfFuel ->
                parse_elements (S fuel) s = parse_elements fuel s).
Proof.
  induction fuel as [|fuel (IHv & IHm & IHe)]; [by repeat split|].
  split; [|split].
  - intros s. change (value_step (parse_members fuel) (parse_elements fuel) s <> OutOfFuel
      -> value_step (parse_members (S fuel)) (parse_elements (S fuel)) s
         = value_step (parse_members fuel) (parse_elements fuel) s).
    unfold value_step. intros Hfuel.
    repeat (break_match; try done);
      match goal with
      | E : parse_members fuel ?a ?b = _, E' : parse_members (S fuel) ?a ?b = _ |- _ =>
          rewrite IHm in E' by (by rewrite E); congruence
      | E : parse_elements fuel ?a = _, E' : parse_elements (S fuel) ?a = _ |- _ =>
          rewrite IHe in E' by (by rewrite E); congruence
      end.
  - intros s acc.
    change (members_step (parse_value fuel) (parse_members fuel) s acc <> OutOfFuel
      -> members_step (parse_value (S fuel)) (parse_members (S fuel)) s acc
         = members_step (parse_value fuel) (parse_members fuel) s acc).
    unfold members_step. intros Hfuel.
    repeat (break_match; try done);
      repeat match goal with
      | E : parse_value fuel ?a = _, E' : parse_value (S fuel) ?a = _ |- _ =>
          rewrite IHv in E' by (by rewrite E); rewrite E in E'; clear E;
          try discriminate; try injection E' as <- <-
      | E : eat ?c ?x = _, E' : eat ?c ?x = _ |- _ =>
          rewrite E in E'; clear E; try discriminate; try injection E' as <-
      end; try done; by apply IHm.
  - intros s.
    change (elements_step (parse_value fuel) (parse_elements fuel) s <> OutOfFuel
      -> elements_step (parse_value (S fuel)) (parse_elements (S fuel)) s
         = elements_step (parse_value fuel) (parse_elements fuel) s).
    unfold elements_step. intros Hfuel.
    repeat (break_match; try done);
      repeat match goal with
      | E : parse_value fuel ?a = _, E' : parse_value (S fuel) ?a = _ |- _ =>
          rewrite IHv in E' by (by rewrite E); rewrite E in E'; clear E;
          try discriminate; try injection E' as <- <-
      | E : eat ?c ?x = _, E' : eat ?c ?x = _ |- _ =>
          rewrite E in E'; clear E; try discriminate; try injection E' as <-
      | E : parse_elements fuel ?a = _, E' : parse_elements (S fuel) ?a = _ |- _ =>
          rewrite IHe in E' by (by rewrite E); rewrite E in E'; clear E;
          try discriminate; try injection E' as <- <-
      end; done.
Qed.

Lemma parse_value_more_fuel k : forall fuel s,
  parse_value fuel s <> OutOfFuel -> parse_value (k + fuel) s = parse_value fuel s.
Proof.
  induction k as [|k IH]; intros fuel s Hfuel; [done|].
  cbn [Nat.add]. rewrite (proj1 (parse_more_fuel (k + fuel))); rewrite IH; done.
Qed.

(** The fuel [Deserialize] gives the reader is enough, and with any larger
    amount the reader returns the same. *)
Lemma Deserialize_fuel text fuel :
  (2 * String.length text < fuel)%nat ->
  parse_value fuel text = parse_value (S (2 * String.length text)) text
  /\ parse_value fuel text <> OutOfFuel.
Proof.
  intros Hfuel.
  assert (Henough : parse_value (S (2 * String.length text)) text <> OutOfFuel)
    by (apply parse_enough_fuel; lia).
  replace fuel with ((fuel - S (2 * String.length text)) + S (2 * String.length text))%nat
    by lia.
  rewrite parse_value_more_fuel by done. done.
Qed.

End Reader.

(** ** The query-string codec *)

Section Codec.
Import Engine Unreal.

(** What holds of [queryStringToJson]: the two examples of the specification. *)
Lemma queryStringToJson_examples :
  Java.queryStringToJson None = Java.Returns "{}"
  /\ Java.queryStringToJson (Some EmptyString) = Java.Returns "{}"
  /\ Java.queryStringToJson (Some "a=1&b=2")
     = Java.Returns (Spec.object_text [("a", "1"); ("b", "2")])
  /\ Deserialize (Spec.object_text [("a", "1"); ("b", "2")])
     = Some [("a", JsonString "1"); ("b", JsonString "2")].
Proof. repeat split; reflexivity. Qed.

Lemma append_cons c (s t : string) : String c s ++ t = String c (s ++ t).
Proof. reflexivity. Qed.

Lemma append_nil_r (s : string) : s ++ EmptyString = s.
Proof. induction s as [|c s IH]; [done|]. by rewrite append_cons, IH. Qed.

Lemma append_assoc (a b c : string) : (a ++ b) ++ c = a ++ b ++ c.
Proof. induction a as [|x a IH]; [done|]. by rewrite !append_cons, IH. Qed.

Lemma join_members m ms :
  Spec.join "," (map Spec.member_text (m :: ms)) = Spec.member_text m ++ Spec.with_commas ms.
Proof.
  revert m. induction ms as [|m' ms IH]; intros m.
  - cbn [map Spec.join Spec.with_commas]. by rewrite append_nil_r.
  - change (Spec.join "," (map Spec.member_text (m :: m' :: ms)))
      with (Spec.member_text m ++ "," ++ Spec.join "," (map Spec.member_text (m' :: ms))).
    by rewrite IH.
Qed.

Lemma split2_cut_at e :
  Java.split2 "=" e = match Java.cut_at "=" e with
                      | Some (k, v) => [k; v]
                      | None => [e]
                      end.
Proof. unfold Java.split2. by destruct (Java.cut_at "=" e) as [[k v]|]. Qed.

(** The loop from an index that is not 0: every kept entry adds a comma and a
    member. *)
Lemma queryStringToJson_loop_later entries : forall i json,
  (0 < i)%nat ->
  Spec.decodable entries ->
  Java.queryStringToJson_loop i entries json
  = Java.Returns (json ++ Spec.with_commas (Spec.kept_pairs entries)).
Proof.
  induction entries as [|e entries IH]; intros i json Hi Hdec.
  - cbn. by rewrite append_nil_r.
  - apply Forall_cons in Hdec as [He Hdec].
    cbn [Java.queryStringToJson_loop Spec.kept_pairs]. rewrite split2_cut_at.
    destruct (Java.cut_at "=" e) as [[k v]|].
    + rewrite He. cbn [Java.bind].
      replace (0 <? i)%nat with true by (symmetry; apply Nat.ltb_lt; lia).
      rewrite IH by (done || lia). f_equal.
      cbn [Spec.with_commas]. unfold Spec.member_text, Spec.quoted. cbn [fst snd].
      by rewrite !append_assoc.
    + by rewrite IH by (done || lia).
Qed.

Lemma queryStringToJson_written query :
  Spec.kept_first (Java.split "&" query) ->
  Spec.decodable (Java.split "&" query) ->
  Java.queryStringToJson (Some query) = Java.Returns (Spec.encodeQueryAsFlatJson query).
Proof.
  intros Hfirst Hdec. unfold Java.queryStringToJson, Spec.encodeQueryAsFlatJson.
  destruct query as [|c query]; [reflexivity|]. cbn [Java.isEmpty].
  destruct (Java.split "&" (String c query)) as [|e entries]; [reflexivity|].
  cbn [Spec.kept_first] in Hfirst.
  destruct (Java.cut_at "=" e) as [[k v]|] eqn:Hcut.
  - pose proof Hdec as Hdec'. apply Forall_cons in Hdec' as [He Hrest].
    rewrite Hcut in He.
    cbn [Java.queryStringToJson_loop Spec.kept_pairs]. rewrite split2_cut_at, Hcut, He.
    cbn [Java.bind Nat.ltb Nat.leb].
    rewrite queryStringToJson_loop_later by (done || lia). cbn [Java.bind].
    unfold Spec.object_text. rewrite join_members.
    unfold Spec.member_text, Spec.quoted. cbn [fst snd].
    by rewrite !append_assoc.
  - destruct Hfirst as [[x Hx]|Hnone]; [discriminate|].
    assert (Hloop : forall i json,
      Java.queryStringToJson_loop i (e :: entries) json = Java.Returns json).
    { intros i json. cbn [Java.queryStringToJson_loop]. rewrite split2_cut_at, Hcut.
      rewrite queryStringToJson_loop_later.
      - cbn [Spec.kept_pairs] in Hnone. rewrite Hcut in Hnone. rewrite Hnone.
        cbn. by rewrite append_nil_r.
      - lia.
      - by apply Forall_cons in Hdec as [_ ?]. }
    rewrite Hloop, Hnone. reflexivity.
Qed.



(** C2, at the input [x&a=1].  The entry [x] is dropped, yet the comma that
    belongs between two kept members is still written, because it is written
    for every kept entry whose index is not 0: the result starts with an open
    brace and a comma, and the JSON reader refuses it, where the specification
    has the object with the one member [a]. *)
Theorem queryStringToJson_comma_after_dropped_entry :
  Java.queryStringToJson (Some "x&a=1")
  = Java.Returns ("{," ++ Spec.member_text ("a", "1") ++ "}")
  /\ Spec.encodeQueryAsFlatJson "x&a=1" = Spec.object_text [("a", "1")]
  /\ Deserialize ("{," ++ Spec.member_text ("a", "1") ++ "}") = None
  /\ Deserialize (Spec.object_text [("a", "1")]) = Some [("a", JsonString "1")].
Proof. repeat split; reflexivity. Qed.

(** A value with an incomplete escape makes the decoder throw, and the loop
    does not catch what it throws; the specification keeps the raw value. *)
Lemma queryStringToJson_throws_on_incomplete_escape :
  Java.queryStringToJson (Some "a=%") = Java.Throws Java.IllegalArgumentException
  /\ Spec.encodeQueryAsFlatJson "a=%" = Spec.object_text [("a", "%")].
Proof. split; reflexivity. Qed.

(** *** Reading back what [queryStringToJson] wrote *)

Lemma q_append (x : string) : Java.q ++ x = String Chars.quote x.
Proof. reflexivity. Qed.

Lemma member_text_append k v (y : string) :
  Spec.member_text (k, v) ++ y
  = String Chars.quote (k ++ String Chars.quote
      (String ":" (String Chars.quote (v ++ String Chars.quote y)))).
Proof.
  unfold Spec.member_text, Spec.quoted. cbn [fst snd].
  rewrite !append_assoc, !q_append. reflexivity.
Qed.

Lemma parse_string_plain s rest :
  Spec.plain s = true -> parse_string (s ++ String Chars.quote rest) = Parsed s rest.
Proof.
  induction s as [|c s IH]; intros Hplain.
  - reflexivity.
  - cbn [Spec.plain] in Hplain. apply andb_prop in Hplain as [Hc Hs].
    apply andb_prop in Hc as [Hc _]. apply andb_prop in Hc as [Hq Hb].
    rewrite append_cons. cbn [parse_string].
    destruct (Ascii.eqb c Chars.quote); [discriminate|].
    destruct (Ascii.eqb c Chars.backslash); [discriminate|].
    by rewrite IH.
Qed.

Lemma skip_ws_nonspace c x : is_whitespace c = false -> skip_ws (String c x) = String c x.
Proof. intros H. cbn [skip_ws]. by rewrite H. Qed.

Lemma eat_same c x : eat c (String c x) = Some x.
Proof. cbn [eat]. by rewrite Ascii.eqb_refl. Qed.

Lemma eat_other c d x : Ascii.eqb d c = false -> eat c (String d x) = None.
Proof. intros H. cbn [eat]. by rewrite H. Qed.

(** A string token between quotes is read as a string value. *)
Lemma value_step_string members elements v rest :
  Spec.plain v = true ->
  value_step members elements (String Chars.quote (v ++ String Chars.quote rest))
  = Parsed (JsonString v) rest.
Proof.
  intros Hv. unfold value_step. rewrite skip_ws_nonspace by reflexivity.
  change (Ascii.eqb Chars.quote "{") with false.
  change (Ascii.eqb Chars.quote "[") with false. cbv iota.
  by rewrite Ascii.eqb_refl, parse_string_plain.
Qed.

(** One member is read, up to the comma or the brace after it. *)
Lemma members_step_written fuel members k v tail acc :
  Spec.plain k = true ->
  Spec.plain v = true ->
  members_step (parse_value (S fuel)) members (Spec.member_text (k, v) ++ tail) acc
  = match eat "," (skip_ws tail), eat "}" (skip_ws tail) with
    | Some r, _ => members r (SetField acc k (JsonString v))
    | None, Some r => Parsed (SetField acc k (JsonString v)) r
    | None, None => Malformed
    end.
Proof.
  intros Hk Hv. unfold members_step. rewrite member_text_append.
  rewrite skip_ws_nonspace by reflexivity. rewrite eat_same.
  rewrite parse_string_plain by done.
  rewrite skip_ws_nonspace by reflexivity. rewrite eat_same.
  change (parse_value (S fuel) ?x)
    with (value_step (parse_members fuel) (parse_elements fuel) x).
  by rewrite value_step_string.
Qed.

(** The members of an object literal are read back one by one. *)
Lemma parse_members_written members : forall fuel kv acc rest,
  (length members + 1 < fuel)%nat ->
  Forall (fun kv => Spec.plain (fst kv) = true /\ Spec.plain (snd kv) = true)
         (kv :: members) ->
  parse_members fuel
    (Spec.member_text kv ++ Spec.with_commas members ++ String "}" rest) acc
  = Parsed (Spec.object_of (kv :: members) acc) rest.
Proof.
  induction members as [|kv' members IH]; intros fuel [k v] acc rest Hfuel Hplain;
    apply Forall_cons in Hplain as [[Hk Hv] Hplain]; cbn [fst snd] in Hk, Hv;
    destruct fuel as [|[|fuel]]; cbn [length] in Hfuel; try lia;
    change (parse_members (S (S fuel)) ?x ?a)
      with (members_step (parse_value (S fuel)) (parse_members (S fuel)) x a);
    rewrite members_step_written by done.
  - change (Spec.with_commas [] ++ String "}" rest) with (String "}" rest).
    rewrite skip_ws_nonspace by reflexivity.
    rewrite eat_other by reflexivity. by rewrite eat_same.
  - cbn [Spec.with_commas]. rewrite !append_assoc.
    change ("," ++ ?x) with (String "," x).
    rewrite skip_ws_nonspace by reflexivity. rewrite eat_same.
    rewrite IH by (done || lia). reflexivity.
Qed.

(** An object literal with plain keys and values is read as the object of its
    members. *)
Lemma Deserialize_written kv members :
  Forall (fun kv => Spec.plain (fst kv) = true /\ Spec.plain (snd kv) = true)
         (kv :: members) ->
  Deserialize (Spec.object_text (kv :: members))
  = Some (Spec.object_of (kv :: members) []).
Proof.
  intros Hplain. unfold Deserialize.
  set (text := Spec.object_text (kv :: members)).
  set (fuel := (2 * String.length text + length members + 2)%nat).
  destruct (Deserialize_fuel text (S fuel) ltac:(lia)) as [<- _].
  change (parse_value (S fuel) text)
    with (value_step (parse_members fuel) (parse_elements fuel) text).
  subst text. unfold Spec.object_text. rewrite join_members, append_assoc.
  change ("{" ++ ?x) with (String "{" x). unfold value_step.
  rewrite skip_ws_nonspace by reflexivity. rewrite Ascii.eqb_refl.
  destruct kv as [k v]. rewrite member_text_append at 1.
  rewrite skip_ws_nonspace by reflexivity. rewrite eat_other by reflexivity.
  rewrite parse_members_written by (done || lia). reflexivity.
Qed.

Lemma FString_eq_refl a : FString_eq a a = true.
Proof. apply String.eqb_refl. Qed.

Lemma FString_eq_true a b c :
  FString_eq a b = true -> FString_eq a c = FString_eq b c.
Proof. unfold FString_eq. intros H%String.eqb_eq. by rewrite H. Qed.

Lemma FString_eq_true_r a b c :
  FString_eq a b = true -> FString_eq c a = FString_eq c b.
Proof. unfold FString_eq. intros H%String.eqb_eq. by rewrite H. Qed.

Lemma TryGetField_SetField_same o k k' v :
  FString_eq k k' = true -> TryGetField (SetField o k v) k' = Some v.
Proof.
  intros Hk. induction o as [|[kk vv] o IH]; cbn [SetField TryGetField].
  - by rewrite Hk.
  - destruct (FString_eq kk k) eqn:Hkk; cbn [TryGetField].
    + by rewrite Hk.
    + by rewrite <- (FString_eq_true_r _ _ kk Hk), Hkk.
Qed.

Lemma TryGetField_SetField_other o k k' v :
  FString_eq k k' = false -> TryGetField (SetField o k v) k' = TryGetField o k'.
Proof.
  intros Hk. induction o as [|[kk vv] o IH]; cbn [SetField TryGetField].
  - by rewrite Hk.
  - destruct (FString_eq kk k) eqn:Hkk; cbn [TryGetField].
    + by rewrite Hk, (FString_eq_true _ _ k' Hkk), Hk.
    + by rewrite IH.
Qed.

Lemma TryGetField_object_of_others members : forall o k,
  Forall (fun kv => FString_eq (fst kv) k = false) members ->
  TryGetField (Spec.object_of members o) k = TryGetField o k.
Proof.
  induction members as [|[k0 v0] members IH]; intros o k Hne; [done|].
  apply Forall_cons in Hne as [Hk0 Hne]. cbn [fst] in Hk0.
  unfold Spec.object_of in *. cbn [fold_left fst snd].
  by rewrite IH, TryGetField_SetField_other.
Qed.

Lemma TryGetField_object_of members : forall o k v,
  Spec.distinct_keys members ->
  In (k, v) members ->
  TryGetField (Spec.object_of members o) k = Some (JsonString v).
Proof.
  induction members as [|[k0 v0] members IH]; intros o k v Hdistinct Hin; [done|].
  cbn [Spec.distinct_keys] in Hdistinct. destruct Hdistinct as [Hothers Hdistinct].
  unfold Spec.object_of in *. cbn [fold_left fst snd].
  destruct Hin as [[= -> ->]|Hin].
  - rewrite (TryGetField_object_of_others members) by done.
    apply TryGetField_SetField_same, FString_eq_refl.
  - by apply IH.
Qed.



(** C1, at the input [a=%22].  The value decodes to one double quote, which is
    embedded as it is, between the two quotes that delimit the value: the
    reader refuses the text and the parameter is not found.  At [a=%5Cn] the
    value decodes to a backslash and an [n], which the reader takes for an
    escaped line feed: the parameter is found with another value. *)
Theorem roundtrip_breaks_on_quote_and_backslash SanitizeFloat OutValue :
  Java.URLDecoder_decode "%22" = Java.Returns Java.q
  /\ Java.queryStringToJson (Some "a=%22")
     = Java.Returns (Spec.object_text [("a", Java.q)])
  /\ GetDeepLinkParameter SanitizeFloat (Spec.object_text [("a", Java.q)]) "a" OutValue
     = (false, OutValue)
  /\ Java.URLDecoder_decode "%5Cn" = Java.Returns (String Chars.backslash "n")
  /\ Java.queryStringToJson (Some "a=%5Cn")
     = Java.Returns (Spec.object_text [("a", String Chars.backslash "n")])
  /\ GetDeepLinkParameter SanitizeFloat
       (Spec.object_text [("a", String Chars.backslash "n")]) "a" OutValue
     = (true, String (ascii_of_nat 10) EmptyString).
Proof. repeat split; reflexivity. Qed.

(** C8, at the object with the one member [a] of value [abc], and the key
    [a].  The value is not a number; both functions return [true], with what
    [Atof] and [Atoi] make of the text (0 for [Atoi]).  In general the flag
    they return is the flag of [GetDeepLinkParameter]: the text of the value is
    never looked at. *)
Theorem numeric_extraction_succeeds_on_text
  (float : Type) (Atof : string -> float) SanitizeFloat (OutFloat : float) (OutInt : Z) :
  GetDeepLinkParameterAsFloat float Atof SanitizeFloat
    (Spec.object_text [("a", "abc")]) "a" OutFloat = (true, Atof "abc")
  /\ GetDeepLinkParameterAsInt SanitizeFloat
       (Spec.object_text [("a", "abc")]) "a" OutInt = (true, 0%Z)
  /\ (forall ParamsJson Key,
        fst (GetDeepLinkParameterAsFloat float Atof SanitizeFloat ParamsJson Key OutFloat)
        = fst (GetDeepLinkParameter SanitizeFloat ParamsJson Key EmptyString)
        /\ fst (GetDeepLinkParameterAsInt SanitizeFloat ParamsJson Key OutInt)
           = fst (GetDeepLinkParameter SanitizeFloat ParamsJson Key EmptyString)).
Proof.
  split; [reflexivity|]. split; [reflexivity|].
  intros ParamsJson Key.
  unfold GetDeepLinkParameterAsFloat, GetDeepLinkParameterAsInt.
  by destruct (GetDeepLinkParameter SanitizeFloat ParamsJson Key EmptyString) as [[] ?].
Qed.

(** C9, at the object with the members [x], [y], [z] of values [a], [b],
    [c]: the three keys are there and none of the values is a number, and the
    function returns [true] with the vector [Atof] makes of them.  With [z]
    missing, as in the object with [x] = 1 and [y] = 2, it returns [false] and
    leaves the vector alone.  In general it returns [true] exactly when the
    three keys are found, whatever their values. *)
Theorem vector_extraction_succeeds_on_text
  (float : Type) (Atof : string -> float) SanitizeFloat (uninitialized : float)
  (OutVector : FVector float) :
  GetDeepLinkParameterAsVector float Atof SanitizeFloat uninitialized
    (Spec.object_text [("x", "a"); ("y", "b"); ("z", "c")]) OutVector
  = (true, {| X := Atof "a"; Y := Atof "b"; Z_ := Atof "c" |})
  /\ GetDeepLinkParameterAsVector float Atof SanitizeFloat uninitialized
       (Spec.object_text [("x", "1"); ("y", "2")]) OutVector
     = (false, OutVector)
  /\ (forall ParamsJson,
        fst (GetDeepLinkParameterAsVector float Atof SanitizeFloat uninitialized
               ParamsJson OutVector)
        = fst (GetDeepLinkParameter SanitizeFloat ParamsJson "x" EmptyString)
          && fst (GetDeepLinkParameter SanitizeFloat ParamsJson "y" EmptyString)
          && fst (GetDeepLinkParameter SanitizeFloat ParamsJson "z" EmptyString)).
Proof.
  split; [reflexivity|]. split; [reflexivity|].
  intros ParamsJson.
  unfold GetDeepLinkParameterAsVector, GetDeepLinkParameterAsFloat.
  destruct (GetDeepLinkParameter SanitizeFloat ParamsJson "x" EmptyString) as [[] ?],
    (GetDeepLinkParameter SanitizeFloat ParamsJson "y" EmptyString) as [[] ?],
    (GetDeepLinkParameter SanitizeFloat ParamsJson "z" EmptyString) as [[] ?];
    reflexivity.
Qed.

End Codec.

(** ** The PostMessage channel and its retries *)

Section Retries.
Import ChromeCustomTabs.
Local Open Scope Z_scope.

Variable answer : nat -> string -> bool.

(** An attempt on a session always calls the browser once and counts once. *)
Lemma attempt_calls_once activity origin s :
  customTabsSession s = true ->
  let s' := attemptPostMessageChannelRequest answer activity origin s in
  requests s' = origin :: requests s
  /\ postMessageRetryCount s' = int_add (postMessageRetryCount s) 1
  /\ customTabsSession s' = true
  /\ messageChannelReady s' = messageChannelReady s
  /\ natives s' = natives s
  /\ (pendingRetryOrigin s' = None \/ pendingRetryOrigin s' = pendingRetryOrigin s).
Proof.
  intros Hsession. unfold attemptPostMessageChannelRequest. rewrite Hsession.
  cbn [negb]. cbv zeta.
  destruct (answer _ origin); cbn [negb];
    [|destruct (_ <? MAX_POSTMESSAGE_RETRIES)]; cbn; auto 10.
Qed.

(** A retry that finds the channel ready, or nothing pending, does nothing. *)
Lemma retry_idle r s :
  is_retry r = true ->
  messageChannelReady s = true \/ pendingRetryOrigin s = None ->
  run answer r s = s.
Proof.
  intros Hr Hidle.
  assert (retry_if_pending answer 1%positive s = s) as Hsome.
  { unfold retry_if_pending. destruct Hidle as [-> | ->]; [|done].
    by destruct (pendingRetryOrigin s). }
  destruct r; try discriminate; cbn [run]; unfold retry_if_pending in *;
    destruct (pendingRetryOrigin s); try done;
    destruct Hidle as [H|H]; try discriminate; by rewrite H.
Qed.

Lemma loop_retries_idle n : forall s,
  forallb is_retry (map snd (mainLooper s)) = true ->
  messageChannelReady s = true \/ pendingRetryOrigin s = None ->
  requests (loop answer n s) = requests s
  /\ natives (loop answer n s) = natives s
  /\ postMessageRetryCount (loop answer n s) = postMessageRetryCount s.
Proof.
  induction n as [|n IH]; intros s Hq Hidle; [done|].
  cbn [loop]. unfold dispatch.
  destruct (mainLooper s) as [|[when r] rest] eqn:Hlooper; [by apply IH; rewrite ?Hlooper|].
  cbn [map snd forallb] in Hq. apply andb_prop in Hq as [Hr Hrest].
  rewrite retry_idle by (destruct Hidle; auto).
  destruct (IH (set_uptimeMillis (Z.max (uptimeMillis (set_mainLooper rest s)) when)
                  (set_mainLooper rest s))) as (H1 & H2 & H3); [done..|].
  by rewrite H1, H2, H3.
Qed.

Lemma int_add_small a b :
  - 2 ^ 31 <= a + b < 2 ^ 31 -> int_add a b = a + b.
Proof.
  intros H. unfold int_add.
  rewrite Z.mod_small by lia. lia.
Qed.

Lemma loop_idle n : forall s, mainLooper s = [] -> loop answer n s = s.
Proof.
  induction n as [|n IH]; intros s Hs; [done|].
  cbn [loop]. unfold dispatch. rewrite Hs. by apply IH.
Qed.

Lemma loop_add n m s : loop answer (n + m) s = loop answer m (loop answer n s).
Proof. revert s. induction n as [|n IH]; intros s; [done|]. cbn. apply IH. Qed.

Lemma attempt_rejected activity origin s :
  customTabsSession s = true ->
  answer (length (requests s)) origin = false ->
  attemptPostMessageChannelRequest answer activity origin s =
    let c := int_add (postMessageRetryCount s) 1 in
    let s1 := Log (W_returned_false c)
                (set_postMessageRetryCount c (set_requests (origin :: requests s) s)) in
    if c <? MAX_POSTMESSAGE_RETRIES
    then postDelayed (Retry activity origin) RETRY_DELAY_MS (Log I_will_retry s1)
    else set_pendingRetryOrigin None (Log E_failed_after_max_attempts s1).
Proof.
  intros Hsession Hrej. unfold attemptPostMessageChannelRequest.
  rewrite Hsession, Hrej. reflexivity.
Qed.

Lemma dispatch_after_rejection activity origin k s :
  pending_at k origin s ->
  0 <= k < 4 ->
  answer (length (requests s)) origin = false ->
  dispatch answer (attemptPostMessageChannelRequest answer activity origin s)
  = attemptPostMessageChannelRequest answer activity origin (rejected_round origin s)
  /\ pending_at (k + 1) origin (rejected_round origin s).
Proof.
  intros (Hsession & Hready & Hpending & Hlooper & Hcount) Hk Hrej.
  split.
  - rewrite attempt_rejected by assumption. cbv zeta.
    rewrite Hcount, int_add_small by lia.
    replace (k + 1 <? MAX_POSTMESSAGE_RETRIES) with true
      by (symmetry; apply Z.ltb_lt; unfold MAX_POSTMESSAGE_RETRIES; lia).
    unfold dispatch, postDelayed. cbn [mainLooper set_mainLooper Log set_logcat
      set_postMessageRetryCount set_requests]. rewrite Hlooper. cbn [enqueue].
    cbn [run]. unfold retry_if_pending. cbn. rewrite Hpending, Hready. cbn [negb].
    unfold rejected_round. rewrite Hcount, int_add_small by lia. reflexivity.
  - unfold pending_at, rejected_round. cbn. rewrite Hcount, int_add_small by lia. done.
Qed.

Lemma exhaustion_from activity origin s :
  pending_at 0 origin s ->
  (forall n, (n < 5)%nat -> answer (n + length (requests s)) origin = false) ->
  let s' := loop answer 4 (attemptPostMessageChannelRequest answer activity origin s) in
  requests s' = (repeat origin 5 ++ requests s)%list
  /\ mainLooper s' = []
  /\ pendingRetryOrigin s' = None
  /\ pendingOrigin s' = pendingOrigin s
  /\ postMessageRetryCount s' = MAX_POSTMESSAGE_RETRIES
  /\ messageChannelReady s' = false
  /\ natives s' = natives s
  /\ head (logcat s') = Some E_failed_after_max_attempts
  /\ uptimeMillis s' = uptimeMillis s + 4 * RETRY_DELAY_MS.
Proof.
  intros Hs0 Hrej s'. subst s'.
  pose proof (Hrej 0%nat ltac:(lia)) as H0.
  pose proof (Hrej 1%nat ltac:(lia)) as H1.
  pose proof (Hrej 2%nat ltac:(lia)) as H2.
  pose proof (Hrej 3%nat ltac:(lia)) as H3.
  pose proof (Hrej 4%nat ltac:(lia)) as H4.
  cbn [Nat.add] in H0, H1, H2, H3, H4. clear Hrej.
  cbn [loop].
  destruct (dispatch_after_rejection activity origin 0 s Hs0 ltac:(lia) H0) as [-> Hs1].
  set (s1 := rejected_round origin s) in *.
  destruct (dispatch_after_rejection activity origin 1 s1 Hs1 ltac:(lia) H1) as [-> Hs2].
  set (s2 := rejected_round origin s1) in *.
  destruct (dispatch_after_rejection activity origin 2 s2 Hs2 ltac:(lia) H2) as [-> Hs3].
  set (s3 := rejected_round origin s2) in *.
  destruct (dispatch_after_rejection activity origin 3 s3 Hs3 ltac:(lia) H3) as [-> Hs4].
  set (s4 := rejected_round origin s3) in *.
  destruct Hs4 as (Hsession & Hready & Hpending & Hlooper & Hcount).
  rewrite attempt_rejected by assumption. cbv zeta. rewrite Hcount.
  change (int_add (3 + 1) 1 <? MAX_POSTMESSAGE_RETRIES) with false. cbv iota.
  destruct Hs0 as (_ & _ & _ & _ & Hcount0).
  cbn [requests mainLooper pendingRetryOrigin pendingOrigin postMessageRetryCount
       messageChannelReady natives logcat uptimeMillis head
       set_pendingRetryOrigin Log set_logcat set_postMessageRetryCount set_requests].
  repeat split; try reflexivity; try assumption.
  subst s4 s3 s2 s1. unfold rejected_round, RETRY_DELAY_MS.
  cbn [uptimeMillis set_uptimeMillis set_mainLooper Log set_logcat
       set_postMessageRetryCount set_requests]. lia.
Qed.


Lemma request_accepted getPackageName newSession onUiThread activity origin s :
  customTabsSession s = true ->
  Java.isEmpty origin = false ->
  requestPostMessageChannel getPackageName newSession answer onUiThread
    (Some activity) (Some origin) s
  = (true, runOnUiThread answer onUiThread (FirstAttempt activity origin) (armed origin s)).
Proof.
  intros Hsession Horigin. unfold requestPostMessageChannel, ensureSession.
  rewrite Horigin, Hsession. cbn [negb]. by rewrite Hsession.
Qed.

(** C6, as the code has it.  A request on an idle looper whose five attempts
    the browser rejects is attempted five times, one second apart, and no
    more: the looper is then empty and stays so, [pendingRetryOrigin] is
    cleared ([pendingOrigin] is kept), the failure is logged, and no native
    method has been called, so that nothing reaches the host.  After
    [onMessageChannelReady] the channel is ready, nothing is pending, the host
    is told, and the retries that are still scheduled call the browser no
    more. *)
Theorem five_rejections_exhaust_the_retries
  getPackageName newSession onUiThread activity origin s :
  customTabsSession s = true ->
  mainLooper s = [] ->
  Java.isEmpty origin = false ->
  (forall n, (n < 5)%nat -> answer (n + length (requests s)) origin = false) ->
  let call := requestPostMessageChannel getPackageName newSession answer onUiThread
                (Some activity) (Some origin) s in
  let s' := loop answer 5 (snd call) in
  fst call = true
  /\ requests s' = (repeat origin 5 ++ requests s)%list
  /\ mainLooper s' = []
  /\ (forall n, loop answer n s' = s')
  /\ pendingRetryOrigin s' = None
  /\ pendingOrigin s' = Some origin
  /\ postMessageRetryCount s' = MAX_POSTMESSAGE_RETRIES
  /\ messageChannelReady s' = false
  /\ head (logcat s') = Some E_failed_after_max_attempts
  /\ natives s' = natives s
  /\ uptimeMillis s' = uptimeMillis s + 4 * RETRY_DELAY_MS
  /\ (forall s0,
        let ready := onMessageChannelReady s0 in
        messageChannelReady ready = true
        /\ pendingRetryOrigin ready = None
        /\ natives ready = Unreal.nativeOnMessageChannelReady :: natives s0
        /\ (forall r, is_retry r = true -> run answer r ready = ready)
        /\ (forall n, forallb is_retry (map snd (mainLooper s0)) = true ->
                      requests (loop answer n ready) = requests s0)).
Proof.
  intros Hsession Hlooper Horigin Hrej call s'. subst s' call.
  rewrite request_accepted by assumption. cbn [fst snd].
  assert (Hresult : exists s0,
    loop answer 5 (runOnUiThread answer onUiThread (FirstAttempt activity origin)
                     (armed origin s))
    = loop answer 4 (attemptPostMessageChannelRequest answer activity origin s0)
    /\ pending_at 0 origin s0
    /\ requests s0 = requests s /\ pendingOrigin s0 = Some origin
    /\ natives s0 = natives s /\ uptimeMillis s0 = uptimeMillis s).
  { destruct onUiThread; cbn [runOnUiThread run].
    - exists (armed origin s). split; [|by repeat split].
      pose proof (exhaustion_from activity origin (armed origin s)) as Hex.
      change (loop answer 5 ?x) with (loop answer (4 + 1) x).
      rewrite loop_add. apply loop_idle, Hex; [by repeat split|exact Hrej].
    - exists (set_uptimeMillis (Z.max (uptimeMillis s) (uptimeMillis s + 0))
                (set_mainLooper [] (armed origin s))).
      split; [|repeat split; try done; cbn; lia].
      cbn [loop]. unfold dispatch at 5, postDelayed.
      cbn [mainLooper set_mainLooper armed set_postMessageRetryCount
           set_messageChannelReady set_pendingRetryOrigin set_pendingOrigin].
      rewrite Hlooper. reflexivity. }
  destruct Hresult as (s0 & -> & Hs0 & Hreq & Hpo & Hnat & Hup).
  rewrite <- Hreq in Hrej.
  destruct (exhaustion_from activity origin s0 Hs0 Hrej)
    as (H1 & H2 & H3 & H4 & H5 & H6 & H7 & H8 & H9).
  rewrite H1, H2, H3, H4, H5, H6, H7, H8, H9, Hreq, Hpo, Hnat, Hup.
  repeat match goal with |- _ /\ _ => split end; try reflexivity.
  - intros n. by apply loop_idle.
  - intros st.
    repeat match goal with |- _ /\ _ => split end; try reflexivity.
    + intros r Hr. apply retry_idle; auto.
    + intros n Hq.
      destruct (loop_retries_idle n (onMessageChannelReady st)) as (Hr & _);
        [exact Hq | by left | exact Hr].
Qed.

(** C7, as the code has it.  After a request for [originB] is accepted as a
    request, a retry that was scheduled for an earlier origin does nothing
    only if nothing is pending any more (the browser took the first attempt
    for [originB]); otherwise it calls the browser once, for [originB], the
    pending origin, and counts as one of its attempts.  The origin it was
    scheduled for plays no part. *)
Theorem stale_retry_acts_for_pending_origin
  getPackageName newSession onUiThread activity activity' originA originB s s1 :
  requestPostMessageChannel getPackageName newSession answer onUiThread
    (Some activity') (Some originB) s = (true, s1) ->
  let s2 := run answer (Retry activity originA) s1 in
  match pendingRetryOrigin s1 with
  | None => s2 = s1
  | Some current =>
      current = originB
      /\ requests s2 = originB :: requests s1
      /\ postMessageRetryCount s2 = int_add (postMessageRetryCount s1) 1
  end.
Proof.
  unfold requestPostMessageChannel.
  destruct (Java.isEmpty originB); [discriminate|].
  destruct (customTabsSession (ensureSession getPackageName newSession s)) eqn:Hsession;
    cbn [negb]; [|discriminate].
  intros [= <-].
  set (s0 := set_postMessageRetryCount 0 _).
  assert (Hs0 : customTabsSession s0 = true /\ messageChannelReady s0 = false
                /\ pendingRetryOrigin s0 = Some originB) by (by subst s0).
  destruct Hs0 as (Hsession0 & Hready0 & Hpending0).
  assert (Hs1 : customTabsSession (runOnUiThread answer onUiThread
                                     (FirstAttempt activity' originB) s0) = true
                /\ messageChannelReady (runOnUiThread answer onUiThread
                                          (FirstAttempt activity' originB) s0) = false
                /\ (pendingRetryOrigin (runOnUiThread answer onUiThread
                                          (FirstAttempt activity' originB) s0) = None
                    \/ pendingRetryOrigin (runOnUiThread answer onUiThread
                                             (FirstAttempt activity' originB) s0)
                       = Some originB)).
  { destruct onUiThread; cbn [runOnUiThread run].
    - destruct (attempt_calls_once activity' originB s0 Hsession0)
        as (_ & _ & Hc & Hr & _ & Hp).
      rewrite Hc, Hr, Hready0. rewrite <- Hpending0. auto.
    - cbn. auto. }
  destruct Hs1 as (Hsession1 & Hready1 & Hpending1).
  cbn [run]. unfold retry_if_pending.
  destruct Hpending1 as [-> | ->]; [reflexivity|].
  rewrite Hready1. cbn [negb].
  destruct (attempt_calls_once activity originB _ Hsession1) as (Hreq & Hcount & _).
  auto.
Qed.

End Retries.

Lemma five_rejections_exhaust_the_retries_witness :
  let s := ChromeCustomTabs.connected in
  let origin := "https://example.org" in
  ChromeCustomTabs.customTabsSession s = true
  /\ ChromeCustomTabs.mainLooper s = []
  /\ Java.isEmpty origin = false
  /\ ChromeCustomTabs.requests
       (ChromeCustomTabs.loop ChromeCustomTabs.rejecting 5
          (snd (ChromeCustomTabs.requestPostMessageChannel true true
                  ChromeCustomTabs.rejecting true (Some 1%positive) (Some origin) s)))
     = repeat origin 5.
Proof.
  cbv zeta. do 3 (split; [reflexivity|]).
  exact (proj1 (proj2 (five_rejections_exhaust_the_retries ChromeCustomTabs.rejecting
    true true true 1%positive "https://example.org" ChromeCustomTabs.connected
    eq_refl eq_refl eq_refl (fun n _ => eq_refl)))).
Defined.

(** C6 as stated fails where it has the failure reported to the host: after
    the fifth rejection the retries have stopped and nothing is pending, the
    log has the failure, and not one native method has been called. *)
Lemma exhaustion_reaches_no_observer :
  let s' :=
    ChromeCustomTabs.loop ChromeCustomTabs.rejecting 5
      (snd (ChromeCustomTabs.requestPostMessageChannel true true
              ChromeCustomTabs.rejecting true (Some 1%positive)
              (Some "https://example.org") ChromeCustomTabs.connected)) in
  ChromeCustomTabs.requests s' = repeat "https://example.org" 5
  /\ ChromeCustomTabs.mainLooper s' = []
  /\ ChromeCustomTabs.pendingRetryOrigin s' = None
  /\ head (ChromeCustomTabs.logcat s') = Some ChromeCustomTabs.E_failed_after_max_attempts
  /\ ChromeCustomTabs.natives s' = [].
Proof. repeat split. Qed.

Lemma stale_retry_acts_for_pending_origin_witness :
  let first :=
    snd (ChromeCustomTabs.requestPostMessageChannel true true
           ChromeCustomTabs.rejecting true (Some 1%positive)
           (Some "https://a.example") ChromeCustomTabs.connected) in
  let second :=
    ChromeCustomTabs.requestPostMessageChannel true true
      ChromeCustomTabs.rejecting true (Some 1%positive)
      (Some "https://b.example") first in
  fst second = true
  /\ ChromeCustomTabs.requests
       (ChromeCustomTabs.run ChromeCustomTabs.rejecting
          (ChromeCustomTabs.Retry 1%positive "https://a.example") (snd second))
     = "https://b.example" :: ChromeCustomTabs.requests (snd second).
Proof.
  cbv zeta. split; [reflexivity|].
  set (first := snd (ChromeCustomTabs.requestPostMessageChannel true true
    ChromeCustomTabs.rejecting true (Some 1%positive) (Some "https://a.example")
    ChromeCustomTabs.connected)).
  set (second := ChromeCustomTabs.requestPostMessageChannel true true
    ChromeCustomTabs.rejecting true (Some 1%positive) (Some "https://b.example") first).
  assert (Hcall : second = (true, snd second)) by (vm_compute; reflexivity).
  pose proof (stale_retry_acts_for_pending_origin ChromeCustomTabs.rejecting
    true true true 1%positive 1%positive "https://a.example" "https://b.example"
    first (snd second) Hcall) as H.
  vm_compute in H. vm_compute. exact (proj1 (proj2 H)).
Defined.

(** C7 as stated fails.  A request for origin a is rejected once and its retry
    is scheduled; a request for origin b follows and is rejected once.  The
    looper then runs the retry scheduled for a: the browser is called a second
    time for b, and the count of attempts of b goes from 1 to 2. *)
Lemma stale_retry_is_not_a_noop :
  let first :=
    snd (ChromeCustomTabs.requestPostMessageChannel true true
           ChromeCustomTabs.rejecting true (Some 1%positive)
           (Some "https://a.example") ChromeCustomTabs.connected) in
  let second :=
    snd (ChromeCustomTabs.requestPostMessageChannel true true
           ChromeCustomTabs.rejecting true (Some 1%positive)
           (Some "https://b.example") first) in
  let fired := ChromeCustomTabs.dispatch ChromeCustomTabs.rejecting second in
  head (ChromeCustomTabs.mainLooper second)
  = Some (1000%Z, ChromeCustomTabs.Retry 1%positive "https://a.example")
  /\ ChromeCustomTabs.requests second = ["https://b.example"; "https://a.example"]
  /\ ChromeCustomTabs.postMessageRetryCount second = 1%Z
  /\ ChromeCustomTabs.requests fired
     = ["https://b.example"; "https://b.example"; "https://a.example"]
  /\ ChromeCustomTabs.postMessageRetryCount fired = 2%Z.
Proof. repeat split. Qed.

(** ** Opening, closing and what reaches the object *)

Section Lifecycle.
Import Engine Unreal.

Implicit Types (w : World) (this p : addr) (o : UCPP_ABCT_Base).

Lemma OnCustomTabOpened_this android this URL w o :
  objects w !! this = Some o ->
  objects (OnCustomTabOpened android this URL w) !! this
  = Some (set_CurrentURL URL (set_bIsCustomTabOpen true o)).
Proof.
  intros Ho. unfold OnCustomTabOpened.
  destruct android; cbn [RegisterActiveInstance with_ActiveInstance objects];
    by rewrite !lookup_assign_eq, Ho.
Qed.

Lemma OnCustomTabOpened_others android this p URL w :
  this <> p -> objects (OnCustomTabOpened android this URL w) !! p = objects w !! p.
Proof.
  intros Hne. unfold OnCustomTabOpened.
  destruct android; cbn [RegisterActiveInstance with_ActiveInstance objects];
    by rewrite !lookup_assign_ne.
Qed.

Lemma OnCustomTabClosed_others android this p w :
  this <> p -> objects (OnCustomTabClosed android this w) !! p = objects w !! p.
Proof.
  intros Hne. unfold OnCustomTabClosed.
  destruct android; cbn [UnregisterActiveInstance with_ActiveInstance objects];
    by rewrite !lookup_assign_ne.
Qed.

Lemma GameThreadTask_unregistered c w :
  GetActiveInstance w = None -> GameThreadTask c w = w.
Proof. intros H. unfold GameThreadTask. by rewrite H. Qed.

Lemma GameThreadTasks_unregistered calls w :
  GetActiveInstance w = None -> GameThreadTasks calls w = w.
Proof.
  intros H. unfold GameThreadTasks.
  induction calls as [|c calls IH]; [done|].
  cbn [fold_left]. by rewrite GameThreadTask_unregistered.
Qed.

(** What [OpenChromeCustomTab] returns and does, by whether [openTab] was
    invoked and what it returned. *)
Lemma OpenChromeCustomTab_cases {J} android
  (call : string -> string -> string -> string -> J -> bool * J) jni this URL Color w j :
  let invoked :=
    negb (IsEmpty URL) && android && GetJavaEnv jni && FindJavaClass jni
    && GetStaticMethodID jni in
  let answer :=
    call URL Color (member this CustomUserAgent EmptyString w)
      (member this CustomHeader EmptyString w) j in
  OpenChromeCustomTab android call jni this URL Color w j
  = if invoked then
      (fst answer, if fst answer then OnCustomTabOpened android this URL w else w,
       snd answer)
    else (false, w, j).
Proof.
  cbv zeta. unfold OpenChromeCustomTab.
  destruct (IsEmpty URL), android, (GetJavaEnv jni), (FindJavaClass jni),
    (GetStaticMethodID jni); cbn [negb andb]; try reflexivity.
  by destruct (call _ _ _ _ _) as [[] j'].
Qed.

Lemma OpenChromeCustomTab_true {J} android
  (call : string -> string -> string -> string -> J -> bool * J) jni this URL Color w j w' j' :
  OpenChromeCustomTab android call jni this URL Color w j = (true, w', j') ->
  android = true /\ GetJavaEnv jni = true /\ FindJavaClass jni = true
  /\ GetStaticMethodID jni = true
  /\ w' = OnCustomTabOpened android this URL w.
Proof.
  rewrite OpenChromeCustomTab_cases. cbv zeta.
  destruct (IsEmpty URL), android, (GetJavaEnv jni), (FindJavaClass jni),
    (GetStaticMethodID jni); cbn [negb andb]; try discriminate.
  destruct (call _ _ _ _ _) as [[] j'']; cbn [fst snd]; [|discriminate].
  intros [= <- _]. done.
Qed.

(** X4.  [OpenChromeCustomTab] returns [true] exactly when [openTab] was
    invoked (the URL is not empty, the platform is Android and the three JNI
    lookups succeed) and returned [true]; the object is then open with the URL
    it was given and is the active instance.  When it returns [false] nothing
    changes in the world: a session that was open stays open, with its URL and
    the registration as they were.  [openTab] is not invoked for an empty URL. *)
Theorem OpenChromeCustomTab_opens_iff_Java_accepts {J} android
  (call : string -> string -> string -> string -> J -> bool * J) jni this URL Color w j o :
  objects w !! this = Some o ->
  let invoked :=
    negb (IsEmpty URL) && android && GetJavaEnv jni && FindJavaClass jni
    && GetStaticMethodID jni in
  let answer :=
    call URL Color (CustomUserAgent o) (CustomHeader o) j in
  let '(result, w', j') := OpenChromeCustomTab android call jni this URL Color w j in
  result = invoked && fst answer
  /\ j' = (if invoked then snd answer else j)
  /\ (result = true ->
      IsChromeCustomTabOpen this w' = true
      /\ GetCurrentURL this w' = URL
      /\ GetActiveInstance w' = Some this
      /\ outgoing w' = outgoing w
      /\ forall p, p <> this -> objects w' !! p = objects w !! p)
  /\ (result = false -> w' = w).
Proof.
  intros Ho. cbv zeta. rewrite OpenChromeCustomTab_cases. cbv zeta.
  rewrite !(member_live _ _ _ _ _ Ho).
  destruct (negb (IsEmpty URL) && android && GetJavaEnv jni && FindJavaClass jni
            && GetStaticMethodID jni) eqn:Hinvoked; cbn [andb].
  - destruct (call URL Color (CustomUserAgent o) (CustomHeader o) j) as [[] j'];
      cbn [fst snd]; (split; [done|]); (split; [done|]); (split; [|done]);
      [|discriminate].
    intros _. apply andb_prop in Hinvoked as [Hinvoked _].
    apply andb_prop in Hinvoked as [Hinvoked _].
    apply andb_prop in Hinvoked as [Hinvoked _].
    apply andb_prop in Hinvoked as [_ ->].
    pose proof (OnCustomTabOpened_this true this URL w o Ho) as Hthis.
    split; [|split; [|split; [|split]]].
    + unfold IsChromeCustomTabOpen. by rewrite (member_live _ _ _ _ _ Hthis).
    + unfold GetCurrentURL. by rewrite (member_live _ _ _ _ _ Hthis).
    + unfold GetActiveInstance. cbn [OnCustomTabOpened RegisterActiveInstance
        with_ActiveInstance ActiveInstance].
      rewrite decide_True; [done|].
      change (is_Some (objects (OnCustomTabOpened true this URL w) !! this)).
      rewrite Hthis. by eexists.
    + reflexivity.
    + intros p Hp. by apply OnCustomTabOpened_others.
  - done.
Qed.

Lemma OpenChromeCustomTab_opens_iff_Java_accepts_witness :
  let '(result, w', j') :=
    OpenChromeCustomTab true (fun _ _ _ _ (j : nat) => (true, S j))
      {| GetJavaEnv := true; FindJavaClass := true; GetStaticMethodID := true |}
      1%positive "https://example.org" "#4285F4" fresh_world 0%nat in
  result = true /\ j' = 1%nat /\ GetActiveInstance w' = Some 1%positive.
Proof.
  pose proof (OpenChromeCustomTab_opens_iff_Java_accepts true
    (fun _ _ _ _ (j : nat) => (true, S j))
    {| GetJavaEnv := true; FindJavaClass := true; GetStaticMethodID := true |}
    1%positive "https://example.org" "#4285F4" fresh_world 0%nat constructed
    eq_refl) as H.
  cbv zeta in H.
  destruct (OpenChromeCustomTab _ _ _ _ _ _ _ _) as [[result w'] j'].
  destruct H as (Hresult & Hj & Htrue & _).
  split; [exact Hresult|]. split; [exact Hj|].
  exact (proj1 (proj2 (proj2 (Htrue Hresult)))).
Defined.

(** X5.  While no live object is registered, the game-thread task of every
    native call does nothing: no member is written and no Blueprint event is
    raised, whatever Java reports.  This is the case after a completed
    [CloseChromeCustomTab], whichever object closed and whichever object was
    registered, and it lasts over any sequence of native calls; deep links
    that arrive then are dropped. *)
Theorem nothing_is_delivered_without_an_active_instance jni this w calls :
  GetJavaEnv jni = true -> FindJavaClass jni = true -> GetStaticMethodID jni = true ->
  (GetActiveInstance w = None -> GameThreadTasks calls w = w)
  /\ GameThreadTasks calls (CloseChromeCustomTab true jni this w)
     = CloseChromeCustomTab true jni this w.
Proof.
  intros Henv Hclass Hmethod. split.
  - apply GameThreadTasks_unregistered.
  - apply GameThreadTasks_unregistered.
    unfold CloseChromeCustomTab. by rewrite Henv, Hclass, Hmethod.
Qed.

Lemma nothing_is_delivered_without_an_active_instance_witness :
  GameThreadTasks [nativeOnDeepLinkReceived "teleport" "{}"]
    (CloseChromeCustomTab true
       {| GetJavaEnv := true; FindJavaClass := true; GetStaticMethodID := true |}
       1%positive open_world)
  = CloseChromeCustomTab true
      {| GetJavaEnv := true; FindJavaClass := true; GetStaticMethodID := true |}
      1%positive open_world.
Proof.
  exact (proj2 (nothing_is_delivered_without_an_active_instance
    {| GetJavaEnv := true; FindJavaClass := true; GetStaticMethodID := true |}
    1%positive open_world [nativeOnDeepLinkReceived "teleport" "{}"]
    eq_refl eq_refl eq_refl)).
Defined.

(** X6.  One registration serves all objects.  When [B] opens a tab while the
    tab of [A] is open, [B] becomes the active instance and [A] stays open.
    When [A] is then closed, the registration of [B] goes with it: [B] is
    still open, with its URL, but no native call reaches it any more. *)
Theorem closing_one_object_unregisters_the_other {J}
  (call : string -> string -> string -> string -> J -> bool * J)
  jni A B urlA urlB colorA colorB w w1 w2 j j1 j2 oA oB calls :
  A <> B ->
  objects w !! A = Some oA ->
  objects w !! B = Some oB ->
  GetStaticMethodID jni = true ->
  OpenChromeCustomTab true call jni A urlA colorA w j = (true, w1, j1) ->
  OpenChromeCustomTab true call jni B urlB colorB w1 j1 = (true, w2, j2) ->
  let w3 := CloseChromeCustomTab true jni A w2 in
  (IsChromeCustomTabOpen A w2 = true /\ IsChromeCustomTabOpen B w2 = true
   /\ GetActiveInstance w2 = Some B)
  /\ IsChromeCustomTabOpen A w3 = false
  /\ IsChromeCustomTabOpen B w3 = true
  /\ GetCurrentURL B w3 = urlB
  /\ GetActiveInstance w3 = None
  /\ GameThreadTasks calls w3 = w3.
Proof.
  intros Hne HA HB Hmethod Hopen1 Hopen2 w3.
  apply OpenChromeCustomTab_true in Hopen1 as (_ & Henv & Hclass & _ & Hw1).
  apply OpenChromeCustomTab_true in Hopen2 as (_ & _ & _ & _ & Hw2).
  assert (HA1 : objects w1 !! A = Some (set_CurrentURL urlA (set_bIsCustomTabOpen true oA)))
    by (subst w1; by apply OnCustomTabOpened_this).
  assert (HB1 : objects w1 !! B = Some oB)
    by (subst w1; by rewrite OnCustomTabOpened_others).
  assert (HA2 : objects w2 !! A = Some (set_CurrentURL urlA (set_bIsCustomTabOpen true oA))).
  { subst w2. rewrite OnCustomTabOpened_others by done. exact HA1. }
  assert (HB2 : objects w2 !! B = Some (set_CurrentURL urlB (set_bIsCustomTabOpen true oB)))
    by (subst w2; by apply OnCustomTabOpened_this).
  assert (Hactive2 : ActiveInstance w2 = Some B) by (by subst w2).
  assert (Hw3 : w3 = OnCustomTabClosed true A (emit CallStaticVoidMethod_closeTab w2)).
  { subst w3. unfold CloseChromeCustomTab. by rewrite Henv, Hclass, Hmethod. }
  assert (HB3 : objects w3 !! B = Some (set_CurrentURL urlB (set_bIsCustomTabOpen true oB))).
  { rewrite Hw3, OnCustomTabClosed_others by done. exact HB2. }
  assert (Hnone : GetActiveInstance w3 = None) by (by rewrite Hw3).
  split; [split; [|split]|split; [|split; [|split; [|split]]]].
  - unfold IsChromeCustomTabOpen. by rewrite (member_live _ _ _ _ _ HA2).
  - unfold IsChromeCustomTabOpen. by rewrite (member_live _ _ _ _ _ HB2).
  - unfold GetActiveInstance. rewrite Hactive2, HB2. rewrite decide_True; [done|]. by eexists.
  - rewrite Hw3. unfold IsChromeCustomTabOpen, member, OnCustomTabClosed.
    cbn [UnregisterActiveInstance with_ActiveInstance objects].
    rewrite !lookup_assign_eq. cbn [emit objects]. by rewrite HA2.
  - unfold IsChromeCustomTabOpen. by rewrite (member_live _ _ _ _ _ HB3).
  - unfold GetCurrentURL. by rewrite (member_live _ _ _ _ _ HB3).
  - exact Hnone.
  - by apply GameThreadTasks_unregistered.
Qed.

End Lifecycle.

(** ** A deep link, from the intent to the parameter *)

Section DeepLinks.
Import Engine Unreal ChromeCustomTabs Bridge.

Lemma object_of_app before after o :
  Spec.object_of (before ++ after) o = Spec.object_of after (Spec.object_of before o).
Proof. unfold Spec.object_of. apply fold_left_app. Qed.

(** Reading a member back from the literal of plain members whose keys
    differ. *)
Lemma GetDeepLinkParameter_of_members SanitizeFloat members k v OutValue :
  Forall (fun kv => Spec.plain (fst kv) = true /\ Spec.plain (snd kv) = true) members ->
  Spec.distinct_keys members ->
  In (k, v) members ->
  IsEmpty k = false ->
  GetDeepLinkParameter SanitizeFloat (Spec.object_text members) k OutValue = (true, v).
Proof.
  intros Hplain Hdistinct Hin Hk. unfold GetDeepLinkParameter.
  destruct members as [|kv members]; [done|].
  rewrite Hk, Deserialize_written by done.
  change (IsEmpty (Spec.object_text (kv :: members))) with false. cbn [orb].
  unfold HasField, GetStringField.
  by rewrite (TryGetField_object_of _ _ _ _ Hdistinct Hin).
Qed.

(** Reading a key back from the literal of plain members: the last member
    whose key is the key asked for, case ignored, gives the value. *)
Lemma GetDeepLinkParameter_last_member SanitizeFloat before k' v after k OutValue :
  Forall (fun kv => Spec.plain (fst kv) = true /\ Spec.plain (snd kv) = true)
         (before ++ (k', v) :: after) ->
  FString_eq k' k = true ->
  Forall (fun kv => FString_eq (fst kv) k = false) after ->
  IsEmpty k = false ->
  GetDeepLinkParameter SanitizeFloat (Spec.object_text (before ++ (k', v) :: after)) k OutValue
  = (true, v).
Proof.
  intros Hplain Hsame Hafter Hk. unfold GetDeepLinkParameter.
  assert (Hcons : exists kv members, (before ++ (k', v) :: after)%list = kv :: members)
    by (destruct before; cbn; eauto).
  destruct Hcons as (kv & members & Hcons).
  rewrite Hk. rewrite Hcons in Hplain |- *. rewrite Deserialize_written by done.
  change (IsEmpty (Spec.object_text (kv :: members))) with false. cbn [orb].
  rewrite <- Hcons.
  assert (Hfield : TryGetField (Spec.object_of (before ++ (k', v) :: after) []) k
                   = Some (JsonString v)).
  { rewrite object_of_app. unfold Spec.object_of at 1. cbn [fold_left fst snd].
    fold (Spec.object_of after (SetField (Spec.object_of before []) k' (JsonString v))).
    rewrite TryGetField_object_of_others by done.
    by apply TryGetField_SetField_same. }
  unfold HasField, GetStringField. by rewrite Hfield.
Qed.





(** The decoder copies a text that has no [%] and no [+]. *)
Lemma URLDecoder_decode_unescaped s :
  free_of is_escape s = true -> Java.URLDecoder_decode s = Java.Returns s.
Proof.
  induction s as [|c s IH]; [done|]. cbn [free_of Java.URLDecoder_decode].
  intros [Hc Hs]%andb_prop. apply negb_true_iff, orb_false_iff in Hc as [Hpercent Hplus].
  by rewrite Hplus, Hpercent, IH.
Qed.

(** The decoder throws at the first [%] that two hexadecimal digits do not
    follow. *)
Lemma URLDecoder_decode_throws before after :
  free_of is_percent before = true ->
  two_hex_digits after = false ->
  Java.URLDecoder_decode (before ++ String "%" after)
  = Java.Throws Java.IllegalArgumentException.
Proof.
  intros Hbefore Hafter. induction before as [|c before IH].
  - rewrite append_cons || change (EmptyString ++ ?x) with x.
    cbn [Java.URLDecoder_decode]. cbn.
    destruct after as [|h [|l after]]; try reflexivity.
    cbn [two_hex_digits] in Hafter.
    by destruct (Chars.hex_value h), (Chars.hex_value l).
  - cbn [free_of] in Hbefore. apply andb_prop in Hbefore as [Hc Hbefore].
    apply negb_true_iff in Hc. unfold is_percent in Hc.
    rewrite append_cons. cbn [Java.URLDecoder_decode]. rewrite Hc, IH by done.
    by destruct (Ascii.eqb c "+").
Qed.

Lemma queryStringToJson_loop_throws entries : forall i json,
  Exists (fun e => exists k v, Java.cut_at "=" e = Some (k, v)
                   /\ Java.URLDecoder_decode v = Java.Throws Java.IllegalArgumentException)
         entries ->
  Java.queryStringToJson_loop i entries json = Java.Throws Java.IllegalArgumentException.
Proof.
  induction entries as [|e entries IH]; intros i json Hbad.
  - by apply Exists_nil in Hbad.
  - cbn [Java.queryStringToJson_loop]. rewrite split2_cut_at.
    apply Exists_cons in Hbad as [(k & v & Hcut & Hthrows)|Hbad].
    + by rewrite Hcut, Hthrows.
    + destruct (Java.cut_at "=" e) as [[k v]|]; [|by apply IH].
      destruct (Java.URLDecoder_decode v) as [d|[]]; [|done].
      cbn [Java.bind]. by apply IH.
Qed.





End DeepLinks.

(** ** The registered instance is an open one *)

Section Registry.
Import Engine Unreal.

Implicit Types (w : World) (this p : addr) (o : UCPP_ABCT_Base).

Lemma GetActiveInstance_intro w p :
  ActiveInstance w = Some p -> is_Some (objects w !! p) -> GetActiveInstance w = Some p.
Proof. intros Hp Hlive. unfold GetActiveInstance. by rewrite Hp, decide_True. Qed.

Lemma HandleNavigationEvent_live this p Event URL w :
  is_Some (objects (HandleNavigationEvent true this Event URL w) !! p)
  <-> is_Some (objects w !! p).
Proof.
  destruct (decide (this = p)) as [->|Hne].
  - destruct (objects w !! p) as [o|] eqn:Ho.
    + rewrite (HandleNavigationEvent_this _ _ _ _ _ _ Ho). split; by eexists.
    + assert (Hgone : objects (HandleNavigationEvent true p Event URL w) !! p = None).
      { unfold HandleNavigationEvent, OnCustomTabClosed, OnCustomTabOpened.
        repeat match goal with
               | |- context [if ?b then _ else _] => destruct b
               end;
          cbn [emit UnregisterActiveInstance RegisterActiveInstance
               with_ActiveInstance objects];
          by rewrite !lookup_assign_eq, Ho. }
      by rewrite Hgone.
  - by rewrite HandleNavigationEvent_others.
Qed.

Lemma navigation_step_flag Event URL o :
  FString_eq Event "TabClosed" = false ->
  bIsCustomTabOpen (navigation_step Event URL o)
  = bIsCustomTabOpen o || FString_eq Event "NavigationStarted".
Proof.
  intros HEvent. unfold navigation_step. rewrite HEvent.
  destruct o as [[] ? ? ? ? ? ? ? ? ? ?]; cbn;
    destruct (IsEmpty URL), (FString_eq Event "NavigationStarted"); reflexivity.
Qed.

(** Whom [HandleNavigationEvent] leaves registered. *)
Lemma HandleNavigationEvent_active this Event URL w :
  ActiveInstance (HandleNavigationEvent true this Event URL w)
  = if FString_eq Event "TabClosed" then None
    else if FString_eq Event "NavigationStarted"
            && Bool.eqb (IsChromeCustomTabOpen this w) false
    then Some this
    else ActiveInstance w.
Proof.
  unfold HandleNavigationEvent. cbv zeta.
  assert (Hflag : forall w0,
    IsChromeCustomTabOpen this w0 = IsChromeCustomTabOpen this w ->
    IsChromeCustomTabOpen this
      (if negb (IsEmpty URL) then assign this (set_CurrentURL URL) w0 else w0)
    = IsChromeCustomTabOpen this w).
  { intros w0 Hw0. destruct (negb (IsEmpty URL)); [|done].
    unfold IsChromeCustomTabOpen in *. by rewrite member_assign. }
  rewrite Hflag by (unfold IsChromeCustomTabOpen; by rewrite member_assign).
  destruct (FString_eq Event "TabClosed"); [by destruct (negb (IsEmpty URL))|].
  destruct (FString_eq Event "NavigationStarted" && _);
    by destruct (negb (IsEmpty URL)).
Qed.

Lemma HandleNavigationEvent_keeps_invariant this Event URL w :
  active_is_open w -> active_is_open (HandleNavigationEvent true this Event URL w).
Proof.
  intros Hw p Hp. apply GetActiveInstance_Some in Hp as [Hp Hlive].
  rewrite HandleNavigationEvent_active in Hp.
  destruct (FString_eq Event "TabClosed") eqn:Hclosed; [discriminate|].
  pose proof Hlive as Hlive0. apply HandleNavigationEvent_live in Hlive0.
  destruct (FString_eq Event "NavigationStarted"
            && Bool.eqb (IsChromeCustomTabOpen this w) false) eqn:Hstarted.
  - injection Hp as <-. destruct Hlive0 as [o Ho].
    rewrite (HandleNavigationEvent_open _ _ _ _ _ _ Ho), navigation_step_flag by done.
    apply andb_prop in Hstarted as [-> _]. apply orb_true_r.
  - pose proof (Hw p (GetActiveInstance_intro _ _ Hp Hlive0)) as Hopen.
    destruct (decide (this = p)) as [->|Hne].
    + destruct (open_is_live _ _ Hopen) as (o & Ho & Hb).
      rewrite (HandleNavigationEvent_open _ _ _ _ _ _ Ho).
      by rewrite navigation_step_stays_open, Hclosed.
    + unfold IsChromeCustomTabOpen, member in *.
      by rewrite HandleNavigationEvent_others.
Qed.

Lemma HandleDeepLink_keeps_invariant this Action ParamsJson w :
  active_is_open w -> active_is_open (HandleDeepLink this Action ParamsJson w).
Proof.
  intros Hw p Hp. rewrite HandleDeepLink_open. apply Hw.
  apply GetActiveInstance_Some in Hp as [Hp Hlive].
  apply GetActiveInstance_intro; [exact Hp|].
  unfold HandleDeepLink in Hlive. cbn [emit objects] in Hlive.
  destruct (decide (this = p)) as [->|Hne].
  - rewrite lookup_assign_eq in Hlive. destruct (objects w !! p); [by eexists|].
    by destruct Hlive.
  - by rewrite lookup_assign_ne in Hlive.
Qed.

Lemma OnCustomTabOpened_keeps_invariant this URL w :
  active_is_open (OnCustomTabOpened true this URL w).
Proof.
  intros p Hp. apply GetActiveInstance_Some in Hp as [Hp Hlive].
  injection Hp as <-.
  destruct (objects w !! this) as [o|] eqn:Ho.
  - pose proof (OnCustomTabOpened_this true this URL w o Ho) as Hthis.
    unfold IsChromeCustomTabOpen. by rewrite (member_live _ _ _ _ _ Hthis).
  - unfold OnCustomTabOpened in Hlive.
    cbn [RegisterActiveInstance with_ActiveInstance objects] in Hlive.
    rewrite !lookup_assign_eq, Ho in Hlive. by destruct Hlive.
Qed.

(** X17.  On Android the registered instance is always an object whose tab is
    open.  Every operation keeps it so: [OpenChromeCustomTab] and
    [CloseChromeCustomTab] whatever their outcome, [HandleNavigationEvent]
    and [HandleDeepLink] on any object with any arguments, and the task of
    every native call.  Hence the branch of [HandleNavigationEvent] that
    opens a closed session on [NavigationStarted] is never taken for an event
    that comes from Java: the task of a native call other than
    [nativeOnTabClosed] leaves the open flag of every object as it was. *)
Theorem the_active_instance_is_open {J} w :
  active_is_open w ->
  (forall (call : string -> string -> string -> string -> J -> bool * J)
          jni this URL Color j,
      active_is_open (snd (fst (OpenChromeCustomTab true call jni this URL Color w j))))
  /\ (forall jni this, active_is_open (CloseChromeCustomTab true jni this w))
  /\ (forall this Event URL, active_is_open (HandleNavigationEvent true this Event URL w))
  /\ (forall this Action ParamsJson,
        active_is_open (HandleDeepLink this Action ParamsJson w))
  /\ (forall c, active_is_open (GameThreadTask c w))
  /\ (forall c p,
        c <> nativeOnTabClosed ->
        IsChromeCustomTabOpen p (GameThreadTask c w) = IsChromeCustomTabOpen p w).
Proof.
  intros Hw.
  assert (Htask : forall c, active_is_open (GameThreadTask c w)).
  { intros c. unfold GameThreadTask.
    destruct (GetActiveInstance w) as [i|]; [|done].
    destruct c; cbn [navigation_event];
      first [ by apply HandleNavigationEvent_keeps_invariant
            | by apply HandleDeepLink_keeps_invariant
            | done ]. }
  split; [|split; [|split; [|split; [|split]]]].
  - intros call jni this URL Color j. rewrite OpenChromeCustomTab_cases. cbv zeta.
    destruct (_ && _); [|done]. cbn [fst snd].
    destruct (fst _); [apply OnCustomTabOpened_keeps_invariant|done].
  - intros jni this. unfold CloseChromeCustomTab.
    by destruct (GetJavaEnv jni), (FindJavaClass jni), (GetStaticMethodID jni).
  - intros. by apply HandleNavigationEvent_keeps_invariant.
  - intros. by apply HandleDeepLink_keeps_invariant.
  - exact Htask.
  - intros c p Hc. unfold GameThreadTask.
    destruct (GetActiveInstance w) as [i|] eqn:Hactive; [|done].
    pose proof (Hw i Hactive) as Hopen.
    destruct (open_is_live _ _ Hopen) as (o & Ho & Hb).
    assert (Hnav : forall Event URL,
      FString_eq Event "TabClosed" = false ->
      IsChromeCustomTabOpen p (HandleNavigationEvent true i Event URL w)
      = IsChromeCustomTabOpen p w).
    { intros Event URL HEvent. destruct (decide (i = p)) as [<-|Hne].
      - rewrite (HandleNavigationEvent_open _ _ _ _ _ _ Ho).
        by rewrite navigation_step_stays_open, HEvent, Hopen.
      - unfold IsChromeCustomTabOpen, member.
        by rewrite HandleNavigationEvent_others. }
    destruct c; try done; cbn [navigation_event];
      try (apply Hnav; first [apply EventName_not_TabClosed | reflexivity]).
    apply HandleDeepLink_open.
Qed.

Lemma the_active_instance_is_open_witness :
  active_is_open
    (GameThreadTask (nativeOnNavigationEvent 1 "https://example.org") open_world).
Proof.
  assert (Hw : active_is_open open_world).
  { intros p Hp. apply GetActiveInstance_Some in Hp as [Hp _].
    injection Hp as <-. vm_compute. reflexivity. }
  exact (proj1 (proj2 (proj2 (proj2 (proj2
    (the_active_instance_is_open (J := unit) open_world Hw)))))
    (nativeOnNavigationEvent 1 "https://example.org")).
Defined.

End Registry.

(** ** The Java class over any sequence of occurrences *)

Section Channel.
Import Engine Unreal ChromeCustomTabs Bridge.
Local Open Scope Z_scope.

Variable getPackageName : bool.
Variable newSession : bool.
Variable answer : nat -> string -> bool.

Abbreviation occur := (occur getPackageName newSession answer).
Abbreviation occurrences := (occurrences getPackageName newSession answer).
Abbreviation request := (requestPostMessageChannel getPackageName newSession answer).
Abbreviation attempt := (attemptPostMessageChannelRequest answer).

Ltac break_state :=
  repeat match goal with
         | |- context [match ?x with _ => _ end] => destruct x eqn:?
         end.

Lemma occurrences_cons o l s : occurrences (o :: l) s = occurrences l (occur o s).
Proof. reflexivity. Qed.

Lemma occurrences_app l1 l2 s : occurrences (l1 ++ l2) s = occurrences l2 (occurrences l1 s).
Proof. apply fold_left_app. Qed.

(** *** Who writes [messageChannelReady] *)

Lemma attempt_ready activity origin s :
  messageChannelReady (attempt activity origin s) = messageChannelReady s.
Proof. unfold attemptPostMessageChannelRequest. cbv zeta. by break_state. Qed.

Lemma run_ready r s : messageChannelReady (run answer r s) = messageChannelReady s.
Proof.
  destruct r; cbn [run]; unfold retry_if_pending; break_state;
    by rewrite ?attempt_ready.
Qed.

Lemma ensureSession_ready s :
  messageChannelReady (ensureSession getPackageName newSession s) = messageChannelReady s.
Proof. unfold ensureSession, bindCustomTabs. by break_state. Qed.

Lemma request_ready onUiThread activity origin s :
  messageChannelReady s = false ->
  messageChannelReady (snd (request onUiThread activity origin s)) = false.
Proof.
  intros Hs. unfold requestPostMessageChannel, runOnUiThread.
  destruct activity, origin; cbn [snd]; try done.
  destruct (Java.isEmpty _); cbn [snd]; [done|].
  destruct (negb _); cbn [snd]; [by rewrite <- Hs, <- (ensureSession_ready s)|].
  destruct onUiThread; cbv iota; [by rewrite run_ready|done].
Qed.

Lemma request_true_ready onUiThread activity origin s s' :
  request onUiThread activity origin s = (true, s') -> messageChannelReady s' = false.
Proof.
  unfold requestPostMessageChannel, runOnUiThread.
  destruct activity, origin; try discriminate.
  destruct (Java.isEmpty _); [discriminate|].
  destruct (negb _); [discriminate|].
  intros [= <-]. destruct onUiThread; cbv iota; [by rewrite attempt_ready|done].
Qed.

Lemma onNavigationEvent_ready e s :
  messageChannelReady (onNavigationEvent e s) = messageChannelReady s.
Proof. unfold onNavigationEvent. cbv zeta. by break_state. Qed.

Lemma handleDeepLink_state intent s :
  match handleDeepLink intent s with
  | Java.Returns (_, s') =>
      s' = s \/ exists Action ParamsJson,
                 s' = native (nativeOnDeepLinkReceived Action ParamsJson) s
  | Java.Throws _ => True
  end.
Proof.
  unfold handleDeepLink. destruct intent as [[[[[scheme|] host query]|]]|];
    cbn [getData getScheme getHost getQuery]; auto.
  destruct (Java.queryStringToJson query); cbn [Java.bind]; eauto.
Qed.

Lemma occur_ready o s :
  is_MessageChannelReady o = false ->
  messageChannelReady s = false ->
  messageChannelReady (occur o s) = false.
Proof.
  intros Ho Hs. destruct o; try discriminate; cbn [ChromeCustomTabs.occur].
  - by rewrite onNavigationEvent_ready.
  - done.
  - done.
  - done.
  - pose proof (handleDeepLink_state intent s) as H.
    destruct (handleDeepLink intent s) as [[b s']|]; [|done].
    by destruct H as [->|(? & ? & ->)].
  - by apply request_ready.
  - done.
  - unfold dispatch. destruct (mainLooper s) as [|[when r] rest]; [done|].
    by rewrite run_ready.
  - unfold setActivity, bindCustomTabs. destruct activity; [|done]. by break_state.
  - done.
Qed.

Lemma occurrences_ready l : forall s,
  forallb (fun o => negb (is_MessageChannelReady o)) l = true ->
  messageChannelReady s = false ->
  messageChannelReady (occurrences l s) = false.
Proof.
  induction l as [|o l IH]; intros s Hl Hs; [done|].
  cbn [forallb] in Hl. apply andb_prop in Hl as [Ho Hl].
  apply negb_true_iff in Ho.
  rewrite occurrences_cons. apply IH; [done|].
  by apply occur_ready.
Qed.

(** X11.  [executeJava] hands a message to the session only between
    [onMessageChannelReady] and the next request.  A call of
    [requestPostMessageChannel] that returns [true] withdraws the readiness,
    also that of a channel that was ready: from then on, whatever else
    happens (attempts, retries, navigation events, messages, deep links, the
    service connecting or disconnecting, the activity being set or
    destroyed), [executeJava] returns [false] and
    posts nothing, until [onMessageChannelReady] is called.  Right after that
    callback, with a session, the message is posted and the result is whether
    [postMessage] returned [RESULT_SUCCESS]. *)
Theorem executeJava_waits_for_the_channel
  (session_postMessage : string -> Z) onUiThread activity origin s s' l message :
  request onUiThread activity origin s = (true, s') ->
  forallb (fun o => negb (is_MessageChannelReady o)) l = true ->
  executeJava session_postMessage message (occurrences l s') = (false, None)
  /\ (customTabsSession (occurrences l s') = true ->
      executeJava session_postMessage message (onMessageChannelReady (occurrences l s'))
      = (session_postMessage message =? RESULT_SUCCESS, Some message)).
Proof.
  intros Hrequest Hl. split.
  - unfold executeJava.
    rewrite (occurrences_ready l s' Hl (request_true_ready _ _ _ _ _ Hrequest)).
    by destruct (negb _).
  - intros Hsession. unfold executeJava, onMessageChannelReady. cbn.
    by rewrite Hsession.
Qed.

(** *** What Java tells the native side *)

Lemma attempt_natives activity origin s : natives (attempt activity origin s) = natives s.
Proof. unfold attemptPostMessageChannelRequest. cbv zeta. by break_state. Qed.

Lemma run_natives r s : natives (run answer r s) = natives s.
Proof.
  destruct r; cbn [run]; unfold retry_if_pending; break_state;
    by rewrite ?attempt_natives.
Qed.

Lemma ensureSession_natives s :
  natives (ensureSession getPackageName newSession s) = natives s.
Proof. unfold ensureSession, bindCustomTabs. by break_state. Qed.

Lemma request_natives onUiThread activity origin s :
  natives (snd (request onUiThread activity origin s)) = natives s.
Proof.
  unfold requestPostMessageChannel, runOnUiThread.
  destruct activity, origin; cbn [snd]; try done.
  destruct (Java.isEmpty _); cbn [snd]; [done|].
  destruct (negb _); cbn [snd]; [apply ensureSession_natives|].
  destruct onUiThread; cbv iota; rewrite ?run_natives; apply ensureSession_natives.
Qed.

(** What [onNavigationEvent] tells the native side: the event with
    [lastNavigatedUrl], and then [nativeOnTabOpened] for [TAB_SHOWN]. *)
Lemma onNavigationEvent_natives e s :
  natives (onNavigationEvent e s)
  = ((if e =? TAB_SHOWN then [nativeOnTabOpened] else [])
     ++ nativeOnNavigationEvent e (lastNavigatedUrl s) :: natives s)%list.
Proof. unfold onNavigationEvent. cbv zeta. by break_state. Qed.

Lemma occur_no_TabClosed o s :
  no_TabClosed (natives s) -> no_TabClosed (natives (occur o s)).
Proof.
  unfold no_TabClosed. intros Hs. destruct o; cbn [ChromeCustomTabs.occur].
  - rewrite onNavigationEvent_natives.
    destruct (navigationEvent =? TAB_SHOWN); cbn [app]; by repeat constructor.
  - by constructor.
  - by constructor.
  - done.
  - done.
  - pose proof (handleDeepLink_state intent s) as H.
    destruct (handleDeepLink intent s) as [[b s']|]; [|done].
    destruct H as [->|(? & ? & ->)]; [done|]. by constructor.
  - by rewrite request_natives.
  - done.
  - unfold dispatch. destruct (mainLooper s) as [|[when r] rest]; [done|].
    by rewrite run_natives.
  - unfold setActivity, bindCustomTabs. destruct activity; [|done]. by break_state.
  - done.
Qed.

Lemma occurrences_no_TabClosed l : forall s,
  no_TabClosed (natives s) -> no_TabClosed (natives (occurrences l s)).
Proof.
  induction l as [|o l IH]; intros s Hs; [done|].
  rewrite occurrences_cons. by apply IH, occur_no_TabClosed.
Qed.

Lemma HandleNavigationEvent_registration this Event URL w :
  FString_eq Event "TabClosed" = false ->
  ActiveInstance w = Some this ->
  ActiveInstance (HandleNavigationEvent true this Event URL w) = Some this.
Proof.
  intros HEvent Hactive. unfold HandleNavigationEvent. rewrite HEvent.
  unfold OnCustomTabOpened. cbv zeta.
  repeat match goal with
         | |- context [if ?b then _ else _] => destruct b
         end; done.
Qed.

Lemma navigation_event_not_TabClosed c Event URL :
  c <> nativeOnTabClosed ->
  navigation_event c = Some (Event, URL) ->
  FString_eq Event "TabClosed" = false.
Proof.
  destruct c; cbn [navigation_event]; intros Hc [= <- <-]; try done.
  apply EventName_not_TabClosed.
Qed.

(** The task of a call other than [nativeOnTabClosed] closes no object and
    leaves the registration as it is. *)
Lemma GameThreadTask_keeps_open c w p :
  c <> nativeOnTabClosed ->
  IsChromeCustomTabOpen p w = true ->
  IsChromeCustomTabOpen p (GameThreadTask c w) = true.
Proof.
  intros Hc Hopen. unfold GameThreadTask.
  destruct (GetActiveInstance w) as [i|] eqn:Hactive; [|done].
  assert (Hnav : forall Event URL,
    FString_eq Event "TabClosed" = false ->
    IsChromeCustomTabOpen p (HandleNavigationEvent true i Event URL w) = true).
  { intros Event URL HEvent. destruct (decide (i = p)) as [->|Hne].
    - destruct (open_is_live _ _ Hopen) as (o & Ho & Hb).
      rewrite (HandleNavigationEvent_open _ _ _ _ _ _ Ho).
      by rewrite navigation_step_stays_open, HEvent.
    - unfold IsChromeCustomTabOpen, member in *.
      by rewrite HandleNavigationEvent_others. }
  destruct c; try done; cbn [navigation_event];
    try (apply Hnav; first [apply EventName_not_TabClosed | reflexivity]).
  by rewrite HandleDeepLink_open.
Qed.

Lemma GameThreadTask_keeps_registration c w :
  c <> nativeOnTabClosed ->
  ActiveInstance (GameThreadTask c w) = ActiveInstance w.
Proof.
  intros Hc. unfold GameThreadTask.
  destruct (GetActiveInstance w) as [i|] eqn:Hactive; [|done].
  apply GetActiveInstance_Some in Hactive as [Hactive _].
  destruct c; try done; cbn [navigation_event]; rewrite Hactive;
    apply HandleNavigationEvent_registration;
    first [apply EventName_not_TabClosed | reflexivity | done].
Qed.

Lemma GameThreadTasks_keep_open calls : forall w p,
  no_TabClosed calls ->
  IsChromeCustomTabOpen p w = true ->
  IsChromeCustomTabOpen p (GameThreadTasks calls w) = true
  /\ ActiveInstance (GameThreadTasks calls w) = ActiveInstance w.
Proof.
  induction calls as [|c calls IH]; intros w p Hcalls Hopen; [done|].
  apply Forall_cons in Hcalls as [Hc Hcalls].
  unfold GameThreadTasks in *. cbn [fold_left].
  destruct (IH (GameThreadTask c w) p Hcalls) as [Hopen' Hactive'].
  { by apply GameThreadTask_keeps_open. }
  split; [done|]. rewrite Hactive'. by apply GameThreadTask_keeps_registration.
Qed.

(** X13.  The Java class never calls [nativeOnTabClosed].  Whatever happens
    on the Java side (navigation events of any number, [TAB_HIDDEN] included,
    channel callbacks, messages, deep links, service connections, channel
    requests, looper turns, the activity being set or destroyed), the calls
    it makes to the native side do not
    include [nativeOnTabClosed]; and when the game thread runs the tasks of
    all these calls, every object whose tab is open is still open afterwards,
    and the registered instance is still registered.  A session is closed by
    [CloseChromeCustomTab] only, never by the user closing the tab. *)
Theorem Java_never_reports_the_tab_closed l s w p :
  no_TabClosed (natives s) ->
  IsChromeCustomTabOpen p w = true ->
  no_TabClosed (natives (occurrences l s))
  /\ IsChromeCustomTabOpen p (deliver (occurrences l s) w) = true
  /\ ActiveInstance (deliver (occurrences l s) w) = ActiveInstance w.
Proof.
  intros Hs Hopen.
  pose proof (occurrences_no_TabClosed l s Hs) as Hl.
  split; [done|]. unfold deliver. apply GameThreadTasks_keep_open; [|done].
  unfold no_TabClosed in *. by apply Forall_rev.
Qed.

(** *** The URL Java reports *)

Lemma attempt_lastNavigatedUrl activity origin s :
  lastNavigatedUrl (attempt activity origin s) = lastNavigatedUrl s.
Proof. unfold attemptPostMessageChannelRequest. cbv zeta. by break_state. Qed.

Lemma run_lastNavigatedUrl r s : lastNavigatedUrl (run answer r s) = lastNavigatedUrl s.
Proof.
  destruct r; cbn [run]; unfold retry_if_pending; break_state;
    by rewrite ?attempt_lastNavigatedUrl.
Qed.

Lemma ensureSession_lastNavigatedUrl s :
  lastNavigatedUrl (ensureSession getPackageName newSession s) = lastNavigatedUrl s.
Proof. unfold ensureSession, bindCustomTabs. by break_state. Qed.

Lemma request_lastNavigatedUrl onUiThread activity origin s :
  lastNavigatedUrl (snd (request onUiThread activity origin s)) = lastNavigatedUrl s.
Proof.
  unfold requestPostMessageChannel, runOnUiThread.
  destruct activity, origin; cbn [snd]; try done.
  destruct (Java.isEmpty _); cbn [snd]; [done|].
  destruct (negb _); cbn [snd]; [apply ensureSession_lastNavigatedUrl|].
  destruct onUiThread; cbv iota; rewrite ?run_lastNavigatedUrl;
    apply ensureSession_lastNavigatedUrl.
Qed.

Lemma onNavigationEvent_lastNavigatedUrl e s :
  lastNavigatedUrl (onNavigationEvent e s) = lastNavigatedUrl s.
Proof. unfold onNavigationEvent. cbv zeta. by break_state. Qed.

Lemma occur_lastNavigatedUrl o s : lastNavigatedUrl (occur o s) = lastNavigatedUrl s.
Proof.
  destruct o; cbn [ChromeCustomTabs.occur]; try done.
  - apply onNavigationEvent_lastNavigatedUrl.
  - pose proof (handleDeepLink_state intent s) as H.
    destruct (handleDeepLink intent s) as [[b s']|]; [|done].
    by destruct H as [->|(? & ? & ->)].
  - apply request_lastNavigatedUrl.
  - unfold dispatch. destruct (mainLooper s) as [|[when r] rest]; [done|].
    by rewrite run_lastNavigatedUrl.
  - unfold setActivity, bindCustomTabs. destruct activity; [|done]. by break_state.
Qed.

Lemma occurrences_lastNavigatedUrl l : forall s,
  lastNavigatedUrl (occurrences l s) = lastNavigatedUrl s.
Proof.
  induction l as [|o l IH]; intros s; [done|].
  by rewrite occurrences_cons, IH, occur_lastNavigatedUrl.
Qed.

Lemma navigation_step_url Event URL o :
  IsEmpty URL = false ->
  FString_eq Event "TabClosed" = false ->
  CurrentURL (navigation_step Event URL o) = URL.
Proof.
  intros HURL HEvent. unfold navigation_step. rewrite HURL, HEvent. cbn [negb].
  by destruct (_ && _).
Qed.


(** *** The budget of transport calls *)

Lemma first_attempts_enqueue when r queue :
  first_attempts (enqueue when r queue)
  = (if is_retry r then 0 else 1) + first_attempts queue.
Proof.
  induction queue as [|[t r'] queue IH]; [done|].
  cbn [enqueue]. destruct (when <? t); cbn [first_attempts]; [done|].
  rewrite IH. lia.
Qed.

Lemma first_attempts_nonnegative queue : 0 <= first_attempts queue.
Proof.
  induction queue as [|[t r] queue IH]; cbn [first_attempts]; [lia|].
  destruct (is_retry r); lia.
Qed.

Lemma budget_nonnegative s : within_budget s -> 0 <= budget s.
Proof.
  unfold within_budget, budget. intros Hs.
  pose proof (first_attempts_nonnegative (mainLooper s)).
  destruct (pendingRetryOrigin s); [|lia].
  destruct Hs; [by eexists|]. lia.
Qed.

(** One attempt: it is within the budget when something is pending, and costs
    one call more otherwise. *)
Lemma attempt_accounting activity origin s :
  within_budget s ->
  within_budget (attempt activity origin s)
  /\ Z.of_nat (length (requests (attempt activity origin s)))
     + budget (attempt activity origin s)
     <= Z.of_nat (length (requests s)) + budget s
        + (match pendingRetryOrigin s with Some _ => 0 | None => 1 end).
Proof.
  unfold within_budget, budget, attemptPostMessageChannelRequest. intros Hs.
  destruct (customTabsSession s); cbn [negb].
  2: { cbn. split; [done|]. destruct (pendingRetryOrigin s); lia. }
  cbv zeta. destruct (answer _ origin); cbn [negb].
  - cbn. split; [by intros [x Hx]|].
    destruct (pendingRetryOrigin s) as [o|]; [|lia].
    destruct Hs; [by eexists|]. unfold MAX_POSTMESSAGE_RETRIES in *. lia.
  - cbn [postMessageRetryCount set_postMessageRetryCount set_requests Log set_logcat].
    destruct (pendingRetryOrigin s) as [o|] eqn:Hpending.
    + destruct Hs as [Hlow Hhigh]; [by eexists|].
      unfold MAX_POSTMESSAGE_RETRIES in *.
      rewrite int_add_small by lia.
      destruct (postMessageRetryCount s + 1 <? 5) eqn:Hless.
      * apply Z.ltb_lt in Hless. unfold postDelayed. cbn. rewrite Hpending.
        rewrite first_attempts_enqueue. cbn [is_retry]. split; [|lia].
        intros _. lia.
      * apply Z.ltb_ge in Hless. cbn. split; [by intros [x Hx]|lia].
    + destruct (_ <? _).
      * unfold postDelayed. cbn. rewrite Hpending.
        rewrite first_attempts_enqueue. cbn [is_retry]. split; [by intros [x Hx]|lia].
      * cbn. split; [by intros [x Hx]|lia].
Qed.

Lemma run_accounting r s :
  within_budget s ->
  within_budget (run answer r s)
  /\ Z.of_nat (length (requests (run answer r s))) + budget (run answer r s)
     <= Z.of_nat (length (requests s)) + budget s + (if is_retry r then 0 else 1).
Proof.
  intros Hs.
  assert (Hretry : forall activity,
    within_budget (retry_if_pending answer activity s)
    /\ Z.of_nat (length (requests (retry_if_pending answer activity s)))
       + budget (retry_if_pending answer activity s)
       <= Z.of_nat (length (requests s)) + budget s + 0).
  { intros activity. unfold retry_if_pending.
    destruct (pendingRetryOrigin s) as [current|] eqn:Hpending; [|split; [done|lia]].
    destruct (negb (messageChannelReady s)); [|split; [done|lia]].
    pose proof (attempt_accounting activity current s Hs) as H.
    by rewrite Hpending in H. }
  destruct r; cbn [run is_retry]; [|apply Hretry..].
  destruct (attempt_accounting activity origin s Hs) as [Hwithin Hbound].
  split; [done|]. destruct (pendingRetryOrigin s); lia.
Qed.

Lemma dispatch_accounting s :
  within_budget s ->
  within_budget (dispatch answer s)
  /\ Z.of_nat (length (requests (dispatch answer s))) + budget (dispatch answer s)
     <= Z.of_nat (length (requests s)) + budget s.
Proof.
  intros Hs. unfold dispatch.
  destruct (mainLooper s) as [|[when r] rest] eqn:Hqueue; [split; [done|lia]|].
  cbv zeta.
  set (s1 := set_uptimeMillis (Z.max (uptimeMillis s) when) (set_mainLooper rest s)).
  assert (Hs1 : within_budget s1) by exact Hs.
  destruct (run_accounting r s1 Hs1) as [Hwithin Hbound].
  split; [done|].
  assert (Hcost : Z.of_nat (length (requests s1)) + budget s1
                  + (if is_retry r then 0 else 1)
                  = Z.of_nat (length (requests s)) + budget s).
  { unfold budget. cbn. rewrite Hqueue. cbn [first_attempts]. lia. }
  change (Z.of_nat (length (requests (run answer r s1))) + budget (run answer r s1)
          <= Z.of_nat (length (requests s)) + budget s).
  lia.
Qed.

Lemma ensureSession_accounting s :
  pendingRetryOrigin (ensureSession getPackageName newSession s) = pendingRetryOrigin s
  /\ postMessageRetryCount (ensureSession getPackageName newSession s)
     = postMessageRetryCount s
  /\ mainLooper (ensureSession getPackageName newSession s) = mainLooper s
  /\ requests (ensureSession getPackageName newSession s) = requests s.
Proof. unfold ensureSession, bindCustomTabs. by break_state. Qed.

(** A request adds at most six calls to the budget: five for the new count,
    and one for the first attempt when it has to wait. *)
Lemma request_accounting onUiThread activity origin s :
  within_budget s ->
  within_budget (snd (request onUiThread activity origin s))
  /\ Z.of_nat (length (requests (snd (request onUiThread activity origin s))))
     + budget (snd (request onUiThread activity origin s))
     <= Z.of_nat (length (requests s)) + budget s + 6.
Proof.
  intros Hs. pose proof (budget_nonnegative s Hs) as Hnonnegative.
  unfold requestPostMessageChannel.
  destruct activity as [activity|], origin as [origin|]; cbn [snd];
    try (split; [done|lia]).
  destruct (Java.isEmpty origin); cbn [snd]; [split; [done|lia]|].
  destruct (ensureSession_accounting s) as (Hpending & Hcount & Hqueue & Hrequests).
  set (s0 := ensureSession getPackageName newSession s) in *.
  assert (Hs0 : within_budget s0).
  { unfold within_budget. by rewrite Hpending, Hcount. }
  assert (Hsame : Z.of_nat (length (requests s0)) + budget s0
                  = Z.of_nat (length (requests s)) + budget s).
  { unfold budget. by rewrite Hpending, Hcount, Hqueue, Hrequests. }
  destruct (negb (customTabsSession s0)); cbn [snd]; [split; [exact Hs0|]|].
  { unfold budget in *. cbn. lia. }
  set (s1 := set_postMessageRetryCount 0
               (set_messageChannelReady false
                  (set_pendingRetryOrigin (Some origin)
                     (set_pendingOrigin (Some origin) s0)))).
  assert (Hs1 : within_budget s1).
  { unfold within_budget. cbn. unfold MAX_POSTMESSAGE_RETRIES. lia. }
  assert (Harmed : Z.of_nat (length (requests s1)) + budget s1
                   <= Z.of_nat (length (requests s0)) + budget s0 + 5).
  { pose proof (budget_nonnegative s0 Hs0) as H0.
    pose proof (first_attempts_nonnegative (mainLooper s0)) as HF.
    unfold budget in *. cbn. unfold MAX_POSTMESSAGE_RETRIES in *.
    destruct (pendingRetryOrigin s0) as [o|] eqn:Ho; [|lia].
    destruct Hs0 as [Hlow Hhigh]; [by eexists|].
    unfold MAX_POSTMESSAGE_RETRIES in *. lia. }
  unfold runOnUiThread. destruct onUiThread.
  - destruct (run_accounting (FirstAttempt activity origin) s1 Hs1) as [Hwithin Hbound].
    cbn [is_retry] in Hbound. split; [done|].
    assert (Hfirst : Z.of_nat (length (requests (run answer (FirstAttempt activity origin) s1)))
                     + budget (run answer (FirstAttempt activity origin) s1)
                     <= Z.of_nat (length (requests s1)) + budget s1).
    { pose proof (attempt_accounting activity origin s1 Hs1) as [_ H].
      change (pendingRetryOrigin s1) with (Some origin) in H. cbv iota in H.
      cbn [run]. lia. }
    lia.
  - split; [exact Hs1|].
    assert (Hposted : budget (postDelayed (FirstAttempt activity origin) 0 s1)
                      = budget s1 + 1).
    { unfold budget, postDelayed. cbn. rewrite first_attempts_enqueue. cbn [is_retry]. lia. }
    change (requests (postDelayed (FirstAttempt activity origin) 0 s1)) with (requests s1).
    lia.
Qed.

Lemma onNavigationEvent_frame e s :
  pendingRetryOrigin (onNavigationEvent e s) = pendingRetryOrigin s
  /\ postMessageRetryCount (onNavigationEvent e s) = postMessageRetryCount s
  /\ requests (onNavigationEvent e s) = requests s
  /\ first_attempts (mainLooper (onNavigationEvent e s)) = first_attempts (mainLooper s).
Proof.
  unfold onNavigationEvent. cbv zeta.
  break_state; unfold postDelayed; cbn; rewrite ?first_attempts_enqueue; done.
Qed.

Lemma onNavigationEvent_accounting e s :
  within_budget s ->
  within_budget (onNavigationEvent e s)
  /\ budget (onNavigationEvent e s) = budget s
  /\ requests (onNavigationEvent e s) = requests s.
Proof.
  intros Hs. destruct (onNavigationEvent_frame e s) as (Hpending & Hcount & Hrequests & Hqueue).
  unfold within_budget, budget in *. by rewrite Hpending, Hcount, Hqueue.
Qed.

Lemma occur_accounting o s :
  within_budget s ->
  within_budget (occur o s)
  /\ Z.of_nat (length (requests (occur o s))) + budget (occur o s)
     <= Z.of_nat (length (requests s)) + budget s
        + (if is_RequestChannel o then 6 else 0).
Proof.
  intros Hs. pose proof (budget_nonnegative s Hs) as Hnonnegative.
  assert (Hsame : within_budget s
    /\ Z.of_nat (length (requests s)) + budget s
       <= Z.of_nat (length (requests s)) + budget s + 0) by (split; [done|lia]).
  destruct o; cbn [ChromeCustomTabs.occur is_RequestChannel].
  - destruct (onNavigationEvent_accounting navigationEvent s Hs) as (H1 & H2 & H3).
    split; [done|]. rewrite H2, H3. lia.
  - split; [unfold within_budget; cbn; by intros [x Hx]|].
    unfold within_budget, budget in *. cbn.
    destruct (pendingRetryOrigin s) as [o|]; [|lia].
    destruct Hs; [by eexists|]. unfold MAX_POSTMESSAGE_RETRIES in *. lia.
  - exact Hsame.
  - exact Hsame.
  - exact Hsame.
  - pose proof (handleDeepLink_state intent s) as H.
    destruct (handleDeepLink intent s) as [[b s']|]; [|exact Hsame].
    destruct H as [->|(? & ? & ->)]; exact Hsame.
  - by apply request_accounting.
  - exact Hsame.
  - destruct (dispatch_accounting s Hs). split; [done|lia].
  - unfold setActivity, bindCustomTabs. destruct activity; [|exact Hsame].
    by break_state.
  - exact Hsame.
Qed.

(** X12.  The retries are bounded whatever happens.  In every state the class
    can be in, the code keeps a budget of calls of the session's
    [requestPostMessageChannel]: what the counter leaves of
    [MAX_POSTMESSAGE_RETRIES] while a request is pending, and one for every
    first attempt that waits in the main looper.  No callback, deep link,
    service event or looper turn adds to it, and every call of the session
    takes one from it; a request adds at most six (five attempts for the new
    count, and one more when the first attempt is posted and runs after the
    pending retries have used the count up).  So the calls made over any
    sequence of occurrences are at most the budget at its start and six for
    each request in it, and while something is pending the counter stays
    between 0 and [MAX_POSTMESSAGE_RETRIES]. *)
Theorem retry_budget_bounds_the_transport_calls l s :
  within_budget s ->
  within_budget (occurrences l s)
  /\ Z.of_nat (length (requests (occurrences l s)))
     <= Z.of_nat (length (requests s)) + budget s
        + 6 * Z.of_nat (length (List.filter is_RequestChannel l)).
Proof.
  intros Hs.
  assert (H : within_budget (occurrences l s)
    /\ Z.of_nat (length (requests (occurrences l s))) + budget (occurrences l s)
       <= Z.of_nat (length (requests s)) + budget s
          + 6 * Z.of_nat (length (List.filter is_RequestChannel l))).
  { revert s Hs. induction l as [|o l IH]; intros s Hs; [split; [done|cbn; lia]|].
    rewrite occurrences_cons.
    destruct (occur_accounting o s Hs) as [Hwithin Hbound].
    destruct (IH _ Hwithin) as [Hwithin' Hbound']. split; [done|].
    cbn [List.filter].
    destruct (is_RequestChannel o); cbn [length]; lia. }
  destruct H as [Hwithin Hbound]. split; [done|].
  pose proof (budget_nonnegative _ Hwithin). lia.
Qed.

(** *** The origin Java reports with a message *)

Lemma attempt_pendingOrigin activity origin s :
  pendingOrigin (attempt activity origin s) = pendingOrigin s.
Proof. unfold attemptPostMessageChannelRequest. cbv zeta. by break_state. Qed.

Lemma run_pendingOrigin r s : pendingOrigin (run answer r s) = pendingOrigin s.
Proof.
  destruct r; cbn [run]; unfold retry_if_pending; break_state;
    by rewrite ?attempt_pendingOrigin.
Qed.

Lemma onNavigationEvent_pendingOrigin e s :
  pendingOrigin (onNavigationEvent e s) = pendingOrigin s.
Proof. unfold onNavigationEvent. cbv zeta. by break_state. Qed.

Lemma request_true_pendingOrigin onUiThread activity origin s s' :
  request onUiThread activity origin s = (true, s') -> pendingOrigin s' = origin.
Proof.
  unfold requestPostMessageChannel, runOnUiThread.
  destruct activity, origin; try discriminate.
  destruct (Java.isEmpty _); [discriminate|].
  destruct (negb _); [discriminate|].
  intros [= <-]. destruct onUiThread; cbv iota; [by rewrite attempt_pendingOrigin|done].
Qed.

Lemma occur_pendingOrigin o s :
  match o with RequestChannel _ _ _ | ActivityDestroyed => false | _ => true end = true ->
  pendingOrigin (occur o s) = pendingOrigin s.
Proof.
  intros Ho. destruct o; try discriminate; cbn [ChromeCustomTabs.occur]; try done.
  - apply onNavigationEvent_pendingOrigin.
  - pose proof (handleDeepLink_state intent s) as H.
    destruct (handleDeepLink intent s) as [[b s']|]; [|done].
    by destruct H as [->|(? & ? & ->)].
  - unfold dispatch. destruct (mainLooper s) as [|[when r] rest]; [done|].
    by rewrite run_pendingOrigin.
  - unfold setActivity, bindCustomTabs. destruct activity; [|done]. by break_state.
Qed.

(** X18.  The origin handed over with a message is the origin of the last
    accepted channel request, not that of the page that sent the message:
    after [requestPostMessageChannel] has returned [true] for an origin, and
    until the next request or the destruction of the activity, every
    [onPostMessage] calls [nativeOnPostMessage] with the message (the empty
    string for [null]) and that origin.  The task of that call changes
    nothing in the world: a message of the page reaches no object. *)
Theorem messages_carry_the_requested_origin
  onUiThread activity origin s s' l message w :
  request onUiThread activity (Some origin) s = (true, s') ->
  forallb (fun o => match o with
                    | RequestChannel _ _ _ | ActivityDestroyed => false
                    | _ => true
                    end) l = true ->
  natives (onPostMessage message (occurrences l s'))
  = nativeOnPostMessage (default EmptyString message) origin :: natives (occurrences l s')
  /\ GameThreadTask (nativeOnPostMessage (default EmptyString message) origin) w = w.
Proof.
  intros Hrequest Hl. split.
  - assert (Horigin : pendingOrigin (occurrences l s') = Some origin).
    { apply request_true_pendingOrigin in Hrequest. revert s' Hrequest.
      induction l as [|o l IH]; intros s' Hs'; [done|].
      cbn [forallb] in Hl. apply andb_prop in Hl as [Ho Hl].
      rewrite occurrences_cons. apply IH; [done|].
      by rewrite occur_pendingOrigin. }
    unfold onPostMessage. cbn [native natives set_natives]. rewrite Horigin.
    by destruct message.
  - unfold GameThreadTask. by destruct (GetActiveInstance w).
Qed.

End Channel.

(** ** Opening a tab on a device *)

Section Device.
Import Engine Unreal ChromeCustomTabs Bridge.
Local Open Scope Z_scope.

Variable newSession : bool.
Variable startActivity : string -> bool.
Variable parseColor : string -> option Z.
Variable appendQueryParameters : string -> list (string * string) -> string.
Variable answer : nat -> string -> bool.

(** X15.  Without a browser that supports Custom Tabs the tab is opened with
    a plain [ACTION_VIEW] intent, and [OpenChromeCustomTab] reports what
    [startActivity] made of it.  With the user agent and the header left
    empty: if an activity takes the intent, [OpenChromeCustomTab] returns
    [true], the object is open with the URL and is the active instance, yet
    the Java class is as it was: there is no session, a PostMessage channel
    cannot be requested and [executeJava] posts nothing.  If no activity takes
    the intent, [OpenChromeCustomTab] returns [false] and nothing changes. *)
Theorem fallback_opens_without_a_session
  jni this URL Color w s started o a onUiThread activity origin :
  objects w !! this = Some o ->
  CustomUserAgent o = EmptyString ->
  CustomHeader o = EmptyString ->
  IsEmpty URL = false ->
  GetJavaEnv jni = true -> FindJavaClass jni = true -> GetStaticMethodID jni = true ->
  activityRef s = Some a ->
  customTabsClient s = false ->
  customTabsSession s = false ->
  let '(result, w', j') :=
    OpenChromeCustomTab true
      (CallStaticBooleanMethod_openTab false newSession startActivity parseColor
         appendQueryParameters)
      jni this URL Color w (s, started) in
  result = startActivity URL
  /\ j' = (s, if startActivity URL then ActionView URL :: started else started)
  /\ (if startActivity URL
      then IsChromeCustomTabOpen this w' = true
           /\ GetCurrentURL this w' = URL
           /\ GetActiveInstance w' = Some this
      else w' = w)
  /\ fst (requestPostMessageChannel false newSession answer onUiThread activity origin s)
     = false
  /\ forall session_postMessage message,
       executeJava session_postMessage message s = (false, None).
Proof.
  intros Ho Hagent Hheader HURL Henv Hclass Hmethod Hactivity Hclient Hsession.
  rewrite OpenChromeCustomTab_cases. cbv zeta.
  rewrite Henv, Hclass, Hmethod, HURL. cbn [negb andb].
  rewrite !(member_live _ _ _ _ _ Ho), Hagent, Hheader.
  unfold CallStaticBooleanMethod_openTab, openTab. cbn [fst snd].
  rewrite Hactivity. cbn [nonempty Java.isEmpty negb orb].
  unfold open, isAvailable. cbn [negb].
  replace (Java.isEmpty URL) with false by (by destruct URL).
  pose proof (OnCustomTabOpened_this true this URL w o Ho) as Hthis.
  destruct (startActivity URL); cbn [fst snd].
  - split; [done|]. split; [done|]. split; [|split].
    + split; [|split].
      * unfold IsChromeCustomTabOpen. by rewrite (member_live _ _ _ _ _ Hthis).
      * unfold GetCurrentURL. by rewrite (member_live _ _ _ _ _ Hthis).
      * unfold GetActiveInstance. cbn [OnCustomTabOpened RegisterActiveInstance
          with_ActiveInstance ActiveInstance].
        rewrite decide_True; [done|].
        change (is_Some (objects (OnCustomTabOpened true this URL w) !! this)).
        rewrite Hthis. by eexists.
    + unfold requestPostMessageChannel, ensureSession, bindCustomTabs.
      destruct activity, origin; try done. destruct (Java.isEmpty _); [done|].
      rewrite Hsession. cbn [negb].
      destruct (serviceConnection s); cbn [negb]; rewrite Hclient; cbn [andb];
        by rewrite Hsession.
    + intros. unfold executeJava. by rewrite Hsession.
  - split; [done|]. split; [done|]. split; [done|]. split.
    + unfold requestPostMessageChannel, ensureSession, bindCustomTabs.
      destruct activity, origin; try done. destruct (Java.isEmpty _); [done|].
      rewrite Hsession. cbn [negb].
      destruct (serviceConnection s); cbn [negb]; rewrite Hclient; cbn [andb];
        by rewrite Hsession.
    + intros. unfold executeJava. by rewrite Hsession.
Qed.

(** X16.  A tab that is opened before the Custom Tabs service has connected
    is launched without a session.  With a supporting browser, [open] returns
    [true] and records the URL; but while no client is connected, the lambda
    it hands to the UI thread builds the intent without a session and requests
    no PostMessage channel, although an origin was given.  Once the service
    has connected with a session, the same lambda builds the intent on the
    session and makes the first request for the origin at once. *)
Theorem tab_opened_before_the_service_connects_has_no_session
  a url toolbarColor hasNavigationBarColor navigationBarColor
  showTitle enableUrlBarHiding enableDefaultShareMenu origin s :
  Java.isEmpty url = false ->
  Java.isEmpty origin = false ->
  customTabsClient s = false ->
  customTabsSession s = false ->
  exists started s1,
    open true newSession startActivity (Some a) (Some url) toolbarColor
      hasNavigationBarColor navigationBarColor showTitle enableUrlBarHiding
      enableDefaultShareMenu (Some origin) s = (true, Some started, s1)
    /\ lastNavigatedUrl s1 = url
    /\ (let '(intent, s2) := launch true newSession answer started s1 in
        intent = Some {| onSession := false; launchUrl := url |}
        /\ requests s2 = requests s
        /\ pendingRetryOrigin s2 = pendingRetryOrigin s
        /\ mainLooper s2 = mainLooper s)
    /\ (let '(intent, s2) :=
          launch true newSession answer started
            (onCustomTabsServiceConnected true s1) in
        intent = Some {| onSession := true; launchUrl := url |}
        /\ requests s2 = origin :: requests s
        /\ pendingOrigin s2 = Some origin).
Proof.
  intros Hurl Horigin Hclient Hsession.
  eexists _, _. split; [|split; [|split]].
  - unfold open, isAvailable. rewrite Hurl. cbn [negb]. reflexivity.
  - reflexivity.
  - cbn [launch]. unfold openInternal.
    set (s1 := set_lastNavigatedUrl url (ensureSession true newSession s)).
    assert (Hs1 : ensureSession true newSession s1 = s1
                  /\ customTabsSession s1 = false
                  /\ requests s1 = requests s
                  /\ pendingRetryOrigin s1 = pendingRetryOrigin s
                  /\ mainLooper s1 = mainLooper s).
    { subst s1. destruct s as [? connection ? ? ? ? ? ? ? ? ? ? ? ?].
      cbn in Hclient, Hsession. subst.
      unfold ensureSession, bindCustomTabs. by destruct connection. }
    destruct Hs1 as (-> & Hno & Hrequests & Hpending & Hqueue).
    rewrite Hno. cbn [andb]. done.
  - cbn [launch]. unfold openInternal.
    set (s1 := onCustomTabsServiceConnected true
                 (set_lastNavigatedUrl url (ensureSession true newSession s))).
    assert (Hs1 : customTabsSession s1 = true /\ requests s1 = requests s).
    { subst s1. destruct s as [? connection ? ? ? ? ? ? ? ? ? ? ? ?].
      cbn in Hclient, Hsession. subst.
      unfold ensureSession, bindCustomTabs. by destruct connection. }
    destruct Hs1 as [Hyes Hrequests].
    assert (Hensure : ensureSession true newSession s1 = s1)
      by (unfold ensureSession; by rewrite Hyes).
    rewrite Hensure, Hyes. cbn [andb nonempty]. rewrite Horigin. cbn [negb].
    rewrite request_accepted by done. cbn [snd runOnUiThread run].
    split; [done|].
    assert (Harmed : customTabsSession (armed origin s1) = true) by exact Hyes.
    destruct (attempt_calls_once answer a origin (armed origin s1) Harmed)
      as (Hcalls & _).
    rewrite Hcalls. split; [by rewrite <- Hrequests|].
    unfold attemptPostMessageChannelRequest. rewrite Harmed. cbn [negb]. cbv zeta.
    repeat match goal with
           | |- context [if ?b then _ else _] => destruct b
           end; reflexivity.
Qed.

End Device.

(** ** Integers in a deep link *)

Section Integers.
Import Engine Unreal.
Local Open Scope Z_scope.

Lemma digits_value_of_uint_acc d : forall acc,
  digits_value (Z.pos acc) (NilEmpty.string_of_uint d) = Z.pos (Pos.of_uint_acc d acc).
Proof.
  induction d; intros acc; cbn [NilEmpty.string_of_uint digits_value Pos.of_uint_acc];
    try reflexivity;
    match goal with
    | |- context [Chars.is_digit ?c] =>
        change (Chars.is_digit c) with true; cbv iota
    end;
    rewrite <- IHd; f_equal;
    match goal with
    | |- context [Z.of_nat ?t] =>
        let v := eval vm_compute in (Z.of_nat t) in change (Z.of_nat t) with v
    end; lia.
Qed.

Lemma digits_value_of_uint d :
  digits_value 0 (NilEmpty.string_of_uint d) = Z.of_N (Pos.of_uint d).
Proof.
  induction d; cbn [NilEmpty.string_of_uint digits_value Pos.of_uint]; try reflexivity;
    match goal with
    | |- context [Chars.is_digit ?c] =>
        change (Chars.is_digit c) with true; cbv iota
    end;
    first [ exact IHd | apply digits_value_of_uint_acc ].
Qed.

Lemma digits_value_NilZero d :
  digits_value 0 (NilZero.string_of_uint d) = Z.of_uint d.
Proof.
  unfold NilZero.string_of_uint, Z.of_uint.
  destruct d; try apply digits_value_of_uint. reflexivity.
Qed.

(** [strtol] reads back what [%d] prints. *)
Lemma strtol_decimal n :
  strtol (NilZero.string_of_int (Z.to_int n))
  = Z.max (- 2 ^ 63) (Z.min (2 ^ 63 - 1) n).
Proof.
  rewrite <- (DecimalZ.of_to n) at 2. unfold strtol.
  destruct (Z.to_int n) as [d|d]; cbn [NilZero.string_of_int Z.of_int].
  - rewrite <- digits_value_NilZero.
    destruct d; reflexivity.
  - rewrite <- digits_value_NilZero. cbn [skip_space is_space].
    change (is_space "-") with false. cbv iota. reflexivity.
Qed.

(** X20.  An integer survives the way through a deep link.  When the value
    of a parameter is the decimal text of an integer [n] of the range of
    [int32], [GetDeepLinkParameterAsInt] returns [n].  Outside that range the
    value is not rejected: it saturates at the range of [long] and is then
    cut to 32 bits. *)
Theorem integer_parameter_is_read_back SanitizeFloat ParamsJson Key n OutValue :
  GetDeepLinkParameter SanitizeFloat ParamsJson Key EmptyString
  = (true, NilZero.string_of_int (Z.to_int n)) ->
  GetDeepLinkParameterAsInt SanitizeFloat ParamsJson Key OutValue
  = (true, to_int32 (Z.max (- 2 ^ 63) (Z.min (2 ^ 63 - 1) n)))
  /\ (- 2 ^ 31 <= n < 2 ^ 31 ->
      GetDeepLinkParameterAsInt SanitizeFloat ParamsJson Key OutValue = (true, n)).
Proof.
  intros Hfound.
  assert (Hint : GetDeepLinkParameterAsInt SanitizeFloat ParamsJson Key OutValue
                 = (true, to_int32 (Z.max (- 2 ^ 63) (Z.min (2 ^ 63 - 1) n)))).
  { unfold GetDeepLinkParameterAsInt. rewrite Hfound. unfold Atoi.
    by rewrite strtol_decimal. }
  split; [exact Hint|].
  intros Hrange. rewrite Hint. f_equal. unfold to_int32.
  rewrite Z.max_r, Z.min_r by lia. rewrite Z.mod_small by lia. lia.
Qed.

Lemma integer_parameter_is_read_back_witness :
  GetDeepLinkParameterAsInt (fun lexeme => lexeme)
    (Spec.object_text [("hp", "-250")]) "hp" 0
  = (true, -250).
Proof.
  assert (Hfound : GetDeepLinkParameter (fun lexeme => lexeme)
                     (Spec.object_text [("hp", "-250")]) "hp" EmptyString
                   = (true, NilZero.string_of_int (Z.to_int (-250))))
    by (vm_compute; reflexivity).
  assert (Hrange : - 2 ^ 31 <= -250 < 2 ^ 31) by lia.
  exact (proj2 (integer_parameter_is_read_back (fun lexeme => lexeme)
                  (Spec.object_text [("hp", "-250")]) "hp" (-250) 0 Hfound) Hrange).
Defined.

End Integers.

(** ** Opening a tab from the game *)

Section FromTheGame.
Import Engine Unreal ChromeCustomTabs Bridge.
Local Open Scope Z_scope.

Variable newSession : bool.
Variable startActivity : string -> bool.
Variable parseColor : string -> option Z.
Variable appendQueryParameters : string -> list (string * string) -> string.
Variable answer : nat -> string -> bool.

Lemma ensureSession_frame getPackageName s :
  let s' := ensureSession getPackageName newSession s in
  requests s' = requests s
  /\ pendingRetryOrigin s' = pendingRetryOrigin s
  /\ pendingOrigin s' = pendingOrigin s
  /\ messageChannelReady s' = messageChannelReady s
  /\ mainLooper s' = mainLooper s
  /\ natives s' = natives s
  /\ lastNavigatedUrl s' = lastNavigatedUrl s
  /\ activityRef s' = activityRef s.
Proof.
  cbv zeta. unfold ensureSession, bindCustomTabs.
  repeat match goal with
         | |- context [if ?b then _ else _] => destruct b
         end; done.
Qed.

(** X19.  A tab opened from the game, on a device with Custom Tabs (user
    agent and header left empty).  With the activity set and a URL that is
    not empty, [OpenChromeCustomTab] returns [true] at once, before anything
    is launched and whether or not the service has connected: the object is
    open and registered, Java has recorded the URL and handed one lambda to
    the UI thread.  That lambda launches the URL, on the session if there is
    one, and requests no PostMessage channel: [openTab] passes no origin, so
    the channel stays as it was. *)
Theorem OpenChromeCustomTab_with_Custom_Tabs
  jni this URL Color w s started o a :
  objects w !! this = Some o ->
  CustomUserAgent o = EmptyString ->
  CustomHeader o = EmptyString ->
  IsEmpty URL = false ->
  GetJavaEnv jni = true -> FindJavaClass jni = true -> GetStaticMethodID jni = true ->
  activityRef s = Some a ->
  let '(result, w', j') :=
    OpenChromeCustomTab true
      (CallStaticBooleanMethod_openTab true newSession startActivity parseColor
         appendQueryParameters)
      jni this URL Color w (s, started) in
  result = true
  /\ IsChromeCustomTabOpen this w' = true
  /\ GetActiveInstance w' = Some this
  /\ lastNavigatedUrl (fst j') = URL
  /\ exists toolbarColor,
       let lambda := OpenInternal a URL toolbarColor false 0 true true true None in
       snd j' = lambda :: started
       /\ let '(intent, s2) := launch true newSession answer lambda (fst j') in
          intent = Some {| onSession := customTabsSession s2; launchUrl := URL |}
          /\ requests s2 = requests s
          /\ pendingRetryOrigin s2 = pendingRetryOrigin s
          /\ pendingOrigin s2 = pendingOrigin s
          /\ messageChannelReady s2 = messageChannelReady s
          /\ mainLooper s2 = mainLooper s.
Proof.
  intros Ho Hagent Hheader HURL Henv Hclass Hmethod Hactivity.
  rewrite OpenChromeCustomTab_cases. cbv zeta.
  rewrite Henv, Hclass, Hmethod, HURL. cbn [negb andb].
  rewrite !(member_live _ _ _ _ _ Ho), Hagent, Hheader.
  unfold CallStaticBooleanMethod_openTab, openTab. cbn [fst snd].
  rewrite Hactivity. cbn [nonempty Java.isEmpty negb orb].
  unfold open, isAvailable. cbn [negb].
  replace (Java.isEmpty URL) with false by (by destruct URL).
  cbn [fst snd].
  pose proof (OnCustomTabOpened_this true this URL w o Ho) as Hthis.
  split; [done|]. split; [|split; [|split]].
  - unfold IsChromeCustomTabOpen. by rewrite (member_live _ _ _ _ _ Hthis).
  - unfold GetActiveInstance. cbn [OnCustomTabOpened RegisterActiveInstance
      with_ActiveInstance ActiveInstance].
    rewrite decide_True; [done|].
    change (is_Some (objects (OnCustomTabOpened true this URL w) !! this)).
    rewrite Hthis. by eexists.
  - reflexivity.
  - eexists. cbv zeta. split; [reflexivity|].
    cbn [launch]. unfold openInternal. cbn [nonempty andb].
    rewrite andb_false_r.
    set (s1 := set_lastNavigatedUrl URL (ensureSession true newSession s)).
    destruct (ensureSession_frame true s1) as (H1 & H2 & H3 & H4 & H5 & _).
    destruct (ensureSession_frame true s) as (G1 & G2 & G3 & G4 & G5 & _).
    split; [reflexivity|].
    rewrite H1, H2, H3, H4, H5. subst s1.
    cbn [set_lastNavigatedUrl requests pendingRetryOrigin pendingOrigin
         messageChannelReady mainLooper].
    by rewrite G1, G2, G3, G4, G5.
Qed.

End FromTheGame.

(** ** The properties at concrete inputs *)

Section Instances.
Import Engine Unreal ChromeCustomTabs Bridge.
Local Open Scope Z_scope.

Lemma closing_one_object_unregisters_the_other_witness :
  let jni := {| GetJavaEnv := true; FindJavaClass := true; GetStaticMethodID := true |} in
  let w1 := OnCustomTabOpened true 1%positive "https://a.example" fresh_world in
  let w2 := OnCustomTabOpened true 2%positive "https://b.example" w1 in
  let w3 := CloseChromeCustomTab true jni 1%positive w2 in
  GetActiveInstance w2 = Some 2%positive
  /\ IsChromeCustomTabOpen 2%positive w3 = true
  /\ GetActiveInstance w3 = None.
Proof.
  intros jni w1 w2 w3.
  pose (call := fun (_ _ _ _ : string) (j : nat) => (true, j)).
  assert (Hne : 1%positive <> 2%positive) by done.
  assert (HA : objects fresh_world !! 1%positive = Some constructed)
    by (vm_compute; reflexivity).
  assert (HB : objects fresh_world !! 2%positive = Some constructed)
    by (vm_compute; reflexivity).
  assert (H1 : OpenChromeCustomTab true call jni 1%positive "https://a.example" "#4285F4"
                 fresh_world 0%nat = (true, w1, 0%nat)) by reflexivity.
  assert (H2 : OpenChromeCustomTab true call jni 2%positive "https://b.example" "#4285F4"
                 w1 0%nat = (true, w2, 0%nat)) by reflexivity.
  pose proof (closing_one_object_unregisters_the_other call jni 1%positive 2%positive
    "https://a.example" "https://b.example" "#4285F4" "#4285F4" fresh_world w1 w2
    0%nat 0%nat 0%nat constructed constructed [] Hne HA HB eq_refl H1 H2) as H.
  cbv zeta in H. destruct H as ((_ & _ & Hactive) & _ & Hopen & _ & Hnone & _).
  split; [exact Hactive|]. split; [exact Hopen|exact Hnone].
Defined.

Lemma executeJava_waits_for_the_channel_witness :
  let s' :=
    snd (requestPostMessageChannel true true rejecting true (Some 1%positive)
           (Some "https://example.org") connected) in
  executeJava (fun _ => 0) "ping"
    (occurrences true true rejecting [LooperTurn; NavigationEvent 2; LooperTurn] s')
  = (false, None).
Proof.
  intros s'.
  assert (Hcall : requestPostMessageChannel true true rejecting true (Some 1%positive)
                    (Some "https://example.org") connected = (true, s'))
    by (vm_compute; reflexivity).
  pose proof (executeJava_waits_for_the_channel true true rejecting (fun _ => 0)
    true (Some 1%positive) (Some "https://example.org") connected s'
    [LooperTurn; NavigationEvent 2; LooperTurn] "ping" Hcall eq_refl) as H.
  exact (proj1 H).
Defined.

Lemma retry_budget_bounds_the_transport_calls_witness :
  let l := [RequestChannel false (Some 1%positive) (Some "https://example.org");
            LooperTurn; NavigationEvent 2; LooperTurn; LooperTurn; LooperTurn;
            LooperTurn; LooperTurn; LooperTurn] in
  Z.of_nat (length (requests (occurrences true true rejecting l connected)))
  <= Z.of_nat (length (requests connected)) + budget connected
     + 6 * Z.of_nat (length (List.filter is_RequestChannel l)).
Proof.
  intros l.
  assert (Hwithin : within_budget connected) by (by intros [x Hx]).
  exact (proj2 (retry_budget_bounds_the_transport_calls true true rejecting l connected
                  Hwithin)).
Defined.

Lemma Java_never_reports_the_tab_closed_witness :
  IsChromeCustomTabOpen 1%positive
    (deliver
       (occurrences true true rejecting
          [NavigationEvent 1; NavigationEvent 2; NavigationEvent 6; NavigationEvent 5]
          connected)
       open_world)
  = true.
Proof.
  assert (Hquiet : no_TabClosed (natives connected)) by constructor.
  assert (Hopen : IsChromeCustomTabOpen 1%positive open_world = true)
    by (vm_compute; reflexivity).
  exact (proj1 (proj2 (Java_never_reports_the_tab_closed true true rejecting
    [NavigationEvent 1; NavigationEvent 2; NavigationEvent 6; NavigationEvent 5]
    connected open_world 1%positive Hquiet Hopen))).
Defined.


Lemma fallback_opens_without_a_session_witness :
  let jni := {| GetJavaEnv := true; FindJavaClass := true; GetStaticMethodID := true |} in
  let s := setActivity false (Some 1%positive) loaded in
  let '(result, w', j') :=
    OpenChromeCustomTab true
      (CallStaticBooleanMethod_openTab false true (fun _ => true) (fun _ => None)
         (fun url _ => url))
      jni 1%positive "https://example.org" "#4285F4" fresh_world (s, []) in
  result = true
  /\ j' = (s, [ActionView "https://example.org"])
  /\ fst (requestPostMessageChannel false true rejecting true (Some 1%positive)
            (Some "https://example.org") s) = false.
Proof.
  intros jni s.
  assert (Ho : objects fresh_world !! 1%positive = Some constructed)
    by (vm_compute; reflexivity).
  pose proof (fallback_opens_without_a_session true (fun _ => true) (fun _ => None)
    (fun url _ => url) rejecting jni 1%positive "https://example.org" "#4285F4"
    fresh_world s [] constructed 1%positive true (Some 1%positive)
    (Some "https://example.org") Ho eq_refl eq_refl eq_refl eq_refl eq_refl eq_refl
    eq_refl eq_refl eq_refl) as H.
  destruct (OpenChromeCustomTab _ _ _ _ _ _ _ _) as [[result w'] j'].
  destruct H as (Hresult & Hj & _ & Hrequest & _).
  split; [exact Hresult|]. split; [exact Hj|exact Hrequest].
Defined.

Lemma tab_opened_before_the_service_connects_has_no_session_witness :
  let s := setActivity true (Some 1%positive) loaded in
  exists started s1,
    open true true (fun _ => true) (Some 1%positive) (Some "https://example.org")
      DEFAULT_TOOLBAR_COLOR false 0 true true true (Some "https://example.org") s
    = (true, Some started, s1)
    /\ fst (launch true true rejecting started s1)
       = Some {| onSession := false; launchUrl := "https://example.org" |}.
Proof.
  intros s.
  destruct (tab_opened_before_the_service_connects_has_no_session true (fun _ => true)
    rejecting 1%positive "https://example.org" DEFAULT_TOOLBAR_COLOR false 0
    true true true "https://example.org" s eq_refl eq_refl eq_refl eq_refl)
    as (started & s1 & Hopen & _ & Hlaunch & _).
  exists started, s1. split; [exact Hopen|].
  destruct (launch true true rejecting started s1) as [intent s2].
  exact (proj1 Hlaunch).
Defined.

Lemma messages_carry_the_requested_origin_witness :
  let s' :=
    snd (requestPostMessageChannel true true rejecting true (Some 1%positive)
           (Some "https://example.org") connected) in
  natives (onPostMessage (Some "hello")
             (occurrences true true rejecting [LooperTurn; NavigationEvent 2] s'))
  = nativeOnPostMessage "hello" "https://example.org"
    :: natives (occurrences true true rejecting [LooperTurn; NavigationEvent 2] s').
Proof.
  intros s'.
  assert (Hcall : requestPostMessageChannel true true rejecting true (Some 1%positive)
                    (Some "https://example.org") connected = (true, s'))
    by (vm_compute; reflexivity).
  pose proof (messages_carry_the_requested_origin true true rejecting true
    (Some 1%positive) "https://example.org" connected s'
    [LooperTurn; NavigationEvent 2] (Some "hello") fresh_world Hcall eq_refl) as H.
  exact (proj1 H).
Defined.

Lemma OpenChromeCustomTab_with_Custom_Tabs_witness :
  let jni := {| GetJavaEnv := true; FindJavaClass := true; GetStaticMethodID := true |} in
  let '(result, w', j') :=
    OpenChromeCustomTab true
      (CallStaticBooleanMethod_openTab true true (fun _ => true) (fun _ => None)
         (fun url _ => url))
      jni 1%positive "https://example.org" "#4285F4" fresh_world (connected, []) in
  result = true /\ lastNavigatedUrl (fst j') = "https://example.org".
Proof.
  intros jni.
  assert (Ho : objects fresh_world !! 1%positive = Some constructed)
    by (vm_compute; reflexivity).
  pose proof (OpenChromeCustomTab_with_Custom_Tabs true (fun _ => true) (fun _ => None)
    (fun url _ => url) rejecting jni 1%positive "https://example.org" "#4285F4"
    fresh_world connected [] constructed 1%positive Ho eq_refl eq_refl eq_refl
    eq_refl eq_refl eq_refl eq_refl) as H.
  destruct (OpenChromeCustomTab _ _ _ _ _ _ _ _) as [[result w'] j'].
  destruct H as (Hresult & _ & _ & Hurl & _).
  split; [exact Hresult|exact Hurl].
Defined.

End Instances.
